(** * spine-ftp: a shallow embedding of the FTP client and its verification

    The development follows the TypeScript sources of the client:
    - [expressions.ts]: the regular expressions of the reply grammar,
    - [connection.ts]: the control connection (reply parser, reply queue)
      and the data connection ([readToEnd]),
    - [parseList.ts]: the parser of Unix listings,
    - [commands.ts]: the command catalogue,
    - [index.ts]: the [FtpClient] facade.
    Of the commands that move files between the server and the local disk
    (STOR, RETR) the dialogue on the control connection is part of it; the
    local disk is the environment, and what is read from it or written to
    it is not kept.

    Text is modelled as [string], a sequence of 8-bit characters, which is
    what [Buffer.toString("binary")] produces; numbers that the code uses
    as integers are in [Z], with [None] for [NaN] where [parseInt] may
    yield it. A promise is a function from the state of the connection to
    an outcome and the new state. The server is the environment: the
    replies it sends are in the queue of the connection (or arrive as
    [data] events that the parser turns into queued replies), and waiting
    for a reply when none is queued ends in the timeout. *)

From Stdlib Require Import ZArith Ascii String List Bool Lia DecimalString.
From Stdlib Require DecimalPos.
From stdpp Require Import base option list strings gmap.

Local Open Scope string_scope.
Local Open Scope Z_scope.
Local Open Scope list_scope.

(** ** JavaScript string primitives used by the client *)

Module Js.

Definition CR : ascii := Ascii.ascii_of_nat 13.
Definition LF : ascii := Ascii.ascii_of_nat 10.
Definition DQUOTE : ascii := Ascii.ascii_of_nat 34.

Definition code (a : ascii) : nat := Ascii.nat_of_ascii a.

(** White space and line terminators of ECMAScript, restricted to the
    code points a binary-decoded buffer can hold (0..255). *)
Definition is_ws (a : ascii) : bool :=
  let n := code a in
  ((9 <=? n) && (n <=? 13))%nat || (n =? 32)%nat || (n =? 160)%nat.

(** Characters the regular expression atom [.] refuses. *)
Definition is_line_terminator (a : ascii) : bool :=
  let n := code a in (n =? 10)%nat || (n =? 13)%nat.

Definition is_digit (a : ascii) : bool :=
  let n := code a in ((48 <=? n) && (n <=? 57))%nat.

Definition is_empty (s : string) : bool :=
  match s with EmptyString => true | String _ _ => false end.

(** [iconv.encode(s, 'utf8')] on text whose characters are code points
    below 256: a code point below 128 is one byte, any other the two
    bytes [110000xx 10xxxxxx]. *)
Fixpoint utf8_encode (s : string) : string :=
  match s with
  | EmptyString => EmptyString
  | String a s' =>
      let n := code a in
      if (n <? 128)%nat then String a (utf8_encode s')
      else
        String (Ascii.ascii_of_nat (192 + n / 64))
          (String (Ascii.ascii_of_nat (128 + n mod 64)) (utf8_encode s'))
  end.

Fixpoint trimStart (s : string) : string :=
  match s with
  | EmptyString => EmptyString
  | String a s' => if is_ws a then trimStart s' else s
  end.

Fixpoint trimEnd (s : string) : string :=
  match s with
  | EmptyString => EmptyString
  | String a s' =>
      let t := trimEnd s' in
      if is_empty t && is_ws a then EmptyString else String a t
  end.

(** [String.prototype.trim] *)
Definition trim (s : string) : string := trimEnd (trimStart s).

Fixpoint drop (n : nat) (s : string) : string :=
  match n, s with
  | O, _ => s
  | S k, EmptyString => EmptyString
  | S k, String _ s' => drop k s'
  end.

Fixpoint take (n : nat) (s : string) : string :=
  match n, s with
  | O, _ => EmptyString
  | S k, EmptyString => EmptyString
  | S k, String a s' => String a (take k s')
  end.

(** [s.substr(from)] and [s.substring(from)] for a non-negative [from]. *)
Definition substr_from (from : nat) (s : string) : string := drop from s.

(** [s.substr(from, len)] *)
Definition substr (from len : nat) (s : string) : string := take len (drop from s).

Definition cons_head (a : ascii) (l : list string) : list string :=
  match l with
  | [] => [String a EmptyString]
  | x :: xs => String a x :: xs
  end.

(** [s.split(sep)] for a non-empty separator string: [skip] counts the
    characters of a separator occurrence still to be passed over. *)
Fixpoint split_go (sep : string) (skip : nat) (s : string) : list string :=
  match s with
  | EmptyString => [EmptyString]
  | String a s' =>
      match skip with
      | S k => split_go sep k s'
      | O =>
          if String.prefix sep s
          then EmptyString :: split_go sep (String.length sep - 1) s'
          else cons_head a (split_go sep 0 s')
      end
  end.

Definition split (sep : string) (s : string) : list string := split_go sep 0 s.

(** [s.includes(sub)] *)
Fixpoint includes (sub s : string) : bool :=
  String.prefix sub s ||
  match s with
  | EmptyString => false
  | String _ s' => includes sub s'
  end.

Definition upper_char (a : ascii) : ascii :=
  let n := code a in
  if ((97 <=? n) && (n <=? 122))%nat then Ascii.ascii_of_nat (n - 32) else a.

Definition lower_char (a : ascii) : ascii :=
  let n := code a in
  if ((65 <=? n) && (n <=? 90))%nat then Ascii.ascii_of_nat (n + 32) else a.

Fixpoint map_chars (f : ascii -> ascii) (s : string) : string :=
  match s with
  | EmptyString => EmptyString
  | String a s' => String (f a) (map_chars f s')
  end.

(** [toUpperCase] and [toLowerCase] on the ASCII letters. *)
Definition toUpperCase : string -> string := map_chars upper_char.
Definition toLowerCase : string -> string := map_chars lower_char.

(** [arr.pop()] read as a value: the last element, [None] for [undefined]. *)
Definition pop {A} (l : list A) : option A := last l.

(** String concatenation with a possibly [undefined] operand. *)
Definition str_of_undefined (o : option string) : string :=
  match o with Some s => s | None => "undefined" end.

(** *** parseInt *)

Definition digit_val (a : ascii) : Z := Z.of_nat (code a) - 48.

Definition hex_val (a : ascii) : option Z :=
  let n := code a in
  if is_digit a then Some (Z.of_nat n - 48)
  else if ((97 <=? n) && (n <=? 102))%nat then Some (Z.of_nat n - 87)
  else if ((65 <=? n) && (n <=? 70))%nat then Some (Z.of_nat n - 55)
  else None.

(** The longest prefix of decimal digits, read left to right; [None] when
    it is empty. *)
Fixpoint dec_digits (acc : option Z) (s : string) : option Z :=
  match s with
  | EmptyString => acc
  | String a s' =>
      if is_digit a
      then dec_digits (Some (10 * default 0 acc + digit_val a)) s'
      else acc
  end.

Fixpoint hex_digits (acc : option Z) (s : string) : option Z :=
  match s with
  | EmptyString => acc
  | String a s' =>
      match hex_val a with
      | Some v => hex_digits (Some (16 * default 0 acc + v)) s'
      | None => acc
      end
  end.

Definition is_x (a : ascii) : bool :=
  let n := code a in (n =? 120)%nat || (n =? 88)%nat.

(** The digits of [parseInt] after the sign: radix 16 is chosen by a
    [0x] prefix unless radix 10 was passed explicitly. *)
Definition parse_magnitude (radix10 : bool) (s : string) : option Z :=
  match s with
  | String z (String x s') =>
      if negb radix10 && (code z =? 48)%nat && is_x x
      then hex_digits None s'
      else dec_digits None s
  | _ => dec_digits None s
  end.

(** [parseInt(s)] ([radix10 = false]) and [parseInt(s, 10)]
    ([radix10 = true]); [None] stands for [NaN]. The result is the integer
    that the digits denote. The code holds it in a double, which is that
    integer as long as its magnitude is at most 2^53 ([exact]); above, the
    double is a neighbouring number that depends on the implementation
    from the 21st digit on, and is not computed here: a statement about
    the value of a number read from a reply carries the bound. *)
Definition parseInt_radix (radix10 : bool) (s : string) : option Z :=
  match trimStart s with
  | String sg s' =>
      if (code sg =? 45)%nat then Z.opp <$> parse_magnitude radix10 s'
      else if (code sg =? 43)%nat then parse_magnitude radix10 s'
      else parse_magnitude radix10 (String sg s')
  | EmptyString => None
  end.

Definition parseInt (s : string) : option Z := parseInt_radix false s.

Definition parseInt10 (s : string) : option Z := parseInt_radix true s.

(** The integers that a double holds exactly, without a gap. *)
Definition exact (n : Z) : bool := Z.abs n <=? 2 ^ 53.

(** [String(n)] for an integer or [NaN]. *)
Definition string_of_number (n : option Z) : string :=
  match n with
  | Some z => DecimalString.NilZero.string_of_int (Z.to_int z)
  | None => "NaN"
  end.

(** [arr.indexOf(x)] on strings, -1 when absent. *)
Fixpoint indexOf (x : string) (l : list string) : Z :=
  match l with
  | [] => -1
  | y :: l' =>
      if String.eqb x y then 0
      else let i := indexOf x l' in if i <? 0 then -1 else i + 1
  end.

(** [s.split(c)] at every occurrence of one character. *)
Fixpoint split_char (c : ascii) (s : string) : list string :=
  match s with
  | EmptyString => [EmptyString]
  | String a s' =>
      if Ascii.eqb c a then EmptyString :: split_char c s'
      else cons_head a (split_char c s')
  end.

End Js.

(** ** A backtracking matcher for the regular expressions of [expressions.ts]

    The matcher follows the ECMAScript semantics the client relies on:
    leftmost match, ordered alternation, greedy quantifiers that give back
    characters, capture groups that are undefined when their alternative
    was abandoned, and the [m] flag for [^] and [$]. *)

Module Regex.

Inductive regex : Type :=
| Chr (p : ascii -> bool)        (* one character of a class *)
| Bol                            (* ^ *)
| Eol                            (* $ *)
| Seq (r1 r2 : regex)
| Alt (r1 r2 : regex)
| Grp (n : nat) (r : regex)      (* capture group number n *)
| Rep (n : nat) (r : regex)      (* r{n} *)
| Plus (r : regex)               (* r+, greedy *)
| Star (r : regex)               (* r*, greedy *)
| StarLazy (r : regex)           (* r*?, lazy *)
| Opt (r : regex).               (* r?, greedy *)

(** A position in the subject: how many characters were consumed, the
    last of them, and what is left. *)
Record cursor := Cursor { pos : nat; prev : option ascii; rest : string }.

Definition captures := list (nat * string).

Fixpoint cap (n : nat) (c : captures) : option string :=
  match c with
  | [] => None
  | (m, s) :: c' => if (m =? n)%nat then Some s else cap n c'
  end.

Definition cont := cursor -> captures -> option (cursor * captures).

Definition accept : cont := fun i c => Some (i, c).

Definition orelse {A} (x y : option A) : option A :=
  match x with Some _ => x | None => y end.

(** [r{n}]: [n] copies of the matcher [m1] in sequence. *)
Fixpoint rep_n (m1 : cont -> cont) (n : nat) (k : cont) : cont :=
  match n with
  | O => k
  | S m => m1 (rep_n m1 m k)
  end.

(** [r+]: after each round that consumed something, first try one more
    round, then the continuation. [fuel] bounds the rounds by the length
    of what is left. *)
Fixpoint plus_loop (m1 : cont -> cont) (k : cont) (fuel : nat)
  (i : cursor) (c : captures) : option (cursor * captures) :=
  match fuel with
  | O => None
  | S f =>
      m1 (fun j c' =>
            if (pos i <? pos j)%nat
            then orelse (plus_loop m1 k f j c') (k j c')
            else k j c')
         i c
  end.

(** [r*]: one more round first, then the continuation; a round that
    consumed nothing is refused. *)
Fixpoint star_loop (m1 : cont -> cont) (k : cont) (fuel : nat)
  (i : cursor) (c : captures) : option (cursor * captures) :=
  match fuel with
  | O => k i c
  | S f =>
      orelse
        (m1 (fun j c' =>
               if (pos i <? pos j)%nat then star_loop m1 k f j c' else None)
            i c)
        (k i c)
  end.

(** [r*?]: the continuation first, then one more round. *)
Fixpoint lazy_loop (m1 : cont -> cont) (k : cont) (fuel : nat)
  (i : cursor) (c : captures) : option (cursor * captures) :=
  match fuel with
  | O => k i c
  | S f =>
      orelse
        (k i c)
        (m1 (fun j c' =>
               if (pos i <? pos j)%nat then lazy_loop m1 k f j c' else None)
            i c)
  end.

Section Matcher.
(** The [m] (multiline) flag. *)
Variable multiline : bool.

Definition at_bol (i : cursor) : bool :=
  match prev i with
  | None => true
  | Some a => multiline && Js.is_line_terminator a
  end.

Definition at_eol (i : cursor) : bool :=
  match rest i with
  | EmptyString => true
  | String a _ => multiline && Js.is_line_terminator a
  end.

Fixpoint mtch (r : regex) : cont -> cont :=
  match r with
  | Chr p => fun k i c =>
      match rest i with
      | String a s' =>
          if p a then k (Cursor (S (pos i)) (Some a) s') c else None
      | EmptyString => None
      end
  | Bol => fun k i c => if at_bol i then k i c else None
  | Eol => fun k i c => if at_eol i then k i c else None
  | Seq r1 r2 => fun k => mtch r1 (mtch r2 k)
  | Alt r1 r2 => fun k i c => orelse (mtch r1 k i c) (mtch r2 k i c)
  | Grp n r1 => fun k i c =>
      mtch r1 (fun j c' => k j ((n, Js.take (pos j - pos i) (rest i)) :: c')) i c
  | Rep n r1 => rep_n (mtch r1) n
  | Plus r1 => fun k i c =>
      plus_loop (mtch r1) k (S (String.length (rest i))) i c
  | Star r1 => fun k i c =>
      star_loop (mtch r1) k (String.length (rest i)) i c
  | StarLazy r1 => fun k i c =>
      lazy_loop (mtch r1) k (String.length (rest i)) i c
  | Opt r1 => fun k i c => orelse (mtch r1 k i c) (k i c)
  end.

(** The search of [RegExp.prototype.exec]: the first start position, from
    the cursor on, at which the expression matches. *)
Fixpoint search (r : regex) (p : nat) (pv : option ascii) (s : string)
  : option (nat * cursor * captures) :=
  match mtch r accept (Cursor p pv s) [] with
  | Some (j, c) => Some (p, j, c)
  | None =>
      match s with
      | EmptyString => None
      | String a s' => search r (S p) (Some a) s'
      end
  end.

(** Moves the start of the search to [lastIndex]; [None] past the end. *)
Fixpoint seek (n : nat) (p : nat) (pv : option ascii) (s : string)
  : option (nat * option ascii * string) :=
  match n with
  | O => Some (p, pv, s)
  | S m =>
      match s with
      | EmptyString => None
      | String a s' => seek m (S p) (Some a) s'
      end
  end.
End Matcher.

(** A successful match: [index] of its start, [endIndex] one past its
    end, the matched text (group 0) and the numbered groups. *)
Record match_result := MatchResult {
  index : nat;
  endIndex : nat;
  whole : string;
  groups : captures
}.

(** [m[n]]: [None] stands for [undefined]. *)
Definition group (m : match_result) (n : nat) : option string :=
  match n with
  | O => Some (whole m)
  | _ => cap n (groups m)
  end.

(** [re.exec(s)] of an expression without the [g] flag. *)
Definition exec (multiline : bool) (r : regex) (s : string) : option match_result :=
  match search multiline r 0 None s with
  | Some (p, j, c) => Some (MatchResult p (pos j) (Js.take (pos j - p) (Js.drop p s)) c)
  | None => None
  end.

(** [re.exec(s)] of an expression with the [g] flag: the search starts at
    [lastIndex], and the call returns the new [lastIndex] (the end of the
    match, or 0 when there is none). *)
Definition exec_global (multiline : bool) (r : regex) (lastIndex : nat) (s : string)
  : option match_result * nat :=
  match seek lastIndex 0 None s with
  | None => (None, O)
  | Some (p, pv, s') =>
      match search multiline r p pv s' with
      | Some (q, j, c) =>
          (Some (MatchResult q (pos j) (Js.take (pos j - q) (Js.drop q s)) c), pos j)
      | None => (None, O)
      end
  end.

Definition chr (a : ascii) : regex := Chr (fun b => Ascii.eqb a b).
Definition not_chr (a : ascii) : regex := Chr (fun b => negb (Ascii.eqb a b)).
(** [.] *)
Definition dot : regex := Chr (fun b => negb (Js.is_line_terminator b)).
(** [\d] and [[0-9]] *)
Definition digit : regex := Chr Js.is_digit.
(** [\s] and [\S] *)
Definition space : regex := Chr Js.is_ws.
Definition not_space : regex := Chr (fun b => negb (Js.is_ws b)).
(** A character out of a list, [[abc]]. *)
Definition one_of (cs : string) : regex :=
  Chr (fun b => existsb (Ascii.eqb b) (list_ascii_of_string cs)).

End Regex.

(** ** expressions.ts *)

Module Expressions.
Import Regex.

(** [/(((^\d{3})[^\-]|(^\d{3})(\-))(.+))|(.+)/] *)
Definition RE_CMD_LINE : regex :=
  Alt
    (Grp 1
       (Seq
          (Grp 2
             (Alt
                (Seq (Grp 3 (Seq Bol (Rep 3 digit))) (not_chr "-"))
                (Seq (Grp 4 (Seq Bol (Rep 3 digit))) (Grp 5 (chr "-")))))
          (Grp 6 (Plus dot))))
    (Grp 7 (Plus dot)).

(** [/"(.+)"(?: |$)/] *)
Definition RE_PWD : regex :=
  Seq (chr Js.DQUOTE)
    (Seq (Grp 1 (Plus dot))
       (Seq (chr Js.DQUOTE) (Alt (chr " ") Eol))).

(** [/([\d]+)/] *)
Definition RE_EPSV : regex := Grp 1 (Plus digit).

Definition NEW_LINE : string := String Js.CR (String Js.LF EmptyString).

(** [/;/g] and [/=/], which the client only hands to [split]. *)
Definition RE_SEP : ascii := ";".
Definition RE_EQ : ascii := "=".

(** [/^([0-9]{4})([0-9]{2})([0-9]{2})([0-9]{2})([0-9]{2})([0-9]{2})/gm] *)
Definition RE_LAST_MOD_TIME : regex :=
  Seq Bol
    (Seq (Grp 1 (Rep 4 digit))
       (Seq (Grp 2 (Rep 2 digit))
          (Seq (Grp 3 (Rep 2 digit))
             (Seq (Grp 4 (Rep 2 digit))
                (Seq (Grp 5 (Rep 2 digit)) (Grp 6 (Rep 2 digit))))))).

End Expressions.

(** ** exceptions.ts *)

Module Exceptions.

(** The exception classes of the client; every class extends
    [FtpException] directly. [TypeError] is the JavaScript run-time error
    raised by a property access on [null] or [undefined], [RangeError]
    the one that [net.Socket.connect] raises for a port that is not in
    0..65535, [Error] a plain error object such as the ones a socket
    emits. *)
Inductive ExceptionClass : Type :=
| FtpException
| FtpFileNotFoundException
| FtpTimeoutException
| FtpDirectoryNotFoundException
| FtpNetworkException
| FtpAuthorizationException
| TypeError
| RangeError
| Error.

Record Exception := mkException {
  cls : ExceptionClass;
  emessage : string;
  ecode : option Z;
  innerException : option string
}.

Definition class_eqb (a b : ExceptionClass) : bool :=
  match a, b with
  | FtpException, FtpException
  | FtpFileNotFoundException, FtpFileNotFoundException
  | FtpTimeoutException, FtpTimeoutException
  | FtpDirectoryNotFoundException, FtpDirectoryNotFoundException
  | FtpNetworkException, FtpNetworkException
  | FtpAuthorizationException, FtpAuthorizationException
  | TypeError, TypeError
  | RangeError, RangeError
  | Error, Error => true
  | _, _ => false
  end.

(** [err instanceof C] for a leaf class [C]. *)
Definition instanceof (e : Exception) (c : ExceptionClass) : bool :=
  class_eqb (cls e) c.

(** [new C(message)] *)
Definition new (c : ExceptionClass) (m : string) : Exception :=
  mkException c m None None.

(** [new C(message, code, new Error(inner))] *)
Definition new_full (c : ExceptionClass) (m : string) (code : Z) (inner : string)
  : Exception :=
  mkException c m (Some code) (Some inner).

End Exceptions.

(** ** definitions.ts *)

Module Definitions.

Record FtpResponse := mkResponse { code : Z; message : string }.

Record FtpConnectionConfiguration := mkConfiguration {
  host : string;
  port : Z;
  user : string;
  password : string;
  timeout : Z;
  keepAlive : Z
}.

Record FtpFeatures := mkFeatures {
  MDTM : bool;
  MFMT : bool;
  MLSD : bool;
  MLST : bool;
  SIZE : bool;
  UTF8 : bool;
  EPSV : bool
}.

Inductive FtpTransferMode : Type := BINARY | TEXT.

(** The argument a listing hands to [new Date(_)]: a date-time string,
    or one whose year is the current year of the client's clock. *)
Inductive DateSource : Type :=
| DateOfString (s : string)
| DateOfThisYear (suffix : string).

(** A value stored in a listing entry: a string, a number ([None] is
    [NaN]), a [Date] kept as the argument of its constructor, [null] or
    [undefined]. *)
Inductive JsValue : Type :=
| VString (s : string)
| VNumber (n : option Z)
| VDate (d : DateSource)
| VNull
| VUndefined.

(** Truthiness of a stored value. *)
Definition truthy_value (v : option JsValue) : bool :=
  match v with
  | Some (VString (String _ _)) => true
  | Some (VNumber (Some n)) => negb (n =? 0)
  | Some (VDate _) => true
  | _ => false
  end.

(** A stored value in a string concatenation. A name is a string or
    [undefined]: only the keys [size] and [modify] are converted. *)
Definition string_of_value (v : option JsValue) : string :=
  match v with
  | Some (VString s) => s
  | Some (VNumber n) => Js.string_of_number n
  | Some (VDate _) => "[object Date]"
  | Some VNull => "null"
  | Some VUndefined | None => "undefined"
  end.

(** A listing entry: the MLSD branch builds it as an object keyed by the
    fact names of the server, so it is a finite map. *)
Abbreviation FtpEntryInfo := (gmap string JsValue).

(** [f.type == "file"] and [f.type === "file"]. *)
Definition has_type (t : string) (e : FtpEntryInfo) : bool :=
  match e !! "type" with
  | Some (VString s) => String.eqb s t
  | _ => false
  end.

(** [FtpException.FromResponse(message, response)] *)
Definition FromResponse (m : string) (r : FtpResponse) : Exceptions.Exception :=
  Exceptions.new_full Exceptions.FtpException m (code r) (message r).

End Definitions.

(** ** connection.ts *)

Module Connection.
Import Exceptions Definitions.

(** What the server side does with one data connection: whether the
    connection is accepted, the chunks that arrive as [data] events before
    the peer closes, and whether the stream ends without a socket error. *)
Record DataPeer := mkPeer {
  accepts : bool;
  chunks : list string;
  ends_cleanly : bool
}.

(** The command connection. [ready] says that the socket is neither
    destroyed nor still connecting; [written] holds the texts that
    [write] was called with, each followed by CRLF, in order, as text:
    what the socket is given is their encoding, [sent] below;
    [dataPeers] is the environment's script for
    the data connections opened from now on; [lastIndex] is the
    [lastIndex] of the module-level expression [RE_LAST_MOD_TIME], which
    carries the [g] flag and so remembers where its last match ended. *)
Record FtpCommandConnection := mkConnection {
  ready : bool;
  written : list string;
  responseBuffer : list string;
  commandBuffer : string;
  responseQueue : list FtpResponse;
  features : FtpFeatures;
  configuration : FtpConnectionConfiguration;
  dataPeers : list DataPeer;
  lastIndex : nat
}.

Definition no_features : FtpFeatures :=
  mkFeatures false false false false false false false.

Definition default_configuration : FtpConnectionConfiguration :=
  mkConfiguration "localhost" 21 "anonymous" "anonymous" 10000 10000.

Definition set_written (w : list string) (c : FtpCommandConnection) :=
  mkConnection (ready c) w (responseBuffer c) (commandBuffer c)
    (responseQueue c) (features c) (configuration c) (dataPeers c) (lastIndex c).

Definition set_parser (b : list string) (cb : string) (c : FtpCommandConnection) :=
  mkConnection (ready c) (written c) b cb
    (responseQueue c) (features c) (configuration c) (dataPeers c) (lastIndex c).

Definition set_responseQueue (q : list FtpResponse) (c : FtpCommandConnection) :=
  mkConnection (ready c) (written c) (responseBuffer c) (commandBuffer c)
    q (features c) (configuration c) (dataPeers c) (lastIndex c).

Definition set_features (f : FtpFeatures) (c : FtpCommandConnection) :=
  mkConnection (ready c) (written c) (responseBuffer c) (commandBuffer c)
    (responseQueue c) f (configuration c) (dataPeers c) (lastIndex c).

Definition set_dataPeers (d : list DataPeer) (c : FtpCommandConnection) :=
  mkConnection (ready c) (written c) (responseBuffer c) (commandBuffer c)
    (responseQueue c) (features c) (configuration c) d (lastIndex c).

Definition set_lastIndex (n : nat) (c : FtpCommandConnection) :=
  mkConnection (ready c) (written c) (responseBuffer c) (commandBuffer c)
    (responseQueue c) (features c) (configuration c) (dataPeers c) n.

(** *** Promises over the connection: state passing with rejection *)

(** How a promise ends: resolved, rejected, or not settled within the
    number of rounds a loop of the model was given. *)
Inductive Result (A : Type) : Type :=
| Ok (a : A)
| Throw (e : Exception)
| Unsettled.
Arguments Ok {A} a.
Arguments Throw {A} e.
Arguments Unsettled {A}.

Definition Promise (A : Type) : Type :=
  FtpCommandConnection -> Result A * FtpCommandConnection.

Definition resolve {A} (a : A) : Promise A := fun c => (Ok a, c).

Definition reject {A} (e : Exception) : Promise A := fun c => (Throw e, c).

Definition unsettled {A} : Promise A := fun c => (Unsettled, c).

Definition bind {A B} (m : Promise A) (k : A -> Promise B) : Promise B :=
  fun c =>
    match m c with
    | (Ok a, c') => k a c'
    | (Throw e, c') => (Throw e, c')
    | (Unsettled, c') => (Unsettled, c')
    end.

(** [try { m } catch (err) { h err }] *)
Definition try_catch {A} (m : Promise A) (h : Exception -> Promise A) : Promise A :=
  fun c =>
    match m c with
    | (Throw e, c') => h e c'
    | r => r
    end.

(** A call whose promise is dropped: its effect on the connection
    happens, its outcome is not looked at. *)
Definition not_awaited {A} (m : Promise A) : Promise unit :=
  fun c => (Ok tt, snd (m c)).

Definition get {A} (f : FtpCommandConnection -> A) : Promise A :=
  fun c => (Ok (f c), c).

Definition modify (f : FtpCommandConnection -> FtpCommandConnection) : Promise unit :=
  fun c => (Ok tt, f c).

Notation "x <- m ;; k" := (bind m (fun x => k))
  (at level 100, m at next level, right associativity).
Notation "m ;; k" := (bind m (fun _ => k))
  (at level 100, right associativity).

(** *** FtpCommandConnection *)

(** [send]: runs [command.execute(this)] unless the socket is closed or
    still connecting. *)
Definition send {A} (execute : Promise A) : Promise A :=
  fun c =>
    if ready c then execute c
    else (Throw (new FtpNetworkException "Cannot send command when connection is closed"), c).

(** [write]: encodes [data] followed by CRLF in UTF-8 and hands the bytes
    to the socket; resolves to the number of bytes written. The text is
    logged in [written]; a socket that is not [ready] stands for the ways
    in which [socket.write] reports a failure. *)
Definition write (data : string) : Promise Z :=
  fun c =>
    let toSend := data +:+ Expressions.NEW_LINE in
    if ready c
    then (Ok (Z.of_nat (String.length (Js.utf8_encode toSend))),
          set_written (written c ++ [toSend]) c)
    else (Throw (new FtpNetworkException "Error sending command to server"), c).

(** The bytes that the socket was given, write by write. A reply is read
    with [toString("binary")], one character for each byte, and a command
    is encoded in UTF-8: text taken from a reply goes back as the same
    bytes only where it is ASCII. *)
Definition sent (c : FtpCommandConnection) : list string :=
  map Js.utf8_encode (written c).

(** [match[6] || match[7]]: the first operand unless it is [undefined] or
    empty. *)
Definition js_or (a b : option string) : option string :=
  match a with
  | Some (String _ _) => a
  | _ => b
  end.

(** Truthiness of a possibly [undefined] string. *)
Definition truthy (a : option string) : bool :=
  match a with
  | Some (String _ _) => true
  | _ => false
  end.

(** A reply code read with [parseInt(_, 10)] from three digits, which is
    never [NaN]. *)
Definition to_code (n : option Z) : Z := default 0 n.

(** The [while (true)] loop of [parseResponse] over the buffered lines:
    returns the replies completed, the lines left in [responseBuffer] and
    the new [commandBuffer]. *)
Fixpoint parse_lines (buf : list string) (cb : string) (response : list FtpResponse)
  : Result (list FtpResponse) * (list string * string) :=
  match buf with
  | [] => (Ok response, ([], cb))
  | line :: buf' =>
      if Js.is_empty line then (Ok response, (buf', cb))
      else
        match Regex.exec false Expressions.RE_CMD_LINE line with
        | None =>
            (Throw (new TypeError "Cannot read property '6' of null"), (buf', cb))
        | Some m =>
            let cb' :=
              cb +:+ Js.str_of_undefined (js_or (Regex.group m 6) (Regex.group m 7))
                 +:+ Expressions.NEW_LINE in
            if truthy (Regex.group m 3)
            then
              parse_lines buf' EmptyString
                (response ++
                   [mkResponse (to_code (Js.parseInt10 (Js.str_of_undefined (Regex.group m 3)))) cb'])
            else parse_lines buf' cb' response
        end
  end.

(** The lines of one [data] event: split at CRLF, blank lines dropped. *)
Definition data_lines (data : string) : list string :=
  List.filter (fun l => negb (Js.is_empty (Js.trim l)))
    (Js.split Expressions.NEW_LINE data).

(** [parseResponse] *)
Definition parseResponse (data : string) : Promise (list FtpResponse) :=
  fun c =>
    match parse_lines (responseBuffer c ++ data_lines data) (commandBuffer c) [] with
    | (r, (buf, cb)) => (r, set_parser buf cb c)
    end.

(** [onData] of the command connection. *)
Definition onData (data : string) : Promise unit :=
  response <- parseResponse data ;;
  modify (fun c => set_responseQueue (responseQueue c ++ response) c).

(** [getResponse]: the next queued reply; with none queued the wait runs
    into the timeout. *)
Definition getResponse : Promise FtpResponse :=
  fun c =>
    match responseQueue c with
    | r :: q => (Ok r, set_responseQueue q c)
    | [] => (Throw (new FtpTimeoutException "Command response timeout"), c)
    end.

(** The [data] events of a control stream, one after the other. *)
Fixpoint deliver (events : list string) : Promise unit :=
  match events with
  | [] => resolve tt
  | data :: events' => onData data ;; deliver events'
  end.

(** A connection on which nothing has happened yet. *)
Definition fresh : FtpCommandConnection :=
  mkConnection true [] [] EmptyString [] no_features default_configuration [] 0.

(** *** FtpDataConnection *)

(** A buffer of [n] zero bytes. *)
Fixpoint alloc (n : nat) : string :=
  match n with
  | O => EmptyString
  | S k => String Ascii.zero (alloc k)
  end.

(** [source.copy(target, targetStart, sourceStart, sourceEnd)]: the bytes
    that fit are written over [target], whose length does not change. *)
Definition copy (source target : string) (targetStart sourceStart sourceEnd : nat)
  : string :=
  let n := Nat.min (sourceEnd - sourceStart) (String.length target - targetStart) in
  let bytes := Js.take n (Js.drop sourceStart source) in
  Js.take targetStart target +:+ bytes
    +:+ Js.drop (targetStart + String.length bytes) target.

Definition chunkSize : nat := 1024.

(** The variables [marker] and [result] of [readToEnd]. *)
Record ReadState := mkRead { marker : nat; result : string }.

Definition read_init : ReadState := mkRead 0 (alloc chunkSize).

(** The [data] listener of [readToEnd]. *)
Definition read_onData (st : ReadState) (buffer : string) : ReadState :=
  if (String.length (result st) <? marker st + String.length buffer)%nat
  then
    let tmpBuffer := alloc (String.length (result st) * 2) in
    mkRead (marker st) (copy (result st) tmpBuffer 0 0 (marker st))
  else
    mkRead (marker st + String.length buffer)
      (copy buffer (result st) (marker st) 0 (String.length buffer)).

(** The [end] listener of [readToEnd]: [finalBuffer]. *)
Definition read_onEnd (st : ReadState) : string :=
  copy (result st) (alloc (marker st)) 0 0 (marker st).

(** [readToEnd]: the listeners run over the events of the peer; a socket
    error rejects. The promise resolves with [finalBuffer] as the build
    under [lib/] has it, where the closing listener is an arrow function;
    in [connection.ts] that listener is the function declaration [_onEnd],
    whose [this] is the socket, so that [this.dispose()] would throw
    before [res] is reached. *)
Definition readToEnd (peer : DataPeer) : Result string :=
  if ends_cleanly peer
  then Ok (read_onEnd (fold_left read_onData (chunks peer) read_init))
  else Throw (new Error "socket error").

(** [download]: the socket is piped into a write stream on the target
    file. The promise resolves when the socket closes and rejects on an
    [error] event of the socket or of the stream; [stream_ok] says that no
    such event of the stream comes first. *)
Definition data_download (peer : DataPeer) (stream_ok : bool) : Result unit :=
  if ends_cleanly peer && stream_ok then Ok tt else Throw (new Error "stream error").

(** [upload]: a read stream on the local file is piped into the socket.
    The promise resolves at the [end] of the stream and rejects on its
    [error] event. *)
Definition data_upload (stream_ok : bool) : Result unit :=
  if stream_ok then Ok tt else Throw (new Error "stream error").

End Connection.

(** ** parseList.ts: the Unix [LIST] format *)

Module ParseList.
Import Regex Definitions.

Fixpoint seqs (r : regex) (l : list regex) : regex :=
  match l with
  | [] => r
  | r' :: l' => Seq r (seqs r' l')
  end.

(** [((r|-)(w|-)([xsStTL-]))], with groups [g] to [g + 3]. *)
Definition perm (g : nat) : regex :=
  Grp g
    (seqs (Grp (g + 1) (Alt (chr "r") (chr "-")))
       [Grp (g + 2) (Alt (chr "w") (chr "-"));
        Grp (g + 3) (one_of "xsStTL-")]).

Definition RE_LINE : regex :=
  seqs (Grp 1 (one_of "bcdelfmpSs-"))                        (* file type *)
    [Grp 2 (seqs (perm 3) [perm 7; perm 11]); Opt (chr "+");  (* permissions *)
     Star space;
     Grp 15 (Plus digit);                                    (* link count *)
     Plus space;
     Opt (Seq (Grp 16 (Seq (Plus not_space)
                         (StarLazy (Seq space (Plus not_space)))))
            (Plus space));                                   (* owner name *)
     Opt (Seq (Grp 17 (Seq (Plus not_space)
                         (Star (Seq space (Plus not_space)))))
            (Plus space));                                   (* group name *)
     Grp 18 (Seq (Plus digit)
               (Opt (seqs (chr ",") [Star space; Plus digit]))); (* size or n,m *)
     Plus space;
     Grp 19
       (Alt (seqs (Plus digit) [one_of "-/"; Plus digit; one_of "-/"; Plus digit])
          (Alt (seqs (Rep 3 not_space) [Plus space; digit; Opt digit])
             (seqs digit [Opt digit; Plus space; Rep 3 not_space])));
     Plus space;
     Grp 20 (Seq (Plus digit) (Opt (Seq (chr ":") (Plus digit))));
     space;
     Grp 21 (Star dot)].                                     (* the rest *)

(** [testLine] *)
Definition testLine (line : string) : bool :=
  match exec false RE_LINE line with Some _ => true | None => false end.

(** [pad] *)
Definition pad (value : option Z) (size : nat) : string :=
  let s := Js.string_of_number value in
  let width := if (size =? 0)%nat then 2%nat else size in
  Js.map_chars (fun _ => "0"%char)
    (Connection.alloc (width - String.length s)) +:+ s.

Definition months : list string :=
  ["Jan"; "Feb"; "Mar"; "Apr"; "May"; "Jun"; "Jul"; "Aug"; "Sep"; "Oct"; "Nov"; "Dec"].

(** [parseDate]: the date is built from a string that starts with the
    current year. *)
Definition parseDate (datePart hourPart : string) : DateSource :=
  let dateParts := Js.split_char " " datePart in
  let day := Js.parseInt (Js.str_of_undefined (dateParts !! 1%nat)) in
  let month := Js.indexOf (Js.str_of_undefined (dateParts !! 0%nat)) months + 1 in
  DateOfThisYear
    ("-" +:+ pad (Some month) 1 +:+ "-" +:+ pad day 1 +:+ "T" +:+ hourPart +:+ ":00").

(** A group that takes part in every match of [RE_LINE]. *)
Definition required (m : match_result) (n : nat) : string :=
  default EmptyString (group m n).

Definition entry_type (t : string) : string :=
  match t with
  | String c _ =>
      if Ascii.eqb c "d" then "dir"
      else if Ascii.eqb c "e" || Ascii.eqb c "l" then "symlinc"
      else if Ascii.eqb c "b" || Ascii.eqb c "f" || Ascii.eqb c "-" then "file"
      else "unknown"
  | EmptyString => "unknown"
  end.

(** [parseListLine]; [None] stands for [undefined]. *)
Definition parseListLine (line : string) : option FtpEntryInfo :=
  match exec false RE_LINE line with
  | Some groups =>
      let name := Js.trim (required groups 21) in
      if String.eqb name "." || String.eqb name ".." then None
      else
        Some (<["type" := VString (entry_type (required groups 1))]>
                (<["modify" := VDate (parseDate (required groups 19) (required groups 20))]>
                   (<["size" := VNumber (Js.parseInt10 (required groups 18))]>
                      (<["name" := VString name]> ∅))))
  | None => None
  end.

End ParseList.

(** ** Run-time library: [Date] and the POSIX flavour of [path] *)

Module JsDate.

(** Days between 1970-01-01 and the civil date [y]-[m]-[d], [m] counted
    from 1. *)
Definition days_from_civil (y m d : Z) : Z :=
  let y' := if m <=? 2 then y - 1 else y in
  let era := y' / 400 in
  let yoe := y' - era * 400 in
  let mp := (m + 9) mod 12 in
  let doy := (153 * mp + 2) / 5 + d - 1 in
  let doe := yoe * 365 + yoe / 4 - yoe / 100 + doy in
  era * 146097 + doe - 719468.

(** [MakeDay], [MakeTime], [MakeDate] and [TimeClip] of ECMAScript; the
    month of [MakeDay] is counted from 0 and may overflow into the years. *)
Definition MakeDay (year month date : Z) : Z :=
  days_from_civil (year + month / 12) (month mod 12 + 1) 1 + date - 1.

Definition MakeTime (hour min sec ms : Z) : Z :=
  hour * 3600000 + min * 60000 + sec * 1000 + ms.

Definition MakeDate (day time : Z) : Z := day * 86400000 + time.

Definition TimeClip (t : Z) : option Z :=
  if Z.abs t <=? 8640000000000000 then Some t else None.

(** A [Date] is its time value in milliseconds since the epoch, [None]
    for an invalid date. In the definitions that take [tz] the local time
    zone keeps one offset, [tz] minutes east of UTC; the definitions
    further down that take a [Zone] are the same for a zone whose offset
    changes, of which these are the instance [fixed tz]. *)
Abbreviation Date := (option Z).

(** [new Date(year, month, date, hours, minutes, seconds)], read in local
    time. *)
Definition new_Date (tz : Z) (year month date hours minutes seconds : option Z)
  : Date :=
  match year, month, date, hours, minutes, seconds with
  | Some y, Some m, Some d, Some h, Some mi, Some s =>
      let yr := if (0 <=? y) && (y <=? 99) then 1900 + y else y in
      TimeClip (MakeDate (MakeDay yr m d) (MakeTime h mi s 0) - tz * 60000)
  | _, _, _, _, _, _ => None
  end.

(** [date.getTimezoneOffset()], in minutes; [NaN] on an invalid date. *)
Definition getTimezoneOffset (tz : Z) (d : Date) : option Z :=
  match d with Some _ => Some (- tz) | None => None end.

(** [new Date(ms)] *)
Definition of_time (ms : option Z) : Date :=
  match ms with Some t => TimeClip t | None => None end.

(** [new Date(date.getTime() - date.getTimezoneOffset() * 60 * 1000)] *)
Definition minus_timezone_offset (tz : Z) (date : Date) : Date :=
  of_time
    (t ← date; off ← getTimezoneOffset tz date; Some (t - off * 60 * 1000)).

(** The civil date (year, month counted from 1, day of the month) of a
    day number: the inverse of [days_from_civil]. *)
Definition civil_from_days (z : Z) : Z * Z * Z :=
  let z' := z + 719468 in
  let era := z' / 146097 in
  let doe := z' - era * 146097 in
  let yoe := (doe - doe / 1460 + doe / 36524 - doe / 146096) / 365 in
  let doy := doe - (365 * yoe + yoe / 4 - yoe / 100) in
  let mp := (5 * doy + 2) / 153 in
  let d := doy - (153 * mp + 2) / 5 + 1 in
  let m := if mp <? 10 then mp + 3 else mp - 9 in
  let y := yoe + era * 400 in
  (if m <=? 2 then y + 1 else y, m, d).

(** [Day(t)] of ECMAScript. *)
Definition Day (t : Z) : Z := t / 86400000.

Definition YearFromTime (t : Z) : Z := fst (fst (civil_from_days (Day t))).
(** [MonthFromTime], counted from 0. *)
Definition MonthFromTime (t : Z) : Z := snd (fst (civil_from_days (Day t))) - 1.
Definition DateFromTime (t : Z) : Z := snd (civil_from_days (Day t)).
Definition HourFromTime (t : Z) : Z := (t / 3600000) mod 24.
Definition MinFromTime (t : Z) : Z := (t / 60000) mod 60.
Definition SecFromTime (t : Z) : Z := (t / 1000) mod 60.

(** The UTC getters of a [Date]; [NaN] on an invalid date. *)
Definition getUTCFullYear (d : Date) : option Z := YearFromTime <$> d.
Definition getUTCMonth (d : Date) : option Z := MonthFromTime <$> d.
Definition getUTCDate (d : Date) : option Z := DateFromTime <$> d.
Definition getUTCHours (d : Date) : option Z := HourFromTime <$> d.
Definition getUTCMinutes (d : Date) : option Z := MinFromTime <$> d.
Definition getUTCSeconds (d : Date) : option Z := SecFromTime <$> d.

(** A time zone, with offsets in whole minutes east of UTC: [at_utc t] is
    the offset in force at the instant [t] ([LocalTZA(t, true)]), and
    [at_local t] the offset by which the local time value [t] is read
    ([LocalTZA(t, false)]). Across a change of offset the two differ for
    the local times that are skipped or repeated. *)
Record Zone := mkZone {
  at_utc : Z -> Z;
  at_local : Z -> Z
}.

(** The zone that stays [tz] minutes east of UTC. *)
Definition fixed (tz : Z) : Zone := mkZone (fun _ => tz) (fun _ => tz).

(** [new Date(year, month, date, hours, minutes, seconds)]: the fields
    make a local time value [t], and the date is [UTC(t)]. *)
Definition new_Date_in (z : Zone) (year month date hours minutes seconds : option Z)
  : Date :=
  match year, month, date, hours, minutes, seconds with
  | Some y, Some m, Some d, Some h, Some mi, Some s =>
      let yr := if (0 <=? y) && (y <=? 99) then 1900 + y else y in
      let t := MakeDate (MakeDay yr m d) (MakeTime h mi s 0) in
      TimeClip (t - at_local z t * 60000)
  | _, _, _, _, _, _ => None
  end.

(** [date.getTimezoneOffset()] *)
Definition getTimezoneOffset_in (z : Zone) (d : Date) : option Z :=
  match d with Some t => Some (- at_utc z t) | None => None end.

(** [new Date(date.getTime() - date.getTimezoneOffset() * 60 * 1000)] *)
Definition minus_timezone_offset_in (z : Zone) (date : Date) : Date :=
  of_time
    (t ← date; off ← getTimezoneOffset_in z date; Some (t - off * 60 * 1000)).

End JsDate.

Module Lodash.

Fixpoint repeat_char (c : ascii) (n : nat) : string :=
  match n with
  | O => EmptyString
  | S k => String c (repeat_char c k)
  end.

(** [_.padStart(s, length, chars)] for [chars] of one character. *)
Definition padStart (s : string) (length : nat) (c : ascii) : string :=
  repeat_char c (length - String.length s) +:+ s.

End Lodash.

Module Path.

Definition sep : string := "/".

Definition isAbsolute (p : string) : bool :=
  match p with
  | String c _ => Ascii.eqb c "/"
  | EmptyString => false
  end.

Definition ends_with_slash (p : string) : bool :=
  match Js.pop (list_ascii_of_string p) with
  | Some c => Ascii.eqb c "/"
  | None => false
  end.

(** [normalizeString]: [res] holds the segments kept so far, last first. *)
Fixpoint normalize_segments (allowAboveRoot : bool) (segs res : list string)
  : list string :=
  match segs with
  | [] => rev res
  | s :: segs' =>
      if String.eqb s "" || String.eqb s "."
      then normalize_segments allowAboveRoot segs' res
      else if String.eqb s ".."
      then
        match res with
        | top :: res' =>
            if String.eqb top ".."
            then normalize_segments allowAboveRoot segs'
                   (if allowAboveRoot then ".." :: res else res)
            else normalize_segments allowAboveRoot segs' res'
        | [] =>
            normalize_segments allowAboveRoot segs'
              (if allowAboveRoot then [".."] else [])
        end
      else normalize_segments allowAboveRoot segs' (s :: res)
  end.

(** [path.posix.normalize] *)
Definition normalize (p : string) : string :=
  if Js.is_empty p then "."
  else
    let absolute := isAbsolute p in
    let body :=
      String.concat "/"
        (normalize_segments (negb absolute) (Js.split_char "/" p) []) in
    if Js.is_empty body
    then (if absolute then "/" else if ends_with_slash p then "./" else ".")
    else
      let body' := if ends_with_slash p then body +:+ "/" else body in
      if absolute then "/" +:+ body' else body'.

(** [path.posix.join] *)
Definition join (a b : string) : string :=
  match List.filter (fun s => negb (Js.is_empty s)) [a; b] with
  | [] => "."
  | parts => normalize (String.concat "/" parts)
  end.

(** The loop of [path.posix.basename], from the last character
    backwards: trailing slashes are passed over ([matchedSlash]), the
    characters before them are the name, up to the next slash. *)
Fixpoint basename_scan (rev_chars name : list ascii) (matchedSlash : bool)
  : list ascii :=
  match rev_chars with
  | [] => name
  | a :: r =>
      if Ascii.eqb a "/"
      then (if matchedSlash then basename_scan r name true else name)
      else basename_scan r (a :: name) false
  end.

(** [path.posix.basename] *)
Definition basename (p : string) : string :=
  string_of_list_ascii (basename_scan (rev (list_ascii_of_string p)) [] true).

End Path.

Module Fs.

(** What the local disk says about one path: whether [fs.existsSync]
    finds it, and whether a stream opened on it runs without an [error]
    event. *)
Record LocalFile := mkLocalFile {
  found : bool;
  streams : bool
}.

End Fs.

(** ** commands.ts *)

Module Commands.
Import Exceptions Definitions Connection.

(** [FtpWelcomeCommand] *)
Definition FtpWelcomeCommand : Promise unit :=
  response <- getResponse ;;
  if negb (code response =? 220)
  then reject (new FtpException "Welcome response code invalid, aborting")
  else resolve tt.

(** [FtpUserCommand] *)
Definition FtpUserCommand (user : string) : Promise unit :=
  write ("USER " +:+ user) ;;
  response <- getResponse ;;
  if negb (code response =? 331)
  then reject (new FtpException "Cannot login to ftp server")
  else resolve tt.

(** [FtpPasswordCommand] *)
Definition FtpPasswordCommand (password : string) : Promise unit :=
  write ("PASS " +:+ password) ;;
  response <- getResponse ;;
  if code response =? 530
  then reject (new_full FtpAuthorizationException "Login failed" 530 (message response))
  else resolve tt.

(** [TransferModeCommand] *)
Definition TransferModeCommand (mode : FtpTransferMode) : Promise unit :=
  match mode with
  | BINARY => write "TYPE I"
  | TEXT => write "TYPE A"
  end ;;
  response <- getResponse ;;
  if negb (code response =? 200)
  then
    reject
      (new FtpException
         ("Cannot set transfer mode to "
            +:+ match mode with BINARY => "binary" | TEXT => "ascii" end))
  else resolve tt.

(** [CwdCommand]: the answer is whether the server accepted. *)
Definition CwdCommand (path : string) : Promise bool :=
  write ("CWD " +:+ path) ;;
  response <- getResponse ;;
  if 300 <=? code response then resolve false else resolve true.

(** [PwdCommand]; [None] stands for [null]. *)
Definition PwdCommand : Promise (option string) :=
  write "PWD" ;;
  response <- getResponse ;;
  if 300 <=? code response
  then
    reject
      (new FtpException
         "Cannot get current directory. Server returned 'not implemented' error code")
  else
    match Regex.exec false Expressions.RE_PWD (message response) with
    | None => reject (new TypeError "Cannot read property '1' of null")
    | Some m => resolve (if truthy (Regex.group m 1) then Regex.group m 1 else None)
    end.

(** A path that may be [null] or [undefined], inside a command line. *)
Definition str_of_null (o : option string) : string :=
  match o with Some s => s | None => "null" end.

(** [FtpDisconnectCommand] *)
Definition FtpDisconnectCommand : Promise unit :=
  write "QUIT" ;;
  response <- getResponse ;;
  if negb (code response =? 221)
  then reject (mkException FtpException "QUIT command failed" (Some (code response)) None)
  else resolve tt.

(** The scan of the FEAT reply text. *)
Definition scan_features (text : string) : FtpFeatures :=
  mkFeatures
    (Js.includes "MDTM" text) (Js.includes "MFMT" text)
    (Js.includes "MLSD" text) (Js.includes "MLST" text)
    (Js.includes "SIZE" text) (Js.includes "UTF8" text)
    (Js.includes "EPSV" text).

(** [FtpFeaturesCommand] *)
Definition FtpFeaturesCommand : Promise FtpFeatures :=
  write "FEAT" ;;
  response <- getResponse ;;
  if negb (code response =? 211)
  then reject (FromResponse "Cannot retrieve server features" response)
  else resolve (scan_features (message response)).

(** [FtpOptionCommand] *)
Definition FtpOptionCommand (option value : string) : Promise unit :=
  write ("OPTS " +:+ Js.toUpperCase option +:+ " " +:+ Js.toUpperCase value) ;;
  response <- getResponse ;;
  if 300 <=? code response
  then
    reject
      (new_full FtpException ("Cannot set option " +:+ option +:+ ":" +:+ value)
         (code response) (message response))
  else resolve tt.

(** [FtpLoginCommand] *)
Definition FtpLoginCommand (login password : string) : Promise unit :=
  send FtpWelcomeCommand ;;
  send (FtpUserCommand login) ;;
  send (FtpPasswordCommand password) ;;
  features <- send FtpFeaturesCommand ;;
  modify (set_features features) ;;
  utf8 <- get (fun c => UTF8 (Connection.features c)) ;;
  (if utf8 then send (FtpOptionCommand "UTF8" "ON") else resolve tt) ;;
  send (TransferModeCommand BINARY).

(** [new FtpDataConnection({host, port})] followed by [connect()]. The
    constructor refuses a port that is not positive; [socket.connect]
    raises a [RangeError] for one above 65535, inside the promise of
    [connect], which is thereby rejected; otherwise the next peer of the
    environment answers. *)
Definition open_data_connection (host : string) (port : option Z) : Promise DataPeer :=
  if Js.is_empty host
  then reject (new FtpException "You must provide host for data connection !")
  else
    match port with
    | Some p =>
        if p <=? 0
        then reject (new FtpException "You must provide port for data connection !")
        else if 65535 <? p
        then reject (new RangeError "Port should be >= 0 and < 65536")
        else
          fun c =>
            match dataPeers c with
            | peer :: peers =>
                if accepts peer then (Ok peer, set_dataPeers peers c)
                else
                  (Throw (new FtpNetworkException "Cannot connect to ftp data socket"),
                   set_dataPeers peers c)
            | [] => (Throw (new FtpTimeoutException "Cannot connect"), c)
            end
    | None =>
        (* a NaN port passes the constructor and is refused by [socket.connect] *)
        reject (new RangeError "Port should be >= 0 and < 65536")
    end.

(** [FtpPassiveModeCommand] *)
Definition FtpPassiveModeCommand : Promise DataPeer :=
  write "EPSV" ;;
  response <- getResponse ;;
  match Regex.exec false Expressions.RE_EPSV (message response) with
  | None => reject (new TypeError "Cannot read property '0' of null")
  | Some m =>
      host <- get (fun c => host (configuration c)) ;;
      open_data_connection host (Js.parseInt (Regex.whole m))
  end.

(** One line of an MLSD listing, already split at the semicolons. *)
Definition mlsd_entry (rows : list string) : FtpEntryInfo :=
  let name := Js.substr_from 1 (Js.str_of_undefined (Js.pop rows)) in
  let facts := removelast rows in
  let entry :=
    fold_left
      (fun (entry : FtpEntryInfo) r =>
         let props := Js.split_char Expressions.RE_EQ r in
         <[Js.toLowerCase (Js.str_of_undefined (props !! 0%nat)) :=
             match props !! 1%nat with
             | Some v => VString v
             | None => VUndefined
             end]> entry)
      facts (<["name" := VString name]> ∅) in
  let entry :=
    if truthy_value (entry !! "size")
    then <["size" := VNumber (Js.parseInt (string_of_value (entry !! "size")))]> entry
    else entry in
  if truthy_value (entry !! "modify")
  then
    let modify := string_of_value (entry !! "modify") in
    <["modify" :=
        VDate
          (DateOfString
             (Js.substr 0 4 modify +:+ "-" +:+ Js.substr 4 2 modify +:+ "-"
                +:+ Js.substr 6 2 modify +:+ "T" +:+ Js.substr 8 2 modify +:+ ":"
                +:+ Js.substr 10 2 modify +:+ ":" +:+ Js.substr 12 2 modify))]> entry
  else entry.

(** The entries of a listing, line by line. *)
Definition parse_listing (mlsd : bool) (listing : list string) : list FtpEntryInfo :=
  flat_map
    (fun l =>
       let rows := Js.split_char Expressions.RE_SEP l in
       if mlsd then [mlsd_entry rows]
       else omap ParseList.parseListLine rows)
    listing.

(** [FtpListCommand]; [path = None] stands for [undefined]. The listing
    is kept as the bytes received: reading it as UTF-8 moves none of the
    separators (CRLF, semicolon, equals sign) it is cut at. The [LIST]
    branch is that of [commands.ts]; the build under [lib/] has none and
    throws an [FtpException] on a server without [MLSD], and is this
    command on a server with it. The data is read by [readToEnd] as that
    build has it. *)
Definition FtpListCommand (path : option string) : Promise (list FtpEntryInfo) :=
  let path :=
    match path with
    | Some p => if negb (Js.is_empty p) && negb (Js.is_empty (Js.trim p)) then p else ""
    | None => ""
    end in
  psvConnection <- send FtpPassiveModeCommand ;;
  features <- get Connection.features ;;
  write ((if MLSD features then "MLSD " else "LIST ") +:+ path) ;;
  response <- getResponse ;;
  if negb (code response =? 150)
  then
    reject
      (new_full FtpException "Cannot get directory listing"
         (code response) (message response))
  else
    match readToEnd psvConnection with
    | Ok result =>
        let listing :=
          List.filter (fun l => negb (Js.is_empty l))
            (Js.split Expressions.NEW_LINE result) in
        resolve (parse_listing (MLSD features) listing)
    | Throw e => reject e
    | Unsettled => unsettled
    end.

(** [RenameFromCommand] and [RenameToCommand]; their constructors refuse
    an empty operand. *)
Definition RenameFromCommand (from : string) : Promise unit :=
  write ("RNFR " +:+ from) ;;
  response <- getResponse ;;
  if code response =? 550
  then
    reject
      (new_full FtpFileNotFoundException ("Cannot rename " +:+ from) 550 (message response))
  else if negb (code response =? 350)
  then reject (FromResponse ("Cannot rename " +:+ from) response)
  else resolve tt.

Definition RenameToCommand (to : string) : Promise unit :=
  write ("RNTO " +:+ to) ;;
  response <- getResponse ;;
  if negb (code response =? 250)
  then
    reject
      (new_full FtpException ("Cannot rename " +:+ to) (code response) (message response))
  else resolve tt.

(** [x === undefined || x === null || x.length === 0] *)
Definition nil_or_empty (x : option string) : bool :=
  match x with
  | Some (String _ _) => false
  | _ => true
  end.

Definition new_RenameFromCommand (from : option string) : Exception + Promise unit :=
  if nil_or_empty from
  then inl (new FtpException "Argument `from` cannot be null")
  else inr (RenameFromCommand (default EmptyString from)).

Definition new_RenameToCommand (to : option string) : Exception + Promise unit :=
  if nil_or_empty to
  then inl (new FtpException "Argument `to` cannot be null")
  else inr (RenameToCommand (default EmptyString to)).

(** A command built inside [execute]: a constructor that throws rejects
    the promise of the caller. *)
Definition constructed {A} (cmd : Exception + Promise A) : Promise A :=
  match cmd with
  | inl e => reject e
  | inr execute => send execute
  end.

(** [RenameCommand.execute] *)
Definition RenameCommand_execute (from to : option string) : Promise unit :=
  constructed (new_RenameFromCommand from) ;;
  constructed (new_RenameToCommand to).

(** [new RenameCommand(from, to)]: the constructor checks [to], then
    [from], before anything is sent. *)
Definition new_RenameCommand (from to : option string) : Exception + Promise unit :=
  if nil_or_empty to
  then inl (new FtpException "Argument `to` cannot be null or empty")
  else if nil_or_empty from
  then inl (new FtpException "Argument `from` cannot be null or empty")
  else inr (RenameCommand_execute from to).

(** [DeleteFileCommand] *)
Definition DeleteFileCommand (path : string) : Promise unit :=
  write ("DELE " +:+ path) ;;
  response <- getResponse ;;
  if code response =? 550
  then
    reject
      (new_full FtpFileNotFoundException ("File " +:+ path +:+ " not found on server")
         (code response) (message response))
  else if negb (code response =? 250)
  then
    reject
      (new_full FtpException ("Cannot delete file " +:+ path +:+ " from server")
         (code response) (message response))
  else resolve tt.

(** [GoUpDirectoryCommand] *)
Definition GoUpDirectoryCommand : Promise unit :=
  write "CDUP" ;;
  response <- getResponse ;;
  if 400 <=? code response
  then reject (new FtpException "Cannot change directory")
  else resolve tt.

(** [for (let f of files) await ...] *)
Fixpoint for_each {A} (l : list A) (body : A -> Promise unit) : Promise unit :=
  match l with
  | [] => resolve tt
  | x :: l' => body x ;; for_each l' body
  end.

(** [DeleteDirectoryCommand]; [path = None] stands for [undefined]. *)
Definition DeleteDirectoryCommand (path : option string) : Promise unit :=
  let path := Js.str_of_undefined path in
  cwd <- send PwdCommand ;;
  exists_ <- send (CwdCommand path) ;;
  (if negb exists_
   then
     reject
       (new FtpDirectoryNotFoundException
          ("Directory " +:+ path +:+ " not found or on server"))
   else resolve tt) ;;
  dirContent <- send (FtpListCommand None) ;;
  for_each (List.filter (has_type "file") dirContent)
    (fun f => send (DeleteFileCommand (string_of_value (f !! "name")))) ;;
  send GoUpDirectoryCommand ;;
  not_awaited (write ("RMD " +:+ path)) ;;
  response <- getResponse ;;
  (if 400 <=? code response
   then reject (FromResponse "Cannot delete directory" response)
   else resolve tt) ;;
  send (CwdCommand (str_of_null cwd)) ;;
  resolve tt.

(** [formatDate] of [ChangeModificationTime] *)
Definition formatDate (date : JsDate.Date) : string :=
  Js.string_of_number (JsDate.getUTCFullYear date)
    +:+ Lodash.padStart (Js.string_of_number (JsDate.getUTCMonth date)) 2 "0"
    +:+ Lodash.padStart (Js.string_of_number (JsDate.getUTCDate date)) 2 "0"
    +:+ Lodash.padStart (Js.string_of_number (JsDate.getUTCHours date)) 2 "0"
    +:+ Lodash.padStart (Js.string_of_number (JsDate.getUTCMinutes date)) 2 "0"
    +:+ Lodash.padStart (Js.string_of_number (JsDate.getUTCSeconds date)) 2 "0".

(** [ChangeModificationTime]: the feature it asks for is MDTM. *)
Definition ChangeModificationTime (path : string) (newDate : JsDate.Date)
  : Promise unit :=
  features <- get Connection.features ;;
  (if MDTM features
   then not_awaited (write ("MFMT " +:+ formatDate newDate +:+ " " +:+ path))
   else reject (new FtpException "MFMT feature not avaible on FTP server")) ;;
  response <- getResponse ;;
  if negb (code response =? 213)
  then
    reject
      (new_full FtpException ("Cannot get last modification time of file " +:+ path)
         (code response) (message response))
  else resolve tt.

(** [LastModifiedTimeCommand], in a time zone [tz] minutes east of UTC.
    The expression [RE_LAST_MOD_TIME] is used through [exec] and has the
    [g] flag: the search starts at its [lastIndex], which the call
    updates. *)
Definition LastModifiedTimeCommand (tz : Z) (path : string) : Promise JsDate.Date :=
  features <- get Connection.features ;;
  (if MDTM features
   then not_awaited (write ("MDTM " +:+ path))
   else reject (new FtpException "MDTM feature not avaible on FTP server")) ;;
  response <- getResponse ;;
  if code response =? 550
  then
    reject
      (new_full FtpFileNotFoundException
         ("Cannot get modifitacion time for " +:+ path) 550 (message response))
  else if negb (code response =? 213)
  then
    reject
      (FromResponse ("Cannot get last modification time of file " +:+ path) response)
  else
    from <- get lastIndex ;;
    let found :=
      Regex.exec_global true Expressions.RE_LAST_MOD_TIME from
        (Js.trim (message response)) in
    modify (set_lastIndex (snd found)) ;;
    match fst found with
    | None => reject (new TypeError "Cannot read property '1' of null")
    | Some m =>
        let field n := Js.parseInt (Js.str_of_undefined (Regex.group m n)) in
        let date :=
          JsDate.new_Date tz (field 1%nat) (field 2%nat) (field 3%nat)
            (field 4%nat) (field 5%nat) (field 6%nat) in
        (* adjust timezone *)
        resolve (JsDate.minus_timezone_offset tz date)
    end.

(** [LastModifiedTimeCommand] in a time zone whose offset may change. *)
Definition LastModifiedTimeCommand_in (z : JsDate.Zone) (path : string)
  : Promise JsDate.Date :=
  features <- get Connection.features ;;
  (if MDTM features
   then not_awaited (write ("MDTM " +:+ path))
   else reject (new FtpException "MDTM feature not avaible on FTP server")) ;;
  response <- getResponse ;;
  if code response =? 550
  then
    reject
      (new_full FtpFileNotFoundException
         ("Cannot get modifitacion time for " +:+ path) 550 (message response))
  else if negb (code response =? 213)
  then
    reject
      (FromResponse ("Cannot get last modification time of file " +:+ path) response)
  else
    from <- get lastIndex ;;
    let found :=
      Regex.exec_global true Expressions.RE_LAST_MOD_TIME from
        (Js.trim (message response)) in
    modify (set_lastIndex (snd found)) ;;
    match fst found with
    | None => reject (new TypeError "Cannot read property '1' of null")
    | Some m =>
        let field n := Js.parseInt (Js.str_of_undefined (Regex.group m n)) in
        let date :=
          JsDate.new_Date_in z (field 1%nat) (field 2%nat) (field 3%nat)
            (field 4%nat) (field 5%nat) (field 6%nat) in
        (* adjust timezone *)
        resolve (JsDate.minus_timezone_offset_in z date)
    end.

(** [SizeCommand]; the size is [None] when [parseInt] gives [NaN]. *)
Definition SizeCommand (path : string) : Promise (option Z) :=
  features <- get Connection.features ;;
  (if SIZE features
   then not_awaited (write ("SIZE " +:+ path))
   else reject (new FtpException "SIZE feature not avaible on FTP server")) ;;
  response <- getResponse ;;
  if code response =? 550
  then
    reject
      (new_full FtpFileNotFoundException ("File " +:+ path +:+ " not found on server")
         550 (message response))
  else if negb (code response =? 213)
  then reject (FromResponse ("Cannot retrieve file " +:+ path +:+ " size") response)
  else resolve (Js.parseInt (message response)).

(** [checkResponse] of [MkDirCommand]. It is a plain function, so [this]
    is [undefined] in it and building the message of the exception, which
    reads [this.path], raises a [TypeError] instead. *)
Definition checkResponse : Promise bool :=
  response <- getResponse ;;
  if code response =? 257
  then resolve true
  else reject (new TypeError "Cannot read property 'path' of undefined").

(** [MkDirCommand.execute] and its [while (true)] loop. Every round of
    the loop and every nested command first waits for a reply, so the
    number of rounds is bounded by the replies that arrive; [fuel] counts
    the rounds the model may still take. *)
Fixpoint MkDirCommand_execute (fuel : nat) (path : string) (recursive : bool)
  (cwdDir : string) {struct fuel} : Promise unit :=
  match fuel with
  | O => unsettled
  | S fuel' =>
      (* ensure that we are at root directory *)
      (if Js.is_empty cwdDir then send (CwdCommand "/") ;; resolve tt else resolve tt) ;;
      if negb recursive
      then
        let dir := Js.str_of_undefined (Js.pop (Js.split_char "/" path)) in
        send (CwdCommand path) ;;
        write ("MKD " +:+ dir) ;;
        checkResponse ;;
        resolve tt
      else
        let dirs :=
          List.filter (fun d => negb (Js.is_empty (Js.trim d))) (Js.split_char "/" path) in
        MkDirCommand_while fuel' path cwdDir dirs EmptyString
  end
with MkDirCommand_while (fuel : nat) (path cwdDir : string) (dirs : list string)
  (traverse : string) {struct fuel} : Promise unit :=
  match fuel with
  | O => unsettled
  | S fuel' =>
      let traverse := traverse +:+ "/" +:+ Js.str_of_undefined (head dirs) in
      let dirs := tail dirs in
      exists_ <- send (CwdCommand (cwdDir +:+ traverse)) ;;
      if negb exists_
      then
        write ("MKD " +:+ Js.str_of_undefined (Js.pop (Js.split_char "/" traverse))) ;;
        checkResponse ;;
        send (CwdCommand (cwdDir +:+ traverse)) ;;
        let nextPath := Js.substr_from (String.length traverse) path in
        if negb (Js.is_empty nextPath)
        then send (MkDirCommand_execute fuel' nextPath true (cwdDir +:+ traverse))
        else resolve tt
      else MkDirCommand_while fuel' path cwdDir dirs traverse
  end.

(** [new MkDirCommand(path, recursive).execute]: two rounds for each reply
    still to come are more than the loop can use. *)
Definition MkDirCommand (path : string) (recursive : bool) : Promise unit :=
  fun c =>
    MkDirCommand_execute (2 * S (List.length (responseQueue c))) path recursive
      EmptyString c.

(** [StoreCommand.execute]; [filename = None] stands for [undefined]. The
    progress callback is only told how many bytes were read and does not
    change the dialogue. *)
Definition StoreCommand_execute (local : Fs.LocalFile) (localPath : string)
  (filename : option string) : Promise bool :=
  let filename :=
    match filename with
    | Some (String a s) => String a s
    | _ => Path.basename localPath
    end in
  psvConnection <- send FtpPassiveModeCommand ;;
  write ("STOR " +:+ filename) ;;
  response <- getResponse ;;
  if negb (code response =? 150)
  then
    reject
      (new_full FtpException ("Cannot upload file " +:+ localPath)
         (code response) (message response))
  else
    (fun c => (data_upload (Fs.streams local), c)) ;;
    transferResponse <- getResponse ;;
    if 400 <=? code transferResponse
    then reject (FromResponse ("Cannot upload file " +:+ localPath) transferResponse)
    else resolve true.

(** [new StoreCommand(localPath, filename, progress)]: the constructor
    looks for the local file before anything is sent. *)
Definition new_StoreCommand (local : Fs.LocalFile) (localPath : string)
  (filename : option string) : Exception + Promise bool :=
  if negb (Fs.found local)
  then inl (new FtpFileNotFoundException ("File " +:+ localPath +:+ " not found."))
  else inr (StoreCommand_execute local localPath filename).

(** [FtpRetrieveFileCommand]; [progress] says that a callback was given,
    in which case the size of the file is asked for first. *)
Definition FtpRetrieveFileCommand (local : Fs.LocalFile) (sourceFile targetFile : string)
  (progress : bool) : Promise unit :=
  (if progress then send (SizeCommand sourceFile) ;; resolve tt else resolve tt) ;;
  psvConnection <- send FtpPassiveModeCommand ;;
  write ("RETR " +:+ sourceFile) ;;
  response <- getResponse ;;
  if negb (code response =? 150)
  then
    reject
      (new_full FtpException ("Cannot download file " +:+ sourceFile)
         (code response) (message response))
  else
    (fun c => (data_download psvConnection (Fs.streams local), c)) ;;
    transferResponse <- getResponse ;;
    if 400 <=? code transferResponse
    then
      reject
        (new_full FtpException ("Cannot download file " +:+ sourceFile)
           (code response) (message response))
    else resolve tt.

End Commands.

(** ** index.ts: the [FtpClient] facade *)

Module FtpClient.
Import Exceptions Definitions Connection Commands.

(** [FtpCommandConnection.connect] from the point where [super.connect()]
    has opened the socket: the login. Opening the socket is not part of
    the embedding, so this says what [connect] does only on a connection
    that is [ready]. *)
Definition connect : Promise unit :=
  conf <- get configuration ;;
  send (FtpLoginCommand (user conf) (password conf)).

(** [disconnect] *)
Definition disconnect : Promise unit := send FtpDisconnectCommand.

(** [getFiles] and [getDirectories] *)
Definition getFiles (path : option string) : Promise (list FtpEntryInfo) :=
  files <- send (FtpListCommand path) ;;
  resolve (List.filter (has_type "file") files).

Definition getDirectories (path : option string) : Promise (list FtpEntryInfo) :=
  files <- send (FtpListCommand path) ;;
  resolve (List.filter (has_type "dir") files).

(** [createDir] *)
Definition createDir (path : string) (recursive : bool) : Promise unit :=
  if Js.is_empty path
  then reject (new FtpException "Path cannot be empty")
  else send (MkDirCommand path recursive).

(** [rename]: the command is constructed first, then sent. *)
Definition rename (from to : option string) : Promise unit :=
  match new_RenameCommand from to with
  | inl e => reject e
  | inr execute => send execute
  end.

(** [fspath.join(a, b)] with a listing entry's name for [b]: [join]
    refuses an argument that is not a string. *)
Definition join_name (a : string) (name : option JsValue) : Promise string :=
  match name with
  | Some (VString n) => resolve (Path.join a n)
  | _ => reject (new TypeError "The path argument must be of type string")
  end.

(** [rmDir], the local function of [deleteDirectory]: it removes the
    subdirectories of [toRemove], then [toRemove] itself with a
    non-recursive [deleteDirectory]. [fuel] bounds the depth of the
    recursion. *)
Fixpoint rmDir (fuel : nat) (toRemove : string) {struct fuel} : Promise unit :=
  match fuel with
  | O => unsettled
  | S fuel' =>
      dirListing <- getDirectories (Some toRemove) ;;
      for_each dirListing
        (fun d => p <- join_name toRemove (d !! "name") ;; rmDir fuel' p) ;;
      send (DeleteDirectoryCommand (Some toRemove))
  end.

(** [deleteDirectory]. Every call of [rmDir] first waits for a reply, so
    the replies still to come bound the depth. A [path] that is
    [undefined] fails at [path.split] in the recursive branch. *)
Definition deleteDirectory (path : option string) (recursive : bool) : Promise unit :=
  if negb recursive
  then send (DeleteDirectoryCommand path)
  else
    dirs <- getDirectories path ;;
    match path with
    | None => reject (new TypeError "Cannot read property 'split' of undefined")
    | Some p =>
        let rootDir := Js.str_of_undefined (head (Js.split_char "/" p)) in
        fuel <- get (fun c => S (List.length (responseQueue c))) ;;
        for_each dirs
          (fun d => q <- join_name rootDir (d !! "name") ;; rmDir fuel q)
    end.

(** [deleteFile] *)
Definition deleteFile (path : string) : Promise unit :=
  send (DeleteFileCommand path).

(** [getFeatures] *)
Definition getFeatures : Promise FtpFeatures := send FtpFeaturesCommand.

(** [getFileSize] *)
Definition getFileSize (path : string) : Promise (option Z) :=
  send (SizeCommand path).

(** [fileExists] *)
Definition fileExists (path : string) : Promise bool :=
  try_catch
    (getFileSize path ;; resolve true)
    (fun err =>
       if instanceof err FtpFileNotFoundException
       then resolve false
       else reject err).

(** [getCurrentDirectory] and [setCurrentDirectory] *)
Definition getCurrentDirectory : Promise (option string) := send PwdCommand.

Definition setCurrentDirectory (path : option string) : Promise bool :=
  send (CwdCommand (str_of_null path)).

(** [directoryExists]; [path.isAbsolute] and [path.join] refuse [null]. *)
Definition directoryExists (path : string) : Promise bool :=
  currentDir <- getCurrentDirectory ;;
  toCheck <-
    (if Path.isAbsolute path then resolve path
     else
       match currentDir with
       | Some dir => resolve (Path.join dir path)
       | None => reject (new TypeError "The path argument must be of type string")
       end) ;;
  pathExists <- send (CwdCommand toCheck) ;;
  setCurrentDirectory currentDir ;;
  resolve pathExists.

(** [getLastModificationTime], in a time zone [tz] minutes east of UTC. *)
Definition getLastModificationTime (tz : Z) (path : string) : Promise JsDate.Date :=
  send (LastModifiedTimeCommand tz path).

(** [getLastModificationTime] in a time zone whose offset may change. *)
Definition getLastModificationTime_in (z : JsDate.Zone) (path : string)
  : Promise JsDate.Date :=
  send (LastModifiedTimeCommand_in z path).

(** [setModificationTime] *)
Definition setModificationTime (path : string) (newDate : JsDate.Date) : Promise unit :=
  send (ChangeModificationTime path newDate).

(** [upload]: the command is constructed first, then sent; [local] is the
    local file at [localPath]. *)
Definition upload (local : Fs.LocalFile) (localPath : string) (target : option string)
  : Promise bool :=
  match new_StoreCommand local localPath target with
  | inl e => reject e
  | inr execute => send execute
  end.

(** [download]; [local] is the local file at [target], [overwrite = false]
    stands for a flag that is absent or falsy. *)
Definition download (local : Fs.LocalFile) (source target : string)
  (overwrite progress : bool) : Promise unit :=
  if negb overwrite && Fs.found local
  then reject (new FtpException ("File " +:+ target +:+ " already exists, cannot download file"))
  else send (FtpRetrieveFileCommand local source target progress).

End FtpClient.

(** ** Vocabulary of the statements about the reply parser *)

Module ReplyGrammar.

(** The longest prefix of [s] that [.+] can take. *)
Fixpoint span_dot (s : string) : string :=
  match s with
  | String a s' =>
      if Js.is_line_terminator a then EmptyString else String a (span_dot s')
  | EmptyString => EmptyString
  end.

(** The first run of characters other than CR and LF. *)
Fixpoint first_run (s : string) : string :=
  match s with
  | String a s' => if Js.is_line_terminator a then first_run s' else span_dot s
  | EmptyString => EmptyString
  end.

(** Where the cursor of the matcher stands after [.+] took all it can. *)
Fixpoint run_dot (p : nat) (pv : option ascii) (s : string) : Regex.cursor :=
  match s with
  | String a s' =>
      if Js.is_line_terminator a then Regex.Cursor p pv s
      else run_dot (S p) (Some a) s'
  | EmptyString => Regex.Cursor p pv s
  end.

(** Three digits, a fourth character, and a fifth one that is neither CR
    nor LF. *)
Definition coded (l : string) : bool :=
  match l with
  | String a (String b (String c (String _ (String e _)))) =>
      Js.is_digit a && Js.is_digit b && Js.is_digit c
      && negb (Js.is_line_terminator e)
  | _ => false
  end.

Definition fourth_is_dash (l : string) : bool :=
  match l with
  | String _ (String _ (String _ (String d _))) => Ascii.eqb "-" d
  | _ => false
  end.

(** The lines on which [parseResponse] completes a reply. *)
Definition is_final_line (l : string) : bool :=
  coded l && negb (fourth_is_dash l).

(** The text a line contributes to the reply. *)
Definition line_text (l : string) : string :=
  if coded l then span_dot (Js.drop 4 l) else first_run l.

(** The line has a character other than CR and LF. *)
Fixpoint has_dot (l : string) : bool :=
  match l with
  | String a s' => negb (Js.is_line_terminator a) || has_dot s'
  | EmptyString => false
  end.

(** The classification of the specification: a line closes the open
    reply when it starts with the code that opened it and a space. *)
Definition closes_per_spec (opening_code : string) (l : string) : bool :=
  String.prefix (opening_code +:+ " ") l.

(** One round of the loop of [parseResponse] on a line with a character
    other than CR and LF, as a function of the accumulated text and the
    replies completed so far. *)
Definition feed_line (st : string * list Definitions.FtpResponse) (line : string)
  : string * list Definitions.FtpResponse :=
  let text := fst st +:+ line_text line +:+ Expressions.NEW_LINE in
  if is_final_line line
  then (EmptyString,
        (snd st ++ [Definitions.mkResponse
                      (Connection.to_code (Js.parseInt10 (Js.take 3 line))) text])%list)
  else (text, snd st).

(** The chunk ends with CRLF. *)
Definition ends_with_NEW_LINE (chunk : string) : Prop :=
  exists body, chunk = body +:+ Expressions.NEW_LINE.

(** The byte stream that a sequence of [data] events carries. *)
Definition stream_of (chunks : list string) : string :=
  fold_right String.append EmptyString chunks.

(** The stream cut into events of one byte each. *)
Fixpoint bytewise (s : string) : list string :=
  match s with
  | EmptyString => []
  | String a s' => String a EmptyString :: bytewise s'
  end.

End ReplyGrammar.

(** ** Vocabulary of the statements about the data connection *)

Module DataChannel.
Import Connection.

(** What the [data] listener of [readToEnd] keeps true while everything
    fits: the buffer has its initial size and starts with the bytes
    received so far. *)
Definition holds (st : ReadState) (received : string) : Prop :=
  String.length (result st) = chunkSize
  /\ marker st = String.length received
  /\ Js.take (marker st) (result st) = received.

End DataChannel.

(** ** Vocabulary of the statements about the commands *)

Module Wire.

(** [s] between double quotes. *)
Definition quoted (s : string) : string :=
  String Js.DQUOTE (s +:+ String Js.DQUOTE EmptyString).

(** A command line as it goes out on the control socket. *)
Definition line (s : string) : string := s +:+ Expressions.NEW_LINE.

(** The lines of the login handshake. *)
Definition handshake_lines (u p : string) (utf8 : bool) : list string :=
  [line ("USER " +:+ u); line ("PASS " +:+ p); line "FEAT"]
    ++ (if utf8 then [line "OPTS UTF8 ON"] else [])
    ++ [line "TYPE I"].

Definition all_features : Definitions.FtpFeatures :=
  Definitions.mkFeatures true true true true true true true.

(** The directory that [PwdCommand] reads out of a reply. *)
Definition pwd_directory (r : Definitions.FtpResponse) : option string :=
  match Regex.exec false Expressions.RE_PWD (Definitions.message r) with
  | Some m =>
      if Connection.truthy (Regex.group m 1) then Regex.group m 1 else None
  | None => None
  end.

(** The path that [directoryExists] probes. *)
Definition probed_path (currentDir path : string) : string :=
  if Path.isAbsolute path then path else Path.join currentDir path.

End Wire.

(** ** Vocabulary of the statements about termination *)

Module Progress.
Import Connection.

Definition pending (c : FtpCommandConnection) : nat :=
  List.length (responseQueue c).

(** Started on [c], the promise settles; it takes at least [d] replies
    from the queue when it resolves and adds none when it rejects. *)
Definition consumes {A} (m : Promise A) (d : nat) (c : FtpCommandConnection) : Prop :=
  match m c with
  | (Ok _, c') => (pending c' + d <= pending c)%nat
  | (Throw _, c') => (pending c' <= pending c)%nat
  | (Unsettled, _) => False
  end.

End Progress.

(** ** The scripted server of the test suite *)

Module Scenario.
Import Definitions Connection.

Definition greeting : string := Wire.line "220 FtpFake server".

(** The replies of the login dialogue, as the bytes of one [data] event
    each: 331, 230, the multi-line 211 and its features, 202 and 200. *)
Definition login_replies : list string :=
  [Wire.line "331 Password required for anonymous";
   Wire.line "230 Logged on";
   Wire.line "211-Features" +:+ Wire.line "MDTM" +:+ Wire.line "REST STREAM"
     +:+ Wire.line "SIZE" +:+ Wire.line "MLST" +:+ Wire.line "MLSD"
     +:+ Wire.line "UTF8" +:+ Wire.line "CLNT" +:+ Wire.line "MFMT"
     +:+ Wire.line "EPSV" +:+ Wire.line "211 End" +:+ Expressions.NEW_LINE;
   Wire.line "202 UTF8 mode is always enabled. No need to send this command.";
   Wire.line "200 Type set to I"].

(** A connection that has received [events] and done nothing yet. *)
Definition received (events : list string) : FtpCommandConnection :=
  snd (deliver events fresh).

(** A connection after a login against the scripted server that then
    receives [events]; nothing written so far is kept in the log. *)
Definition logged_in (events : list string) : FtpCommandConnection :=
  let c := snd (Commands.FtpLoginCommand "anonymous" "anonymous"
                  (received (greeting :: login_replies))) in
  snd (deliver events (set_written [] c)).

(** The replies around a directory listing. *)
Definition epsv : string := Wire.line "229 Entering Extended Passive Mode (|||9258|)".
Definition opening : string :=
  Wire.line "150 Opening data channel for directory listing".
Definition complete : string := Wire.line "226 Successfully transferred".

(** Two listings in the MLSD format: one file, and one file with one
    directory. *)
Definition only_a_file : string :=
  Wire.line "type=file;modify=20180608233854;size=419616; steam.dll".
Definition file_and_dir : string :=
  Wire.line "type=file;modify=20180608233854;size=419616; steam.dll"
    +:+ Wire.line "type=dir;modify=20180702203936; steamapps".

(** [n] bytes, all equal to [a]. *)
Fixpoint bytes (n : nat) (a : ascii) : string :=
  match n with
  | O => EmptyString
  | S k => String a (bytes k a)
  end.

(** A data connection that delivers [chunks] and ends. *)
Definition peer (chunks : list string) : DataPeer := mkPeer true chunks true.

Definition ok : FtpResponse := mkResponse 250 (Wire.line "ok").
Definition no : FtpResponse := mkResponse 550 (Wire.line "no").
Definition created : FtpResponse := mkResponse 257 (Wire.line "created").

End Scenario.

(** ** Vocabulary of the statements about dates *)

Module Calendar.

(** The time value of the UTC instant [y]-[m]-[d] [h]:[mi]:[s], months
    counted from 1. *)
Definition utc (y m d h mi s : Z) : Z :=
  JsDate.MakeDate (JsDate.days_from_civil y m d) (JsDate.MakeTime h mi s 0).

End Calendar.


(** ** Vocabulary of the statements about single commands *)

Module Outcome.
Import Exceptions Definitions Connection.

(** The promise rejects with an exception of class [k] and leaves the
    connection exactly as it was. *)
Definition refused {A} (m : Promise A) (k : ExceptionClass) (c : FtpCommandConnection)
  : Prop :=
  exists e, m c = (Throw e, c) /\ cls e = k.

(** The connection [c] once the command lines [ls] went out and the
    replies still queued are [q]. *)
Definition after (ls : list string) (q : list FtpResponse) (c : FtpCommandConnection)
  : FtpCommandConnection :=
  set_responseQueue q (set_written (written c ++ map Wire.line ls) c).

End Outcome.

(** ** Vocabulary of the statements about texts *)

Module Text.

(** Every character of [s] satisfies [p]. *)
Fixpoint all_chars (p : ascii -> bool) (s : string) : bool :=
  match s with
  | EmptyString => true
  | String a s' => p a && all_chars p s'
  end.

(** [s] has no occurrence of the character [c]. *)
Definition free_of (c : ascii) (s : string) : bool :=
  all_chars (fun a => negb (Ascii.eqb c a)) s.

(** Every character of [s] is ASCII: a code below 128. *)
Definition plain (s : string) : bool :=
  all_chars (fun a => (Js.code a <? 128)%nat) s.

(** [s] has no decimal digit. *)
Definition digit_free (s : string) : bool :=
  all_chars (fun a => negb (Js.is_digit a)) s.

(** What may follow the digits of a number for [parseInt] to read just
    them: nothing, or a character that is neither a digit nor an [x]. *)
Definition ends_number (rest : string) : bool :=
  match rest with
  | EmptyString => true
  | String r _ => negb (Js.is_digit r) && negb (Js.is_x r)
  end.

(** What may follow a run of digits for the run to end there: nothing,
    or a character that is not a digit. *)
Definition stops_digits (rest : string) : bool :=
  match rest with
  | EmptyString => true
  | String r _ => negb (Js.is_digit r)
  end.

(** [sub] occurs somewhere in [s]. *)
Definition occurs (sub s : string) : Prop :=
  exists pre post, s = pre +:+ sub +:+ post.

(** The number that the decimal digits [d] denote after the digits that
    gave [acc]. *)
Fixpoint uint_value (acc : Z) (d : Decimal.uint) : Z :=
  match d with
  | Decimal.Nil => acc
  | Decimal.D0 l => uint_value (10 * acc) l
  | Decimal.D1 l => uint_value (10 * acc + 1) l
  | Decimal.D2 l => uint_value (10 * acc + 2) l
  | Decimal.D3 l => uint_value (10 * acc + 3) l
  | Decimal.D4 l => uint_value (10 * acc + 4) l
  | Decimal.D5 l => uint_value (10 * acc + 5) l
  | Decimal.D6 l => uint_value (10 * acc + 6) l
  | Decimal.D7 l => uint_value (10 * acc + 7) l
  | Decimal.D8 l => uint_value (10 * acc + 8) l
  | Decimal.D9 l => uint_value (10 * acc + 9) l
  end.

(** [s] has neither CR nor LF. *)
Definition one_line (s : string) : bool :=
  all_chars (fun a => negb (Js.is_line_terminator a)) s.

End Text.

(** ** Vocabulary of the statements about whole replies *)

Module Stream.

(** A line of a reply that does not complete it: it has neither CR nor
    LF, is not blank, and is not a final line. *)
Definition inner_line (l : string) : bool :=
  Text.one_line l && negb (Js.is_empty (Js.trim l))
  && negb (ReplyGrammar.is_final_line l).

(** The bytes that carry the lines [ls], each followed by CRLF. *)
Definition of_lines (ls : list string) : string :=
  ReplyGrammar.stream_of (map Wire.line ls).

(** The line [d1 d2 d3 sep text]: three characters, a separator, a text. *)
Definition final_line (d1 d2 d3 sep : ascii) (text : string) : string :=
  String d1 (String d2 (String d3 (String sep text))).

(** The number that three decimal digits denote. *)
Definition code_of (d1 d2 d3 : ascii) : Z :=
  100 * Js.digit_val d1 + 10 * Js.digit_val d2 + Js.digit_val d3.

End Stream.

(** ** Vocabulary of the statements about [readToEnd] beyond one buffer *)

Module Transfer.
Import Connection.

(** The chunks that the [data] listener copies into its buffer: with
    [marker] bytes used of a buffer of [capacity] bytes, a chunk that fits
    is copied, and one that does not fit is left out while the buffer is
    doubled. *)
Fixpoint kept (capacity marker : nat) (chunks : list string) : list string :=
  match chunks with
  | [] => []
  | b :: chunks' =>
      if (capacity <? marker + String.length b)%nat
      then kept (capacity * 2) marker chunks'
      else b :: kept capacity (marker + String.length b) chunks'
  end.

(** The buffer has [capacity] bytes and starts with the bytes copied so
    far. *)
Definition filled (st : ReadState) (capacity : nat) (copied : string) : Prop :=
  String.length (result st) = capacity
  /\ marker st = String.length copied
  /\ (marker st <= capacity)%nat
  /\ Js.take (marker st) (result st) = copied.

End Transfer.

(** ** Vocabulary of the statements about MLSD listings *)

Module Listing.
Import Definitions Text.

(** What a server says about one entry: its type, its modification
    stamp, its size if it states one, and its name. *)
Record Item := mkItem {
  kind : string;
  stamp : string;
  size : option Z;
  name : string
}.

Definition size_fact (i : Item) : string :=
  match size i with
  | Some n => ";size=" +:+ Js.string_of_number (Some n)
  | None => EmptyString
  end.

(** The line of an MLSD listing for [i], without its CRLF: the facts
    [type], [modify] and [size], and after a semicolon and a space the
    name. *)
Definition mlsd_line (i : Item) : string :=
  "type=" +:+ kind i +:+ ";modify=" +:+ stamp i +:+ size_fact i +:+ "; " +:+ name i.

(** The stamp [YYYYMMDDhhmmss] as the date-time string
    [YYYY-MM-DDThh:mm:ss]. *)
Definition iso (s : string) : string :=
  Js.substr 0 4 s +:+ "-" +:+ Js.substr 4 2 s +:+ "-" +:+ Js.substr 6 2 s +:+ "T"
    +:+ Js.substr 8 2 s +:+ ":" +:+ Js.substr 10 2 s +:+ ":" +:+ Js.substr 12 2 s.

(** The type has no semicolon, equals sign, CR or LF; the stamp is a
    non-empty string of digits; the size is a natural number; the name has
    no semicolon, CR or LF. *)
Definition well_formed (i : Item) : bool :=
  free_of ";" (kind i) && free_of "=" (kind i) && one_line (kind i)
  && all_chars Js.is_digit (stamp i) && negb (Js.is_empty (stamp i))
  && match size i with Some n => 0 <=? n | None => true end
  && free_of ";" (name i) && one_line (name i).

(** The size is a number that a double holds exactly, and the type and
    the name are ASCII, so that they read the same under the binary and
    the UTF-8 decoding of the listing. *)
Definition representable (i : Item) : bool :=
  match size i with Some n => Js.exact n | None => true end
  && plain (kind i) && plain (name i).

(** The entry that the client is expected to build for [i]. *)
Definition entry_of (i : Item) : FtpEntryInfo :=
  let e : FtpEntryInfo :=
    <["modify" := VDate (DateOfString (iso (stamp i)))]>
      (<["type" := VString (kind i)]> (<["name" := VString (name i)]> ∅)) in
  match size i with
  | Some n => <["size" := VNumber (Some n)]> e
  | None => e
  end.

End Listing.

(** ** Vocabulary of the statements about the recursive make-directory *)

Module Tree.
Import Definitions.

(** What the server says about one segment of the path. The directory
    exists: the probing [CWD] is accepted by [r]. Or it is missing: the
    probe is refused by [r1], [MKD] is answered by [r2], and the [CWD]
    into the new directory by [r3]. *)
Inductive Answer : Type :=
| Exists (r : FtpResponse)
| Missing (r1 r2 r3 : FtpResponse).

(** The path [/s1/s2/...] of the segments. *)
Fixpoint path_of (segs : list string) : string :=
  match segs with
  | [] => EmptyString
  | s :: segs' => "/" +:+ s +:+ path_of segs'
  end.

(** The replies of a plan, in the order in which they arrive. *)
Fixpoint replies (plan : list (string * Answer)) : list FtpResponse :=
  match plan with
  | [] => []
  | (_, Exists r) :: plan' => r :: replies plan'
  | (_, Missing r1 r2 r3) :: plan' => r1 :: r2 :: r3 :: replies plan'
  end.

(** The commands expected below the directory [here]: a probe for every
    segment and, where the directory is missing, [MKD] with the segment
    and a [CWD] into the new directory. *)
Fixpoint dialogue (here : string) (plan : list (string * Answer)) : list string :=
  match plan with
  | [] => []
  | (s, a) :: plan' =>
      let dir := here +:+ "/" +:+ s in
      match a with
      | Exists _ => ["CWD " +:+ dir]
      | Missing _ _ _ => ["CWD " +:+ dir; "MKD " +:+ s; "CWD " +:+ dir]
      end ++ dialogue dir plan'
  end.

(** The segment has no slash and is not blank, and the replies are what
    the answer says: a code below 300 accepts the probe; a code of 300 or
    more refuses it and 257 confirms [MKD]. *)
Definition consistent (sa : string * Answer) : Prop :=
  Text.free_of "/" (fst sa) = true
  /\ Js.is_empty (Js.trim (fst sa)) = false
  /\ match snd sa with
     | Exists r => code r < 300
     | Missing r1 r2 _ => 300 <= code r1 /\ code r2 = 257
     end.

(** The last segment of the plan is missing. *)
Definition ends_missing (plan : list (string * Answer)) : Prop :=
  match last plan with
  | Some (_, Missing _ _ _) => True
  | _ => False
  end.

End Tree.

(** ** Vocabulary of the statements about calendar dates *)

Module Civil.

(** Leap years of the Gregorian calendar. *)
Definition leap (y : Z) : bool :=
  ((y mod 4 =? 0) && negb (y mod 100 =? 0)) || (y mod 400 =? 0).

Definition days_in_month (y m : Z) : Z :=
  if m =? 2 then (if leap y then 29 else 28)
  else if (m =? 4) || (m =? 6) || (m =? 9) || (m =? 11) then 30
  else 31.

(** A date of the calendar, months counted from 1, and a time of day. *)
Definition valid (y m d h mi s : Z) : Prop :=
  1 <= m <= 12 /\ 1 <= d <= days_in_month y m
  /\ 0 <= h < 24 /\ 0 <= mi < 60 /\ 0 <= s < 60.

(** [n] printed and padded with zeros to two characters. *)
Definition two (n : Z) : string :=
  Lodash.padStart (Js.string_of_number (Some n)) 2 "0".

(** The stamp [YYYYMMDDhhmmss] of a date and a time of day. *)
Definition stamp (y m d h mi s : Z) : string :=
  Js.string_of_number (Some y) +:+ two m +:+ two d +:+ two h +:+ two mi +:+ two s.

End Civil.

Module Zones.

(** A zone that changes its offset as Europe/Warsaw did at the start of
    summer time in 2018: one hour east of UTC until 2018-03-25 01:00 UTC
    and two hours from then on. A local time before 03:00 of that day, the
    skipped hour from 02:00 included, is read with the offset of before
    the change. *)
Definition spring_2018 : JsDate.Zone :=
  JsDate.mkZone
    (fun t => if t <? Calendar.utc 2018 3 25 1 0 0 then 60 else 120)
    (fun t => if t <? Calendar.utc 2018 3 25 3 0 0 then 60 else 120).

End Zones.

(** * Verification *)

(** ** The reply parser *)

Module ParserProofs.
Import Regex Expressions ReplyGrammar Connection Definitions.

Lemma plus_dot_loop ml (k : cont) :
  (forall j c, k j c <> None) ->
  forall fuel p pv s c, (String.length s < fuel)%nat ->
    plus_loop (mtch ml dot) k fuel (Cursor p pv s) c =
    match s with
    | String a s' =>
        if Js.is_line_terminator a then None
        else k (run_dot (S p) (Some a) s') c
    | EmptyString => None
    end.
Proof.
  intros Hk fuel. induction fuel as [|f IH]; intros p pv s c Hlen; [lia|].
  destruct s as [|a s']; [reflexivity|].
  cbn [plus_loop mtch dot rest pos].
  destruct (Js.is_line_terminator a) eqn:Ha; cbn [negb]; [reflexivity|].
  replace (p <? S p)%nat with true by (symmetry; apply Nat.ltb_lt; lia).
  cbn in Hlen. rewrite IH by lia.
  destruct s' as [|b s'']; cbn [run_dot]; [reflexivity|].
  destruct (Js.is_line_terminator b); [reflexivity|].
  unfold orelse. destruct (k _ c) eqn:E; [reflexivity|]. now apply Hk in E.
Qed.

Lemma run_dot_pos s : forall p pv,
  pos (run_dot p pv s) = (p + String.length (span_dot s))%nat.
Proof.
  induction s as [|a s IH]; intros p pv; cbn; [lia|].
  destruct (Js.is_line_terminator a); cbn; [lia|]. rewrite IH. lia.
Qed.

Lemma take_span_dot s : Js.take (String.length (span_dot s)) s = span_dot s.
Proof.
  induction s as [|a s IH]; cbn; [reflexivity|].
  destruct (Js.is_line_terminator a); cbn; [reflexivity|]. now rewrite IH.
Qed.

Lemma mtch_grp_plus_dot ml n (k : cont) p pv s c :
  (forall j c, k j c <> None) ->
  mtch ml (Grp n (Plus dot)) k (Cursor p pv s) c =
  match s with
  | String a s' =>
      if Js.is_line_terminator a then None
      else k (run_dot (S p) (Some a) s') ((n, span_dot s) :: c)
  | EmptyString => None
  end.
Proof.
  intros Hk. cbn [mtch rest pos].
  rewrite plus_dot_loop; [|intros j c'; apply Hk|lia].
  destruct s as [|a s']; [reflexivity|].
  destruct (Js.is_line_terminator a) eqn:Ha; [reflexivity|].
  rewrite run_dot_pos.
  replace (S p + String.length (span_dot s') - p)%nat
    with (String.length (span_dot (String a s'))) by (cbn; rewrite Ha; cbn; lia).
  now rewrite take_span_dot.
Qed.


Ltac eval_mtch :=
  cbn [mtch rep_n digit dot not_chr chr rest pos at_bol prev orelse
       Js.take Js.drop Nat.sub accept cap Nat.eqb negb andb].

Lemma accept_total : forall j c, accept j c <> None.
Proof. intros j c; discriminate. Qed.

(** At the start of a coded line the first alternative matches: group 6
    is the text after the fourth character, group 3 the code unless the
    fourth character is a hyphen. *)
Lemma mtch_cmd_line_coded l :
  coded l = true ->
  exists j c,
    mtch false RE_CMD_LINE accept (Cursor 0 None l) [] = Some (j, c)
    /\ cap 3 c = (if fourth_is_dash l then None else Some (Js.take 3 l))
    /\ cap 6 c = Some (span_dot (Js.drop 4 l))
    /\ Js.is_empty (span_dot (Js.drop 4 l)) = false.
Proof.
  destruct l as [|a [|b [|c [|d [|e l]]]]]; try discriminate.
  unfold coded, fourth_is_dash. intros H.
  apply andb_prop in H as [H He]. apply andb_prop in H as [H Hc].
  apply andb_prop in H as [Ha Hb]. apply negb_true_iff in He.
  unfold RE_CMD_LINE.
  remember (Grp 6 (Plus dot)) as G6 eqn:E6.
  remember (Grp 7 (Plus dot)) as G7 eqn:E7.
  eval_mtch. rewrite Ha, Hb, Hc. eval_mtch.
  destruct (Ascii.eqb "-" d) eqn:Hd; eval_mtch; subst G6;
    (rewrite mtch_grp_plus_dot by (intros; discriminate));
    rewrite He; eval_mtch; cbn [span_dot]; rewrite He;
    do 2 eexists; (split; [reflexivity|]); cbn; auto.
Qed.

Lemma mtch_cmd_line_uncoded l :
  coded l = false ->
  mtch false RE_CMD_LINE accept (Cursor 0 None l) [] =
  mtch false (Grp 7 (Plus dot)) accept (Cursor 0 None l) [].
Proof.
  intros H. unfold RE_CMD_LINE.
  remember (Grp 6 (Plus dot)) as G6 eqn:E6.
  remember (Grp 7 (Plus dot)) as G7 eqn:E7.
  destruct l as [|a [|b [|c [|d l]]]]; eval_mtch;
    repeat match goal with
      | |- context [if Js.is_digit ?x then _ else _] =>
          destruct (Js.is_digit x) eqn:?; eval_mtch
      end; try reflexivity.
  destruct (Ascii.eqb "-" d) eqn:Hd; eval_mtch; subst G6;
    (rewrite mtch_grp_plus_dot by (intros; discriminate));
    (destruct l as [|e l]; [reflexivity|]);
    unfold coded in H; cbn [andb] in H;
    repeat match goal with Hx : Js.is_digit _ = true |- _ => rewrite Hx in H end;
    cbn [andb] in H; apply negb_false_iff in H; rewrite H; reflexivity.
Qed.

Lemma mtch_cmd_line_later p a s :
  mtch false RE_CMD_LINE accept (Cursor p (Some a) s) [] =
  mtch false (Grp 7 (Plus dot)) accept (Cursor p (Some a) s) [].
Proof.
  unfold RE_CMD_LINE.
  remember (Grp 6 (Plus dot)) as G6 eqn:E6.
  remember (Grp 7 (Plus dot)) as G7 eqn:E7.
  eval_mtch. reflexivity.
Qed.

Lemma search_cmd_line_later s : forall p a,
  search false RE_CMD_LINE p (Some a) s =
  search false (Grp 7 (Plus dot)) p (Some a) s.
Proof.
  induction s as [|b s IH]; intros p a; cbn [search];
    rewrite mtch_cmd_line_later; [reflexivity|].
  now rewrite IH.
Qed.

Lemma search_first_run s : forall p pv,
  match search false (Grp 7 (Plus dot)) p pv s with
  | Some (_, _, c) => has_dot s = true /\ c = [(7%nat, first_run s)]
  | None => has_dot s = false
  end.
Proof.
  induction s as [|a s IH]; intros p pv; cbn [search has_dot first_run];
    rewrite mtch_grp_plus_dot by apply accept_total; [reflexivity|].
  destruct (Js.is_line_terminator a) eqn:Ha; cbn [negb orb accept].
  - apply IH.
  - split; [reflexivity|]. cbn [span_dot]. now rewrite Ha.
Qed.

Lemma first_run_nonempty s : has_dot s = true -> Js.is_empty (first_run s) = false.
Proof.
  induction s as [|a s IH]; cbn; [discriminate|].
  destruct (Js.is_line_terminator a) eqn:Ha; cbn; [exact IH|reflexivity].
Qed.

Lemma coded_has_dot l : coded l = true -> has_dot l = true.
Proof.
  destruct l as [|a [|b [|c [|d [|e l]]]]]; try discriminate.
  unfold coded. intros H. apply andb_prop in H as [_ He].
  cbn [has_dot]. rewrite He. now rewrite !orb_true_r.
Qed.

(** What [RE_CMD_LINE.exec] finds on a line: nothing exactly when the line
    is made of CR and LF only; otherwise group 3 is the code of a final
    line and [match[6] || match[7]] is the text of the line. *)
Lemma exec_RE_CMD_LINE l :
  match exec false RE_CMD_LINE l with
  | Some m =>
      has_dot l = true
      /\ group m 3 = (if is_final_line l then Some (Js.take 3 l) else None)
      /\ js_or (group m 6) (group m 7) = Some (line_text l)
  | None => has_dot l = false
  end.
Proof.
  unfold exec, is_final_line, line_text.
  destruct (coded l) eqn:Hc.
  - destruct (mtch_cmd_line_coded l Hc) as (j & c & Hm & H3 & H6 & Hne).
    destruct l as [|a l']; [discriminate|].
    cbn [search]. rewrite Hm. cbn [group groups andb].
    rewrite H3, H6. split; [now apply coded_has_dot|].
    split; [now destruct (fourth_is_dash _)|].
    unfold js_or. now destruct (span_dot _).
  - assert (Hs : search false RE_CMD_LINE 0 None l
                 = search false (Grp 7 (Plus dot)) 0 None l).
    { destruct l as [|a l']; cbn [search]; rewrite mtch_cmd_line_uncoded by exact Hc;
        [reflexivity|]. now rewrite search_cmd_line_later. }
    rewrite Hs. pose proof (search_first_run l 0 None) as H.
    destruct (search false (Grp 7 (Plus dot)) 0 None l) as [[[q j] c]|]; [|exact H].
    destruct H as [Hd ->]. cbn [group groups cap Nat.eqb andb js_or].
    auto.
Qed.

Lemma line_terminator_is_ws a : Js.is_line_terminator a = true -> Js.is_ws a = true.
Proof.
  unfold Js.is_line_terminator, Js.is_ws. intros H.
  apply orb_true_iff in H as [H|H]; apply Nat.eqb_eq in H; rewrite H; reflexivity.
Qed.

Lemma has_dot_trimStart l : has_dot (Js.trimStart l) = true -> has_dot l = true.
Proof.
  induction l as [|a l IH]; cbn [Js.trimStart has_dot]; [auto|].
  destruct (Js.is_ws a); [|auto]. intros H. rewrite IH by exact H. apply orb_true_r.
Qed.

Lemma trimStart_head l :
  match Js.trimStart l with
  | String a _ => Js.is_ws a = false
  | EmptyString => True
  end.
Proof.
  induction l as [|a l IH]; cbn [Js.trimStart]; [exact I|].
  destruct (Js.is_ws a) eqn:Ha; [exact IH|exact Ha].
Qed.

(** A line that survives the blank-line filter has a character that [.]
    accepts, so [RE_CMD_LINE.exec] never returns [null] on it. *)
Lemma not_blank_has_dot l :
  negb (Js.is_empty (Js.trim l)) = true -> has_dot l = true.
Proof.
  unfold Js.trim. intros H. apply has_dot_trimStart.
  pose proof (trimStart_head l) as Hh.
  destruct (Js.trimStart l) as [|a t]; [discriminate|].
  cbn [has_dot]. destruct (Js.is_line_terminator a) eqn:Ha; [|reflexivity].
  apply line_terminator_is_ws in Ha. congruence.
Qed.

Lemma has_dot_not_empty l : has_dot l = true -> Js.is_empty l = false.
Proof. destruct l; [discriminate|reflexivity]. Qed.

(** One round of the loop of [parseResponse], in closed form. *)
Lemma parse_lines_cons line buf cb response :
  has_dot line = true ->
  parse_lines (line :: buf) cb response =
  if is_final_line line
  then
    parse_lines buf EmptyString
      (response ++
         [mkResponse (to_code (Js.parseInt10 (Js.take 3 line)))
            (cb +:+ line_text line +:+ NEW_LINE)])
  else parse_lines buf (cb +:+ line_text line +:+ NEW_LINE) response.
Proof.
  intros Hd. cbn [parse_lines]. rewrite (has_dot_not_empty _ Hd).
  pose proof (exec_RE_CMD_LINE line) as H.
  destruct (exec false RE_CMD_LINE line) as [m|]; [|congruence].
  destruct H as (_ & H3 & H67). rewrite H3, H67. cbn [Js.str_of_undefined].
  destruct (is_final_line line) eqn:Hf; [|reflexivity].
  unfold is_final_line in Hf. apply andb_prop in Hf as [Hc _].
  destruct line as [|a [|b [|c l]]]; try discriminate. reflexivity.
Qed.

Lemma digit_bounds a :
  Js.is_digit a = true -> (48 <= Js.code a <= 57)%nat.
Proof.
  unfold Js.is_digit. intros H. apply andb_prop in H as [H1 H2].
  apply Nat.leb_le in H1, H2. lia.
Qed.

Lemma digit_not_ws a : Js.is_digit a = true -> Js.is_ws a = false.
Proof.
  intros H. apply digit_bounds in H. unfold Js.is_ws.
  destruct (Nat.leb_spec (Js.code a) 13); [lia|].
  destruct (Nat.eqb_spec (Js.code a) 32); [lia|].
  destruct (Nat.eqb_spec (Js.code a) 160); [lia|].
  now rewrite andb_false_r.
Qed.

(** [parseInt(d, 10)] of three digits is their decimal value, never
    [NaN]. *)
Lemma parseInt10_three_digits a b c :
  Js.is_digit a = true -> Js.is_digit b = true -> Js.is_digit c = true ->
  Js.parseInt10 (String a (String b (String c EmptyString))) =
  Some (100 * Js.digit_val a + 10 * Js.digit_val b + Js.digit_val c).
Proof.
  intros Ha Hb Hc. unfold Js.parseInt10, Js.parseInt_radix.
  cbn [Js.trimStart]. rewrite (digit_not_ws a Ha).
  pose proof (digit_bounds a Ha) as Ba.
  destruct (Nat.eqb_spec (Js.code a) 45); [lia|].
  destruct (Nat.eqb_spec (Js.code a) 43); [lia|].
  cbn [Js.parse_magnitude negb andb Js.dec_digits]. rewrite Ha, Hb, Hc.
  cbn [default from_option]. unfold id. f_equal. lia.
Qed.

Lemma final_line_code line :
  is_final_line line = true ->
  exists n, Js.parseInt10 (Js.take 3 line) = Some n /\ 0 <= n <= 999.
Proof.
  unfold is_final_line, coded. intros H. apply andb_prop in H as [H _].
  destruct line as [|a [|b [|c [|d [|e l]]]]]; try discriminate.
  apply andb_prop in H as [H _]. apply andb_prop in H as [H Hc].
  apply andb_prop in H as [Ha Hb].
  cbn [Js.take]. rewrite parseInt10_three_digits by assumption.
  eexists; split; [reflexivity|].
  apply digit_bounds in Ha, Hb, Hc. unfold Js.digit_val. lia.
Qed.

(** C1 (amended). [parseResponse] keeps no record of the code that opened
    a reply. For every line that survives the blank-line filter, and
    whatever text [cb] the open reply has accumulated: the loop completes
    and emits a reply exactly when the line has three leading digits, then
    a character other than a hyphen, then a character other than CR and
    LF; the reply carries the code of that very line (a number from 0 to
    999) and the accumulated text followed by the text of the line and
    CRLF, and the accumulator is reset. Every other line emits nothing and
    only appends its text and CRLF to the accumulator. *)
Theorem parseResponse_classifies_lines line buf cb response :
  negb (Js.is_empty (Js.trim line)) = true ->
  parse_lines (line :: buf) cb response =
    (if is_final_line line
     then
       parse_lines buf EmptyString
         (response ++
            [mkResponse (to_code (Js.parseInt10 (Js.take 3 line)))
               (cb +:+ line_text line +:+ NEW_LINE)])
     else parse_lines buf (cb +:+ line_text line +:+ NEW_LINE) response)
  /\ (is_final_line line = true ->
      exists n, Js.parseInt10 (Js.take 3 line) = Some n /\ 0 <= n <= 999).
Proof.
  intros H. split; [|apply final_line_code].
  apply parse_lines_cons. now apply not_blank_has_dot.
Qed.

Lemma parseResponse_classifies_lines_witness :
  negb (Js.is_empty (Js.trim "200 done")) = true
  /\ (parse_lines ["200 done"] ("Features" +:+ NEW_LINE) [] =
        (if is_final_line "200 done"
         then
           parse_lines [] EmptyString
             ([] ++
                [mkResponse (to_code (Js.parseInt10 (Js.take 3 "200 done")))
                   (("Features" +:+ NEW_LINE) +:+ line_text "200 done" +:+ NEW_LINE)])
         else
           parse_lines [] (("Features" +:+ NEW_LINE) +:+ line_text "200 done" +:+ NEW_LINE) [])
      /\ (is_final_line "200 done" = true ->
          exists n, Js.parseInt10 (Js.take 3 "200 done") = Some n /\ 0 <= n <= 999)).
Proof.
  split; [reflexivity|].
  apply (parseResponse_classifies_lines "200 done" [] ("Features" +:+ NEW_LINE) []).
  reflexivity.
Defined.

(** C1, counterexample. After the data event [211-Features] a reply with
    code 211 is open (its text is buffered, nothing is queued). The line
    [200 done] does not start with [211] and a space, yet it closes the
    reply, which is emitted with code 200; and the line [211 ] (the
    opening code and a space) does not close it. *)
Lemma parseResponse_ignores_opening_code :
  let opened := snd (onData ("211-Features" +:+ NEW_LINE) fresh) in
  commandBuffer opened = "Features" +:+ NEW_LINE
  /\ responseQueue opened = []
  /\ closes_per_spec "211" "200 done" = false
  /\ responseQueue (snd (onData ("200 done" +:+ NEW_LINE) opened)) =
       [mkResponse 200 ("Features" +:+ NEW_LINE +:+ "done" +:+ NEW_LINE)]
  /\ closes_per_spec "211" "211 " = true
  /\ responseQueue (snd (onData ("211 " +:+ NEW_LINE) opened)) = [].
Proof. vm_compute. repeat split; reflexivity. Qed.

Lemma app_cons_str a s t : String a s +:+ t = String a (s +:+ t).
Proof. reflexivity. Qed.

Lemma app_nil_l_str t : EmptyString +:+ t = t.
Proof. reflexivity. Qed.

Lemma app_nil_r_str s : s +:+ EmptyString = s.
Proof. induction s as [|a s IH]; [reflexivity|]. now rewrite app_cons_str, IH. Qed.

Lemma app_assoc_str s t u : (s +:+ t) +:+ u = s +:+ t +:+ u.
Proof. induction s as [|a s IH]; [reflexivity|]. now rewrite !app_cons_str, IH. Qed.

Lemma split_go_not_nil sep k s : Js.split_go sep k s <> [].
Proof.
  revert k. induction s as [|a s IH]; intros k; cbn [Js.split_go]; [discriminate|].
  destruct k; [|apply IH].
  destruct (String.prefix sep (String a s)); [discriminate|].
  specialize (IH 0%nat). destruct (Js.split_go sep 0 s); [congruence|cbn; discriminate].
Qed.

Lemma cons_head_app a l1 l2 :
  l1 <> [] -> Js.cons_head a (l1 ++ l2) = Js.cons_head a l1 ++ l2.
Proof. destruct l1; [congruence|reflexivity]. Qed.

Lemma prefix_cons x t y u :
  String.prefix (String x t) (String y u) = Ascii.eqb x y && String.prefix t u.
Proof.
  cbn [String.prefix]. destruct (ascii_dec x y) as [<-|Hn].
  - now rewrite Ascii.eqb_refl.
  - apply Ascii.eqb_neq in Hn. now rewrite Hn.
Qed.

Lemma prefix_nil u : String.prefix EmptyString u = true.
Proof. now destruct u. Qed.

Lemma prefix_NEW_LINE a s :
  String.prefix NEW_LINE (String a s) =
  Ascii.eqb Js.CR a && match s with String b _ => Ascii.eqb Js.LF b | EmptyString => false end.
Proof.
  unfold NEW_LINE. rewrite prefix_cons. destruct s as [|b s']; [reflexivity|].
  now rewrite prefix_cons, prefix_nil, andb_true_r.
Qed.

(** Splitting at CRLF distributes over a CRLF between two texts. *)
Lemma split_go_NEW_LINE_app b a : forall k,
  (k <= String.length a)%nat -> (k <= 1)%nat ->
  Js.split_go NEW_LINE k (a +:+ NEW_LINE +:+ b) =
  Js.split_go NEW_LINE k a ++ Js.split NEW_LINE b.
Proof.
  induction a as [|c a IH]; intros k Hk Hk1.
  - cbn in Hk. assert (k = 0%nat) as -> by lia.
    rewrite app_nil_l_str.
    change (NEW_LINE +:+ b) with (String Js.CR (String Js.LF b)).
    cbn [Js.split_go]. rewrite prefix_NEW_LINE. reflexivity.
  - rewrite app_cons_str. cbn [Js.split_go]. destruct k as [|k].
    + rewrite !prefix_NEW_LINE.
      destruct a as [|d a'].
      * rewrite app_nil_l_str. unfold NEW_LINE at 1. rewrite !app_cons_str.
        replace (Ascii.eqb Js.LF Js.CR) with false by reflexivity.
        rewrite andb_false_r. cbn [andb].
        change (String Js.CR (String Js.LF (EmptyString +:+ b)))
          with (EmptyString +:+ NEW_LINE +:+ b).
        rewrite IH by (cbn; lia). reflexivity.
      * rewrite app_cons_str.
        destruct (Ascii.eqb Js.CR c && Ascii.eqb Js.LF d).
        -- rewrite <- app_cons_str.
           cbn [String.length NEW_LINE Nat.sub].
           rewrite IH by (cbn; lia). reflexivity.
        -- rewrite <- app_cons_str.
           rewrite IH by (cbn; lia).
           apply cons_head_app, split_go_not_nil.
    + apply IH; cbn in Hk; lia.
Qed.

Lemma split_NEW_LINE_app a b :
  Js.split NEW_LINE (a +:+ NEW_LINE +:+ b) =
  Js.split NEW_LINE a ++ Js.split NEW_LINE b.
Proof. apply split_go_NEW_LINE_app; lia. Qed.

Lemma data_lines_app a b :
  data_lines (a +:+ NEW_LINE +:+ b) = data_lines a ++ data_lines b.
Proof. unfold data_lines. now rewrite split_NEW_LINE_app, List.filter_app. Qed.

Lemma data_lines_has_dot data : Forall (fun l => has_dot l = true) (data_lines data).
Proof.
  unfold data_lines. apply List.Forall_forall. intros l Hl.
  apply List.filter_In in Hl as [_ Hl]. now apply not_blank_has_dot.
Qed.

(** Over lines that passed the filter the loop is a fold, it does not
    throw and it leaves [responseBuffer] empty. *)
Lemma parse_lines_fold lines : forall cb response,
  Forall (fun l => has_dot l = true) lines ->
  parse_lines lines cb response =
  (Ok (snd (fold_left feed_line lines (cb, response))),
   ([], fst (fold_left feed_line lines (cb, response)))).
Proof.
  induction lines as [|l lines IH]; intros cb response H; [reflexivity|].
  inversion H as [|? ? Hl Hls]; subst.
  rewrite parse_lines_cons by exact Hl. cbn [fold_left].
  unfold feed_line at 2 4. cbn [fst snd].
  destruct (is_final_line l); now rewrite IH.
Qed.

Lemma feed_line_snd cb response l :
  feed_line (cb, response) l =
  (fst (feed_line (cb, []) l), response ++ snd (feed_line (cb, []) l)).
Proof.
  unfold feed_line. cbn [fst snd].
  destruct (is_final_line l); cbn [fst snd]; [reflexivity|].
  now rewrite List.app_nil_r.
Qed.

Lemma fold_feed_line_snd lines : forall cb response,
  fold_left feed_line lines (cb, response) =
  (fst (fold_left feed_line lines (cb, [])),
   response ++ snd (fold_left feed_line lines (cb, []))).
Proof.
  induction lines as [|l lines IH]; intros cb response; cbn [fold_left fst snd].
  - now rewrite List.app_nil_r.
  - rewrite (feed_line_snd cb response).
    destruct (feed_line (cb, []) l) as [cb' r'] eqn:E. cbn [fst snd].
    rewrite IH. rewrite (IH cb' r'). cbn [fst snd].
    now rewrite List.app_assoc.
Qed.

(** [onData] in closed form on a connection whose [responseBuffer] is
    empty, as it is between any two events. *)
Lemma onData_closed data c :
  responseBuffer c = [] ->
  onData data c =
  (Ok tt,
   let st := fold_left feed_line (data_lines data) (commandBuffer c, []) in
   set_responseQueue (responseQueue c ++ snd st) (set_parser [] (fst st) c)).
Proof.
  intros Hb. unfold onData, bind, parseResponse, modify. rewrite Hb.
  cbn [List.app]. rewrite parse_lines_fold by apply data_lines_has_dot.
  reflexivity.
Qed.

Lemma data_lines_line_end a : data_lines (a +:+ NEW_LINE) = data_lines a.
Proof.
  rewrite <- (app_nil_r_str NEW_LINE), data_lines_app.
  apply List.app_nil_r.
Qed.

Lemma onData_app a b c :
  responseBuffer c = [] ->
  onData (a +:+ NEW_LINE +:+ b) c = (onData (a +:+ NEW_LINE) ;; onData b) c.
Proof.
  intros Hb. unfold bind at 1.
  rewrite (onData_closed (a +:+ NEW_LINE) c Hb), !onData_closed by (exact Hb || reflexivity).
  rewrite data_lines_line_end, data_lines_app, fold_left_app.
  destruct (fold_left feed_line (data_lines a) (commandBuffer c, [])) as [cb1 r1] eqn:E1.
  cbn [fst snd commandBuffer responseQueue set_responseQueue set_parser].
  rewrite (fold_feed_line_snd (data_lines b) cb1 r1).
  cbn [fst snd]. unfold set_responseQueue, set_parser; cbn.
  now rewrite List.app_assoc.
Qed.

Lemma onData_keeps_buffer_empty data c :
  responseBuffer c = [] -> responseBuffer (snd (onData data c)) = [].
Proof. intros Hb. now rewrite onData_closed. Qed.

(** [responseBuffer] is empty in every state that the events of a stream
    lead to. *)
Lemma deliver_keeps_buffer_empty events : forall c,
  responseBuffer c = [] -> responseBuffer (snd (deliver events c)) = [].
Proof.
  induction events as [|data events IH]; intros c Hb; [exact Hb|].
  cbn [deliver]. unfold bind.
  pose proof (onData_keeps_buffer_empty data c Hb) as Hb1.
  destruct (onData data c) as [[[]|e|] c1] eqn:E1;
    [|rewrite onData_closed in E1 by exact Hb; discriminate..].
  now apply IH.
Qed.

(** C2 (amended). The parser keeps no bytes between two [data] events, so
    it is invariant under the packet boundaries that fall right after a
    CRLF: when every event but the last ends with CRLF, delivering the
    events one by one leaves the connection (the queued replies, their
    codes, texts and order, and the accumulated text) exactly as
    delivering the whole stream in a single event does. *)
Theorem deliver_split_at_line_ends chunks last c :
  responseBuffer c = [] ->
  Forall ends_with_NEW_LINE chunks ->
  deliver (chunks ++ [last]) c = deliver [stream_of chunks +:+ last] c.
Proof.
  intros Hb Hall. revert c Hb.
  induction Hall as [|ch chunks [body ->] _ IH]; intros c Hb; [reflexivity|].
  cbn [List.app deliver stream_of fold_right].
  fold (stream_of chunks).
  rewrite !app_assoc_str.
  unfold bind. rewrite onData_app by exact Hb. unfold bind.
  pose proof (onData_keeps_buffer_empty (body +:+ NEW_LINE) c Hb) as Hb1.
  destruct (onData (body +:+ NEW_LINE) c) as [[[]|e|] c1] eqn:E1;
    [|rewrite onData_closed in E1 by exact Hb; discriminate..].
  cbn [snd] in Hb1. rewrite (IH _ Hb1). reflexivity.
Qed.

Lemma deliver_split_at_line_ends_witness :
  responseBuffer fresh = []
  /\ Forall ends_with_NEW_LINE ["211-Features" +:+ NEW_LINE; " UTF8" +:+ NEW_LINE]
  /\ deliver (["211-Features" +:+ NEW_LINE; " UTF8" +:+ NEW_LINE]
                ++ ["211 End" +:+ NEW_LINE]) fresh =
     deliver [stream_of ["211-Features" +:+ NEW_LINE; " UTF8" +:+ NEW_LINE]
                +:+ ("211 End" +:+ NEW_LINE)] fresh.
Proof.
  assert (H : Forall ends_with_NEW_LINE
                ["211-Features" +:+ NEW_LINE; " UTF8" +:+ NEW_LINE]).
  { repeat constructor; eexists; reflexivity. }
  split; [reflexivity|]. split; [exact H|].
  apply (deliver_split_at_line_ends _ _ fresh eq_refl H).
Defined.

(** C2, counterexample. The stream [220 hello CRLF] in one event queues
    the reply 220 with text [hello]; cut after [220 he] it queues a reply
    220 with text [he] and buffers [llo]; delivered one byte at a time it
    queues no reply at all. *)
Lemma parser_depends_on_packet_boundaries :
  let stream := "220 hello" +:+ NEW_LINE in
  responseQueue (snd (deliver [stream] fresh))
    = [mkResponse 220 ("hello" +:+ NEW_LINE)]
  /\ stream_of ["220 he"; "llo" +:+ NEW_LINE] = stream
  /\ responseQueue (snd (deliver ["220 he"; "llo" +:+ NEW_LINE] fresh))
    = [mkResponse 220 ("he" +:+ NEW_LINE)]
  /\ stream_of (bytewise stream) = stream
  /\ responseQueue (snd (deliver (bytewise stream) fresh)) = [].
Proof. vm_compute. repeat split; reflexivity. Qed.
End ParserProofs.

(** ** The data connection *)

Module DataProofs.
Import Definitions Connection ReplyGrammar DataChannel ParserProofs.

Lemma length_app_str a b :
  String.length (a +:+ b) = (String.length a + String.length b)%nat.
Proof.
  induction a as [|x a IH]; [reflexivity|].
  rewrite app_cons_str. cbn [String.length]. now rewrite IH.
Qed.

Lemma take_app_exact a b : Js.take (String.length a) (a +:+ b) = a.
Proof.
  induction a as [|x a IH]; [now destruct b|].
  rewrite app_cons_str. cbn [String.length Js.take]. now rewrite IH.
Qed.

Lemma drop_app_exact a b : Js.drop (String.length a) (a +:+ b) = b.
Proof.
  induction a as [|x a IH]; [reflexivity|].
  rewrite app_cons_str. cbn [String.length Js.drop]. exact IH.
Qed.

Lemma take_all n s : (String.length s <= n)%nat -> Js.take n s = s.
Proof.
  revert n. induction s as [|x s IH]; intros n H; [now destruct n|].
  destruct n as [|n]; cbn in H; [lia|]. cbn [Js.take]. rewrite IH by lia. reflexivity.
Qed.

Lemma length_take n s : String.length (Js.take n s) = Nat.min n (String.length s).
Proof.
  revert n. induction s as [|x s IH]; intros [|n]; cbn; try reflexivity.
  now rewrite IH.
Qed.

Lemma length_drop n s : String.length (Js.drop n s) = (String.length s - n)%nat.
Proof.
  revert n. induction s as [|x s IH]; intros [|n]; cbn; try reflexivity.
  apply IH.
Qed.

Lemma length_alloc n : String.length (alloc n) = n.
Proof. induction n as [|n IH]; cbn; [reflexivity|now rewrite IH]. Qed.

Lemma drop_all n s : (String.length s <= n)%nat -> Js.drop n s = EmptyString.
Proof.
  revert n. induction s as [|x s IH]; intros n H; [now destruct n|].
  destruct n as [|n]; cbn in H; [lia|]. cbn [Js.drop]. apply IH. lia.
Qed.

Lemma stream_of_snoc chunks b : stream_of (chunks ++ [b]) = stream_of chunks +:+ b.
Proof.
  induction chunks as [|a chunks IH]; cbn [List.app stream_of fold_right].
  - apply app_nil_r_str.
  - fold (stream_of (chunks ++ [b])). fold (stream_of chunks).
    now rewrite IH, app_assoc_str.
Qed.

Lemma read_onData_fits st received buffer :
  holds st received ->
  (String.length received + String.length buffer <= chunkSize)%nat ->
  holds (read_onData st buffer) (received +:+ buffer).
Proof.
  intros (Hlen & Hm & Ht) Hfit. unfold read_onData.
  destruct (Nat.ltb_spec (String.length (result st))
              (marker st + String.length buffer)) as [Hlt|_]; [lia|].
  unfold holds. cbn [marker result]. unfold copy.
  rewrite Nat.sub_0_r. cbn [Js.drop].
  rewrite (Nat.min_l (String.length buffer)) by lia.
  rewrite (take_all _ buffer) by lia. rewrite Ht.
  repeat split.
  - rewrite !length_app_str, length_drop. lia.
  - rewrite length_app_str. lia.
  - rewrite Hm, <- length_app_str, <- app_assoc_str. apply take_app_exact.
Qed.

Lemma read_onEnd_holds st received : holds st received -> read_onEnd st = received.
Proof.
  intros (Hlen & Hm & Ht). unfold read_onEnd, copy.
  rewrite !Nat.sub_0_r, length_alloc, Nat.min_id. cbn [Js.drop Js.take Nat.add].
  rewrite Ht. rewrite app_nil_l_str.
  rewrite drop_all by (rewrite length_alloc; lia).
  apply app_nil_r_str.
Qed.

Lemma fold_read_onData_fits chunks : forall st received,
  holds st received ->
  (String.length received + String.length (stream_of chunks) <= chunkSize)%nat ->
  holds (fold_left read_onData chunks st) (received +:+ stream_of chunks).
Proof.
  induction chunks as [|b chunks IH]; intros st received H Hfit.
  - cbn. now rewrite app_nil_r_str.
  - cbn [fold_left stream_of fold_right] in *. fold (stream_of chunks) in *.
    rewrite length_app_str in Hfit. rewrite <- app_assoc_str.
    apply IH; [apply read_onData_fits; [exact H|lia]|].
    rewrite length_app_str. lia.
Qed.

(** As long as the whole stream fits the initial buffer of 1024 bytes,
    [readToEnd] returns the bytes received, in order. *)
Lemma readToEnd_within_first_buffer chunks :
  (String.length (stream_of chunks) <= chunkSize)%nat ->
  readToEnd (mkPeer true chunks true) = Ok (stream_of chunks).
Proof.
  intros Hfit. unfold readToEnd. cbn [ends_cleanly Connection.chunks]. f_equal.
  apply (read_onEnd_holds _ (EmptyString +:+ stream_of chunks)).
  apply fold_read_onData_fits; [|cbn [String.length Nat.add]; exact Hfit].
  unfold holds, read_init. cbn [marker result].
  split; [apply length_alloc|split; reflexivity].
Qed.

(** C3. A single chunk of 1025 bytes does not fit the buffer of 1024: the
    listener doubles the buffer and leaves the chunk out, so [readToEnd]
    returns no byte at all. With chunks of 1000, 100 and 100 bytes the
    second chunk is the one that triggers the growth and is lost: 1100 of
    the 1200 bytes are returned, the first chunk followed by the third. *)
Theorem readToEnd_drops_the_chunk_that_grows_the_buffer :
  let big := Scenario.bytes 1025 "x" in
  let a := Scenario.bytes 1000 "a" in
  let b := Scenario.bytes 100 "b" in
  let c := Scenario.bytes 100 "c" in
  String.length big = 1025%nat
  /\ readToEnd (Scenario.peer [big]) = Ok EmptyString
  /\ readToEnd (Scenario.peer [a; b; c]) = Ok (a +:+ c)
  /\ String.length (stream_of [a; b; c]) = 1200%nat
  /\ String.length (a +:+ c) = 1100%nat.
Proof. vm_compute. repeat split; reflexivity. Qed.

End DataProofs.

(** ** The facade: argument checks and error mapping *)

Module ClientProofs.
Import Exceptions Definitions Connection Commands FtpClient.

(** C10. A [rename] with an operand that is empty, [null] or [undefined]
    is rejected with an [FtpException] by the constructor of
    [RenameCommand], before the command is sent: the connection is left
    exactly as it was, so no [RNFR] or [RNTO] line was written and no
    reply was taken from the queue. *)
Theorem rename_rejects_empty_operand_before_traffic from to c :
  nil_or_empty from || nil_or_empty to = true ->
  exists e,
    rename from to c = (Throw e, c)
    /\ cls e = FtpException
    /\ written (snd (rename from to c)) = written c
    /\ responseQueue (snd (rename from to c)) = responseQueue c.
Proof.
  intros H. unfold rename, new_RenameCommand.
  destruct (nil_or_empty to) eqn:Hto.
  - eexists. repeat split; reflexivity.
  - rewrite orb_false_r in H. rewrite H. eexists. repeat split; reflexivity.
Qed.

Lemma rename_rejects_empty_operand_before_traffic_witness :
  nil_or_empty (Some "") || nil_or_empty (Some "/foo2.txt") = true
  /\ exists e,
       rename (Some "") (Some "/foo2.txt") fresh = (Throw e, fresh)
       /\ cls e = FtpException
       /\ written (snd (rename (Some "") (Some "/foo2.txt") fresh)) = written fresh
       /\ responseQueue (snd (rename (Some "") (Some "/foo2.txt") fresh))
          = responseQueue fresh.
Proof.
  split; [reflexivity|].
  apply (rename_rejects_empty_operand_before_traffic (Some "") (Some "/foo2.txt") fresh).
  reflexivity.
Defined.

Ltac unfold_monad :=
  unfold try_catch, send, bind, get, modify, not_awaited, write, getResponse,
    resolve, reject, unsettled,
    set_written, set_parser, set_responseQueue, set_features, set_dataPeers,
    set_lastIndex in *.

(** Reduces the projections of an explicit connection, and nothing of
    the texts it holds. *)
Ltac conn_simpl :=
  cbn [ready written responseBuffer commandBuffer responseQueue features
       configuration dataPeers lastIndex fst snd negb].

Lemma class_eqb_eq a b : class_eqb a b = true <-> a = b.
Proof. destruct a, b; cbn; split; (reflexivity || discriminate). Qed.

(** [getFileSize] by cases on the connection. *)
Lemma getFileSize_cases path c :
  getFileSize path c =
  if ready c then
    if SIZE (features c) then
      let c1 := set_written (written c ++ [("SIZE " +:+ path) +:+ Expressions.NEW_LINE]) c in
      match responseQueue c with
      | r :: q =>
          let c2 := set_responseQueue q c1 in
          if code r =? 550
          then (Throw (new_full FtpFileNotFoundException
                         ("File " +:+ path +:+ " not found on server") 550 (message r)), c2)
          else if negb (code r =? 213)
          then (Throw (FromResponse ("Cannot retrieve file " +:+ path +:+ " size") r), c2)
          else (Ok (Js.parseInt (message r)), c2)
      | [] => (Throw (new FtpTimeoutException "Command response timeout"), c1)
      end
    else (Throw (new FtpException "SIZE feature not avaible on FTP server"), c)
  else (Throw (new FtpNetworkException "Cannot send command when connection is closed"), c).
Proof.
  unfold getFileSize, SizeCommand. unfold_monad.
  destruct (ready c) eqn:Hr; [|reflexivity].
  destruct (SIZE (features c)) eqn:Hs; [|reflexivity].
  rewrite Hr. cbn [snd responseQueue set_written].
  destruct (responseQueue c) as [|r q]; [reflexivity|].
  destruct (code r =? 550); [reflexivity|].
  destruct (code r =? 213); reflexivity.
Qed.

(** C5. [fileExists] answers [true] when SIZE succeeds, [false] exactly
    when SIZE fails with [FtpFileNotFoundException], which is the reply
    550, and hands every other failure to the caller unchanged (a reply
    that is neither 213 nor 550 becomes an [FtpException] carrying that
    code); it never fails with [FtpFileNotFoundException] itself. *)
Theorem fileExists_error_mapping path c :
  match getFileSize path c with
  | (Ok _, c') => fileExists path c = (Ok true, c')
  | (Throw e, c') =>
      fileExists path c =
      (if instanceof e FtpFileNotFoundException then (Ok false, c') else (Throw e, c'))
  | (Unsettled, c') => fileExists path c = (Unsettled, c')
  end
  /\ (forall e c', fileExists path c = (Throw e, c') ->
                   cls e <> FtpFileNotFoundException)
  /\ (forall c', fileExists path c = (Ok false, c') <->
                 exists e, getFileSize path c = (Throw e, c')
                           /\ cls e = FtpFileNotFoundException)
  /\ (forall e c', getFileSize path c = (Throw e, c') ->
        (cls e = FtpFileNotFoundException <->
         ready c = true /\ SIZE (features c) = true
         /\ exists r q, responseQueue c = r :: q /\ code r = 550))
  /\ (forall r q,
        ready c = true -> SIZE (features c) = true -> responseQueue c = r :: q ->
        (code r = 213 -> fst (fileExists path c) = Ok true)
        /\ (code r = 550 -> fst (fileExists path c) = Ok false)
        /\ (code r <> 213 -> code r <> 550 ->
            fst (fileExists path c)
            = Throw (FromResponse ("Cannot retrieve file " +:+ path +:+ " size") r))).
Proof.
  assert (Hrel :
    match getFileSize path c with
    | (Ok _, c') => fileExists path c = (Ok true, c')
    | (Throw e, c') =>
        fileExists path c =
        (if instanceof e FtpFileNotFoundException then (Ok false, c') else (Throw e, c'))
    | (Unsettled, c') => fileExists path c = (Unsettled, c')
    end).
  { unfold fileExists, try_catch, bind, resolve, reject.
    destruct (getFileSize path c) as [[n|e|] c']; try reflexivity.
    destruct (instanceof e FtpFileNotFoundException); reflexivity. }
  split; [exact Hrel|].
  split.
  { intros e c' H. destruct (getFileSize path c) as [[n|e0|] c0]; rewrite Hrel in H;
      try discriminate.
    destruct (instanceof e0 FtpFileNotFoundException) eqn:Hi; inversion H; subst.
    intros Hc. unfold instanceof in Hi. rewrite Hc in Hi. discriminate. }
  split.
  { intros c'. destruct (getFileSize path c) as [[n|e0|] c0]; rewrite Hrel.
    - split; [discriminate|]. intros (e & He & _). discriminate.
    - destruct (instanceof e0 FtpFileNotFoundException) eqn:Hi.
      + apply class_eqb_eq in Hi. split.
        * intros H; inversion H; subst. eauto.
        * intros (e & He & _). inversion He; subst. reflexivity.
      + split; [discriminate|]. intros (e & He & Hc). inversion He; subst.
        apply class_eqb_eq in Hc. unfold instanceof in Hi. congruence.
    - split; [discriminate|]. intros (e & He & _). discriminate. }
  split.
  { intros e c'. rewrite getFileSize_cases.
    destruct (ready c); [|intros H; inversion H; subst; cbn; split;
                          [discriminate|intros (? & _); discriminate]].
    destruct (SIZE (features c)); [|intros H; inversion H; subst; cbn; split;
                          [discriminate|intros (_ & ? & _); discriminate]].
    destruct (responseQueue c) as [|r q]; cbn zeta.
    - intros H; inversion H; subst; cbn. split; [discriminate|].
      intros (_ & _ & r & q & Hq & _). discriminate.
    - destruct (code r =? 550) eqn:E5.
      + intros H; inversion H; subst; cbn. apply Z.eqb_eq in E5.
        split; [|reflexivity]. intros _. eauto 6.
      + destruct (code r =? 213); cbn [negb]; intros H; inversion H; subst; cbn.
        apply Z.eqb_neq in E5. split; [discriminate|].
        intros (_ & _ & r' & q' & Hq & Hc). inversion Hq; subst. contradiction. }
  intros r q Hr Hs Hq.
  rewrite getFileSize_cases, Hr, Hs, Hq in Hrel. cbn zeta in Hrel.
  repeat split.
  - intros H. rewrite H in Hrel. cbn in Hrel. now rewrite Hrel.
  - intros H. rewrite H in Hrel. cbn in Hrel. now rewrite Hrel.
  - intros H1 H2. apply Z.eqb_neq in H1, H2. rewrite H1, H2 in Hrel.
    cbn in Hrel. now rewrite Hrel.
Qed.

(** ** The login handshake *)

#[local] Arguments Js.toUpperCase : simpl never.
#[local] Arguments Js.includes : simpl never.

Lemma login_success_inversion u p c c' :
  FtpLoginCommand u p c = (Ok tt, c') ->
  exists g ru rp rf q,
    responseQueue c = g :: ru :: rp :: rf :: q
    /\ code g = 220 /\ code ru = 331 /\ code rp <> 530 /\ code rf = 211
    /\ features c' = scan_features (message rf)
    /\ written c' =
       written c ++ Wire.handshake_lines u p (Js.includes "UTF8" (message rf)).
Proof.
  destruct c as [rd w rb cb q f conf dp li].
  unfold FtpLoginCommand, FtpWelcomeCommand, FtpUserCommand, FtpPasswordCommand,
    FtpFeaturesCommand, FtpOptionCommand, TransferModeCommand.
  unfold_monad. cbn.
  destruct rd; [|discriminate].
  destruct q as [|g [|ru [|rp [|rf q]]]]; cbn; try discriminate.
  all: destruct (code g =? 220) eqn:Eg; cbn; try discriminate.
  all: try (destruct (code ru =? 331) eqn:Eu; cbn; try discriminate).
  all: try (destruct (code rp =? 530) eqn:Ep; cbn; try discriminate).
  destruct (code rf =? 211) eqn:Ef; cbn; try discriminate.
  apply Z.eqb_eq in Eg, Eu, Ef. apply Z.eqb_neq in Ep.
  destruct (Js.includes "UTF8" (message rf)) eqn:Eutf.
  - destruct q as [|ro [|rt q]]; cbn; try discriminate.
    + destruct (300 <=? code ro); cbn; discriminate.
    + destruct (300 <=? code ro); cbn; [discriminate|].
      destruct (code rt =? 200); cbn; [|discriminate].
      intros H; inversion H; subst; clear H. cbn.
      exists g, ru, rp, rf, (ro :: rt :: q).
      repeat split; try assumption.
      rewrite Eutf. unfold Wire.handshake_lines, Wire.line.
      rewrite <- !List.app_assoc. reflexivity.
  - destruct q as [|rt q]; cbn; try discriminate.
    destruct (code rt =? 200); cbn; [|discriminate].
    intros H; inversion H; subst; clear H. cbn.
    exists g, ru, rp, rf, (rt :: q).
    repeat split; try assumption.
    rewrite Eutf. unfold Wire.handshake_lines, Wire.line.
    rewrite <- !List.app_assoc. reflexivity.
Qed.

(** C7. The login handshake. Whenever the login succeeds, the replies it
    consumed were the greeting 220, a 331, a reply other than 530, and a
    211 whose text decided the features, and the lines written were
    exactly [USER u], [PASS p], [FEAT], then [OPTS UTF8 ON] if and only if
    that text contains [UTF8], then [TYPE I], in this order; a text with
    all seven tokens sets all seven features. A reply other than 331 to
    USER is rejected with an [FtpException] after [USER u] alone was
    written, a reply 530 to PASS with an [FtpAuthorizationException] after
    [USER u] and [PASS p]. With acceptable replies the login does
    succeed. *)
Theorem login_handshake u p c :
  (forall c',
     FtpLoginCommand u p c = (Ok tt, c') ->
     exists g ru rp rf q,
       responseQueue c = g :: ru :: rp :: rf :: q
       /\ code g = 220 /\ code ru = 331 /\ code rp <> 530 /\ code rf = 211
       /\ features c' = scan_features (message rf)
       /\ written c' =
          written c ++ Wire.handshake_lines u p (Js.includes "UTF8" (message rf))
       /\ (Forall (fun token => Js.includes token (message rf) = true)
             ["MDTM"; "SIZE"; "MLST"; "MLSD"; "UTF8"; "MFMT"; "EPSV"] ->
           features c' = Wire.all_features))
  /\ (forall g ru q,
        ready c = true -> responseQueue c = g :: ru :: q ->
        code g = 220 -> code ru <> 331 ->
        exists e,
          fst (FtpLoginCommand u p c) = Throw e /\ cls e = FtpException
          /\ written (snd (FtpLoginCommand u p c))
             = written c ++ [Wire.line ("USER " +:+ u)])
  /\ (forall g ru rp q,
        ready c = true -> responseQueue c = g :: ru :: rp :: q ->
        code g = 220 -> code ru = 331 -> code rp = 530 ->
        exists e,
          fst (FtpLoginCommand u p c) = Throw e
          /\ cls e = FtpAuthorizationException
          /\ written (snd (FtpLoginCommand u p c))
             = written c ++ [Wire.line ("USER " +:+ u); Wire.line ("PASS " +:+ p)])
  /\ (forall g ru rp rf q,
        ready c = true -> responseQueue c = g :: ru :: rp :: rf :: q ->
        code g = 220 -> code ru = 331 -> code rp <> 530 -> code rf = 211 ->
        match Js.includes "UTF8" (message rf), q with
        | true, ro :: rt :: _ =>
            code ro < 300 -> code rt = 200 -> fst (FtpLoginCommand u p c) = Ok tt
        | false, rt :: _ =>
            code rt = 200 -> fst (FtpLoginCommand u p c) = Ok tt
        | _, _ => True
        end).
Proof.
  split.
  { intros c' H. destruct (login_success_inversion u p c c' H)
      as (g & ru & rp & rf & q & Hq & Hg & Hu & Hp & Hf & Hfeat & Hw).
    exists g, ru, rp, rf, q. repeat (split; [assumption|]).
    intros Hall. rewrite Hfeat. unfold scan_features, Wire.all_features.
    repeat match goal with
           | H : Forall _ (_ :: _) |- _ => inversion H as [|? ? ?Hi ?Ht]; subst; clear H
           end.
    repeat match goal with Hi : Js.includes _ _ = true |- _ => rewrite Hi; clear Hi end.
    reflexivity. }
  destruct c as [rd w rb cb q0 f conf dp li].
  unfold FtpLoginCommand, FtpWelcomeCommand, FtpUserCommand, FtpPasswordCommand,
    FtpFeaturesCommand, FtpOptionCommand, TransferModeCommand.
  unfold_monad. cbn.
  split; [|split].
  - intros g ru q -> -> Hg Hu. apply Z.eqb_eq in Hg. apply Z.eqb_neq in Hu.
    cbn. rewrite Hg. cbn. rewrite Hu. cbn. eexists. repeat split; reflexivity.
  - intros g ru rp q -> -> Hg Hu Hp. apply Z.eqb_eq in Hg, Hu, Hp.
    cbn. rewrite Hg. cbn. rewrite Hu. cbn. rewrite Hp. cbn.
    eexists. repeat split. now rewrite <- List.app_assoc.
  - intros g ru rp rf q -> -> Hg Hu Hp Hf.
    apply Z.eqb_eq in Hg, Hu, Hf. apply Z.eqb_neq in Hp.
    destruct (Js.includes "UTF8" (message rf)) eqn:Eutf.
    + destruct q as [|ro [|rt q]]; [exact I..|]. intros Ho Ht.
      apply Z.eqb_eq in Ht. assert (Ho' : (300 <=? code ro) = false) by (apply Z.leb_gt; lia).
      cbn. rewrite Hg. cbn. rewrite Hu. cbn. rewrite Hp. cbn. rewrite Hf. cbn.
      rewrite Eutf. cbn. rewrite Ho'. cbn. rewrite Ht. reflexivity.
    + destruct q as [|rt q]; [exact I|]. intros Ht. apply Z.eqb_eq in Ht.
      cbn. rewrite Hg. cbn. rewrite Hu. cbn. rewrite Hp. cbn. rewrite Hf. cbn.
      rewrite Eutf. cbn. rewrite Ht. reflexivity.
Qed.


Lemma login_handshake_witness :
  let c0 := Scenario.received (Scenario.greeting :: Scenario.login_replies) in
  let c1 := snd (FtpLoginCommand "anonymous" "anonymous" c0) in
  FtpLoginCommand "anonymous" "anonymous" c0 = (Ok tt, c1)
  /\ written c1 =
       [Wire.line "USER anonymous"; Wire.line "PASS anonymous"; Wire.line "FEAT";
        Wire.line "OPTS UTF8 ON"; Wire.line "TYPE I"]
  /\ features c1 = Wire.all_features.
Proof.
  intros c0 c1.
  assert (E : FtpLoginCommand "anonymous" "anonymous" c0 = (Ok tt, c1))
    by (vm_compute; reflexivity).
  destruct (proj1 (login_handshake "anonymous" "anonymous" c0) c1 E)
    as (g & ru & rp & rf & q & Hq & _ & _ & _ & _ & _ & Hw & Hall).
  vm_compute in Hq. inversion Hq; subst g ru rp rf q; clear Hq.
  split; [exact E|]. split.
  - rewrite Hw. vm_compute. reflexivity.
  - apply Hall. repeat constructor.
Defined.

(** ** Probing a directory *)

(** *** Text that goes back to the server *)

Lemma utf8_encode_app a b :
  Js.utf8_encode (a +:+ b) = Js.utf8_encode a +:+ Js.utf8_encode b.
Proof.
  induction a as [|x a IH]; [now rewrite !ParserProofs.app_nil_l_str|].
  rewrite ParserProofs.app_cons_str. cbn [Js.utf8_encode].
  destruct (Js.code x <? 128)%nat;
    now rewrite IH, ?ParserProofs.app_cons_str.
Qed.

Lemma length_utf8_encode s :
  (String.length s <= String.length (Js.utf8_encode s))%nat
  /\ (Text.plain s = false -> (String.length s < String.length (Js.utf8_encode s))%nat).
Proof.
  unfold Text.plain. induction s as [|x s [IH1 IH2]]; [cbn; split; [lia|discriminate]|].
  cbn [Js.utf8_encode Text.all_chars].
  destruct (Js.code x <? 128)%nat; cbn [String.length andb].
  - split; [lia|]. intros H. specialize (IH2 H). lia.
  - split; [lia|]. intros _. lia.
Qed.

(** Encoding leaves a text as it is exactly when the text is ASCII. *)
Lemma utf8_encode_plain s : Js.utf8_encode s = s <-> Text.plain s = true.
Proof.
  split.
  - intros E. destruct (Text.plain s) eqn:P; [reflexivity|].
    pose proof (proj2 (length_utf8_encode s) P) as H. rewrite E in H. lia.
  - unfold Text.plain. induction s as [|x s IH]; [reflexivity|].
    cbn [Js.utf8_encode Text.all_chars]. intros H. apply andb_prop in H as [Hx Hs].
    rewrite Hx. now rewrite IH.
Qed.

Lemma plain_app a b : Text.plain (a +:+ b) = Text.plain a && Text.plain b.
Proof.
  unfold Text.plain. induction a as [|x a IH]; [now rewrite ParserProofs.app_nil_l_str|].
  rewrite ParserProofs.app_cons_str. cbn [Text.all_chars]. now rewrite IH, andb_assoc.
Qed.

(** C6 (amended). Whenever the PWD reply yields a directory and the probe
    [CWD] is answered, with whatever code, [directoryExists] calls [write]
    with [PWD], with [CWD] to the probed path and then with [CWD] to the
    directory that PWD reported, in this order; once that last command is
    answered too it returns the answer of the probe, [true] for a code
    below 300 and [false] otherwise, without looking at the code of the
    last reply. On the socket each command goes out in UTF-8, while the
    directory was read from the reply one character for each byte: the
    restoring command carries the bytes that PWD reported exactly when
    the directory is ASCII. *)
Theorem directoryExists_sends_restore path c r1 r2 q dir :
  ready c = true ->
  responseQueue c = r1 :: r2 :: q ->
  code r1 < 300 ->
  Wire.pwd_directory r1 = Some dir ->
  written (snd (directoryExists path c)) =
    written c ++ [Wire.line "PWD";
                  Wire.line ("CWD " +:+ Wire.probed_path dir path);
                  Wire.line ("CWD " +:+ dir)]
  /\ sent (snd (directoryExists path c)) =
       sent c ++ [Wire.line "PWD";
                  Js.utf8_encode (Wire.line ("CWD " +:+ Wire.probed_path dir path));
                  Js.utf8_encode (Wire.line ("CWD " +:+ dir))]
  /\ (Js.utf8_encode (Wire.line ("CWD " +:+ dir)) = Wire.line ("CWD " +:+ dir)
      <-> Text.plain dir = true)
  /\ match q with
     | r3 :: q' =>
         fst (directoryExists path c) = Ok (negb (300 <=? code r2))
         /\ responseQueue (snd (directoryExists path c)) = q'
     | [] =>
         fst (directoryExists path c)
         = Throw (new FtpTimeoutException "Command response timeout")
     end.
Proof.
  intros Hr Hq H1 Hd.
  assert (Hw : written (snd (directoryExists path c)) =
                 written c ++ [Wire.line "PWD";
                               Wire.line ("CWD " +:+ Wire.probed_path dir path);
                               Wire.line ("CWD " +:+ dir)]
               /\ match q with
                  | r3 :: q' =>
                      fst (directoryExists path c) = Ok (negb (300 <=? code r2))
                      /\ responseQueue (snd (directoryExists path c)) = q'
                  | [] =>
                      fst (directoryExists path c)
                      = Throw (new FtpTimeoutException "Command response timeout")
                  end).
  { destruct c as [rd w rb cb q0 f conf dp li]. cbn [ready responseQueue written] in *.
    subst rd q0. unfold Wire.pwd_directory in Hd.
    assert (H1' : (300 <=? code r1) = false) by (apply Z.leb_gt; lia).
    destruct (Regex.exec false Expressions.RE_PWD (message r1)) as [m|] eqn:Em;
      [|discriminate].
    destruct (truthy (Regex.group m 1)) eqn:Et; [|discriminate].
    unfold directoryExists, getCurrentDirectory, setCurrentDirectory, PwdCommand, CwdCommand.
    unfold_monad. conn_simpl.
    rewrite H1'. conn_simpl. rewrite Em. conn_simpl. rewrite Et, Hd.
    cbn [str_of_null]. unfold Wire.probed_path, Wire.line.
    destruct (Path.isAbsolute path); conn_simpl;
      (destruct (300 <=? code r2); conn_simpl;
       (destruct q as [|r3 q']; conn_simpl;
        [|destruct (300 <=? code r3); conn_simpl]));
      rewrite <- ?List.app_assoc; repeat split; reflexivity. }
  destruct Hw as [Hw Hres].
  split; [exact Hw|]. split; [|split; [|exact Hres]].
  - unfold sent. rewrite Hw, List.map_app. reflexivity.
  - rewrite utf8_encode_plain. unfold Wire.line.
    rewrite !plain_app. change (Text.plain "CWD ") with true.
    change (Text.plain Expressions.NEW_LINE) with true.
    now rewrite andb_true_r.
Qed.

Lemma directoryExists_sends_restore_witness :
  let r1 := mkResponse 257 (Wire.line (Wire.quoted "/" +:+ " is current directory.")) in
  let r2 := mkResponse 250
              (Wire.line ("CWD successful. " +:+ Wire.quoted "/foo" +:+ " is current directory.")) in
  let r3 := mkResponse 250
              (Wire.line ("CWD successful. " +:+ Wire.quoted "/" +:+ " is current directory.")) in
  let c := Scenario.logged_in
             [Wire.line ("257 " +:+ Wire.quoted "/" +:+ " is current directory.");
              Wire.line ("250 CWD successful. " +:+ Wire.quoted "/foo" +:+ " is current directory.");
              Wire.line ("250 CWD successful. " +:+ Wire.quoted "/" +:+ " is current directory.")] in
  ready c = true
  /\ responseQueue c = [r1; r2; r3]
  /\ code r1 < 300
  /\ Wire.pwd_directory r1 = Some "/"
  /\ written (snd (directoryExists "/foo" c)) =
       written c ++ [Wire.line "PWD";
                     Wire.line ("CWD " +:+ Wire.probed_path "/" "/foo");
                     Wire.line ("CWD " +:+ "/")]
  /\ sent (snd (directoryExists "/foo" c)) =
       sent c ++ [Wire.line "PWD";
                  Js.utf8_encode (Wire.line ("CWD " +:+ Wire.probed_path "/" "/foo"));
                  Js.utf8_encode (Wire.line ("CWD " +:+ "/"))]
  /\ (Js.utf8_encode (Wire.line ("CWD " +:+ "/")) = Wire.line ("CWD " +:+ "/")
      <-> Text.plain "/" = true)
  /\ fst (directoryExists "/foo" c) = Ok (negb (300 <=? code r2))
  /\ responseQueue (snd (directoryExists "/foo" c)) = [].
Proof.
  intros r1 r2 r3 c.
  assert (Hr : ready c = true) by (vm_compute; reflexivity).
  assert (Hq : responseQueue c = [r1; r2; r3]) by (vm_compute; reflexivity).
  assert (H1 : code r1 < 300) by reflexivity.
  assert (Hd : Wire.pwd_directory r1 = Some "/") by (vm_compute; reflexivity).
  repeat (split; [assumption|]).
  exact (directoryExists_sends_restore "/foo" c r1 r2 [r3] "/" Hr Hq H1 Hd).
Defined.

(** C6, counterexample. The server answers PWD and then stays silent: the
    probe [CWD /foo] runs into the timeout, [directoryExists] fails with
    it, and the last line written is the probe; no [CWD /] follows to
    restore the directory. *)
Lemma directoryExists_no_restore_after_failed_probe :
  let c := Scenario.logged_in
             [Wire.line ("257 " +:+ Wire.quoted "/" +:+ " is current directory.")] in
  fst (directoryExists "/foo" c)
    = Throw (new FtpTimeoutException "Command response timeout")
  /\ written (snd (directoryExists "/foo" c))
     = [Wire.line "PWD"; Wire.line "CWD /foo"]
  /\ ~ In (Wire.line "CWD /") (written (snd (directoryExists "/foo" c))).
Proof.
  vm_compute. repeat split; try reflexivity.
  intros [H|[H|[]]]; discriminate.
Qed.


(** ** Modification times *)

Lemma time_of_2018_07_08 :
  JsDate.MakeDate (JsDate.MakeDay 2018 6 8) (JsDate.MakeTime 23 38 54 0)
  = 1531093134000.
Proof. reflexivity. Qed.

(** In a zone within a day of UTC the adjustment of the command undoes
    the local reading of the fields: the result is the instant that the
    fields denote when read in UTC. *)
Lemma local_fields_read_as_utc tz day time :
  -1440 <= tz <= 1440 ->
  Z.abs (JsDate.MakeDate day time) <= 8000000000000000 ->
  JsDate.minus_timezone_offset tz
    (JsDate.TimeClip (JsDate.MakeDate day time - tz * 60000))
  = Some (JsDate.MakeDate day time).
Proof.
  intros Htz HX. set (X := JsDate.MakeDate day time) in *.
  unfold JsDate.minus_timezone_offset, JsDate.TimeClip.
  destruct (Z.leb_spec (Z.abs (X - tz * 60000)) 8640000000000000) as [_|Hgt];
    [|lia].
  cbn [mbind option_bind JsDate.getTimezoneOffset JsDate.of_time].
  unfold JsDate.TimeClip.
  replace (X - tz * 60000 - - tz * 60 * 1000) with X by lia.
  destruct (Z.leb_spec (Z.abs X) 8640000000000000) as [_|Hgt]; [reflexivity|lia].
Qed.

(** C4. On the reply [213 20180608233854] the client returns, in every
    time zone, the UTC instant 2018-07-08 23:38:54, thirty days after the
    instant 2018-06-08 23:38:54 that the reply denotes: the month field
    is handed to [new Date] as it is, where months count from 0. *)
Theorem getLastModificationTime_shifts_month tz :
  -1440 <= tz <= 1440 ->
  let c := Scenario.logged_in [Wire.line "213 20180608233854"] in
  fst (getLastModificationTime tz "/foo.txt" c)
    = Ok (Some (Calendar.utc 2018 7 8 23 38 54))
  /\ written (snd (getLastModificationTime tz "/foo.txt" c))
     = [Wire.line "MDTM /foo.txt"]
  /\ Calendar.utc 2018 7 8 23 38 54
     = Calendar.utc 2018 6 8 23 38 54 + 30 * 86400000.
Proof.
  intros Htz c. split; [|split; [|reflexivity]].
  - transitivity
      (Ok (JsDate.minus_timezone_offset tz
             (JsDate.new_Date tz (Some 2018) (Some 6) (Some 8)
                (Some 23) (Some 38) (Some 54)))).
    + unfold getLastModificationTime, LastModifiedTimeCommand.
      generalize (JsDate.new_Date tz). generalize (JsDate.minus_timezone_offset tz).
      intros G N. vm_compute. reflexivity.
    + f_equal. unfold JsDate.new_Date.
      replace ((0 <=? 2018) && (2018 <=? 99)) with false by reflexivity.
      rewrite local_fields_read_as_utc; [reflexivity|exact Htz|].
      rewrite time_of_2018_07_08. lia.
  - unfold getLastModificationTime, LastModifiedTimeCommand.
    generalize (JsDate.new_Date tz). generalize (JsDate.minus_timezone_offset tz).
    intros G N. vm_compute. reflexivity.
Qed.

Lemma getLastModificationTime_shifts_month_witness :
  -1440 <= 120 <= 1440
  /\ let c := Scenario.logged_in [Wire.line "213 20180608233854"] in
     fst (getLastModificationTime 120 "/foo.txt" c)
       = Ok (Some (Calendar.utc 2018 7 8 23 38 54))
     /\ written (snd (getLastModificationTime 120 "/foo.txt" c))
        = [Wire.line "MDTM /foo.txt"]
     /\ Calendar.utc 2018 7 8 23 38 54
        = Calendar.utc 2018 6 8 23 38 54 + 30 * 86400000.
Proof.
  assert (H : -1440 <= 120 <= 1440) by lia.
  split; [exact H|]. exact (getLastModificationTime_shifts_month 120 H).
Defined.

(** The expression [RE_LAST_MOD_TIME] carries the [g] flag and is shared
    by all calls: after a match its [lastIndex] stands at the end of the
    text, so the next call finds nothing and fails on [m[1]]. *)
Lemma getLastModificationTime_second_call_fails :
  let c := Scenario.logged_in
             [Wire.line "213 20180608233854"; Wire.line "213 20180608233854"] in
  let c1 := snd (getLastModificationTime 0 "/foo.txt" c) in
  lastIndex c = 0%nat
  /\ lastIndex c1 = 14%nat
  /\ fst (getLastModificationTime 0 "/foo.txt" c1)
     = Throw (new TypeError "Cannot read property '1' of null").
Proof. vm_compute. repeat split; reflexivity. Qed.

(** ** Creating directories *)

Lemma send_CwdCommand path c :
  ready c = true ->
  send (CwdCommand path) c =
  let c1 := set_written (written c ++ [Wire.line ("CWD " +:+ path)]) c in
  match responseQueue c with
  | [] => (Throw (new FtpTimeoutException "Command response timeout"), c1)
  | r :: q => (Ok (negb (300 <=? code r)), set_responseQueue q c1)
  end.
Proof.
  intros Hr. unfold CwdCommand. unfold_monad. rewrite Hr.
  destruct c as [rd w rb cb q f conf dp li]. conn_simpl.
  destruct q as [|r q]; [reflexivity|]. conn_simpl.
  destruct (300 <=? code r); reflexivity.
Qed.

Lemma MkDirCommand_while_S fuel path cwdDir dirs traverse :
  MkDirCommand_while (S fuel) path cwdDir dirs traverse =
  let traverse := traverse +:+ "/" +:+ Js.str_of_undefined (head dirs) in
  let dirs := tail dirs in
  exists_ <- send (CwdCommand (cwdDir +:+ traverse)) ;;
  if negb exists_
  then
    write ("MKD " +:+ Js.str_of_undefined (Js.pop (Js.split_char "/" traverse))) ;;
    checkResponse ;;
    send (CwdCommand (cwdDir +:+ traverse)) ;;
    let nextPath := Js.substr_from (String.length traverse) path in
    if negb (Js.is_empty nextPath)
    then send (MkDirCommand_execute fuel nextPath true (cwdDir +:+ traverse))
    else resolve tt
  else MkDirCommand_while fuel path cwdDir dirs traverse.
Proof. reflexivity. Qed.

Lemma MkDirCommand_execute_S fuel path cwdDir :
  MkDirCommand_execute (S fuel) path true cwdDir =
  ((if Js.is_empty cwdDir then send (CwdCommand "/") ;; resolve tt else resolve tt) ;;
   MkDirCommand_while fuel path cwdDir
     (List.filter (fun d => negb (Js.is_empty (Js.trim d))) (Js.split_char "/" path))
     EmptyString).
Proof. reflexivity. Qed.

(** While the server accepts every [CWD], the loop of the recursive
    [MkDirCommand] goes on probing: it ends only when no reply arrives
    any more, with the timeout. *)
Lemma MkDirCommand_while_accepting fuel :
  forall path cwdDir dirs traverse c,
    ready c = true ->
    Forall (fun r => code r < 300) (responseQueue c) ->
    (List.length (responseQueue c) < fuel)%nat ->
    fst (MkDirCommand_while fuel path cwdDir dirs traverse c)
    = Throw (new FtpTimeoutException "Command response timeout").
Proof.
  induction fuel as [|fuel IH]; intros path cwdDir dirs traverse c Hr Hall Hlen; [lia|].
  rewrite MkDirCommand_while_S. cbn zeta. unfold bind at 1.
  rewrite send_CwdCommand by exact Hr. cbn zeta.
  destruct (responseQueue c) as [|r q] eqn:Hq; [reflexivity|].
  inversion Hall as [|? ? Hlt Hall']; subst.
  replace (300 <=? code r) with false by (symmetry; apply Z.leb_gt; lia).
  cbn [negb]. apply IH.
  - destruct c; exact Hr.
  - destruct c; exact Hall'.
  - destruct c; cbn in *. lia.
Qed.

Lemma createDir_accepting path c :
  Js.is_empty path = false ->
  ready c = true ->
  Forall (fun r => code r < 300) (responseQueue c) ->
  fst (createDir path true c)
  = Throw (new FtpTimeoutException "Command response timeout").
Proof.
  intros Hp Hr Hall. unfold createDir. rewrite Hp. unfold send at 1. rewrite Hr.
  unfold MkDirCommand. cbn [Nat.mul Nat.add]. rewrite MkDirCommand_execute_S.
  cbn [Js.is_empty].
  unfold bind at 1. unfold bind at 1. rewrite send_CwdCommand by exact Hr. cbn zeta.
  destruct (responseQueue c) as [|r q] eqn:Hq; [reflexivity|].
  unfold resolve at 1. cbn [negb].
  apply MkDirCommand_while_accepting.
  - destruct c; exact Hr.
  - inversion Hall; subst. destruct c; assumption.
  - destruct c; cbn in *. lia.
Qed.

(** C8. The path [/a] exists on the server: [CWD /] and [CWD /a] are
    accepted. The loop has no exit for a list of segments that has run
    out: it goes on to probe [/a/undefined], which the server refuses, and
    then creates a directory named [undefined] and enters it. *)
Theorem createDir_existing_path_issues_MKD :
  let c := set_responseQueue
             [Scenario.ok; Scenario.ok; Scenario.no; Scenario.created; Scenario.ok]
             fresh in
  fst (createDir "/a" true c) = Ok tt
  /\ written (snd (createDir "/a" true c))
     = [Wire.line "CWD /"; Wire.line "CWD /a"; Wire.line "CWD /a/undefined";
        Wire.line "MKD undefined"; Wire.line "CWD /a/undefined"]
  /\ responseQueue (snd (createDir "/a" true c)) = [].
Proof. vm_compute. repeat split; reflexivity. Qed.

(** The dialogue of the recursive make-directory for [/a/b/c] when only
    [/a] exists. *)
Example createDir_a_b_c :
  let c := set_responseQueue
             [Scenario.ok; Scenario.ok; Scenario.no; Scenario.created; Scenario.ok;
              Scenario.no; Scenario.created; Scenario.ok]
             fresh in
  fst (createDir "/a/b/c" true c) = Ok tt
  /\ written (snd (createDir "/a/b/c" true c))
     = [Wire.line "CWD /"; Wire.line "CWD /a"; Wire.line "CWD /a/b";
        Wire.line "MKD b"; Wire.line "CWD /a/b"; Wire.line "CWD /a/b/c";
        Wire.line "MKD c"; Wire.line "CWD /a/b/c"].
Proof. vm_compute. repeat split; reflexivity. Qed.

(** ** Deleting directories *)

(** When the listing of [path] shows no directory, the recursive
    [deleteDirectory] is the listing and nothing else. *)
Lemma deleteDirectory_recursive_without_subdirectories path c c' :
  getDirectories (Some path) c = (Ok [], c') ->
  deleteDirectory (Some path) true c = (Ok tt, c').
Proof.
  intros H. unfold deleteDirectory. cbn [negb]. unfold bind at 1. rewrite H.
  unfold bind, get. reflexivity.
Qed.

(** C9. Two runs of [deleteDirectory("foo", true)] on a server with the
    MLSD feature. In the first the directory holds one file: the client
    lists it and returns successfully, having written [EPSV] and
    [MLSD foo] only. In the second it holds a file and the directory
    [steamapps]: the client removes [foo/steamapps] through the
    non-recursive command, which issues [CDUP] and [RMD foo/steamapps],
    and returns successfully. In neither run is [RMD foo] written. *)
Theorem deleteDirectory_recursive_keeps_target :
  let c1 := set_dataPeers [Scenario.peer [Scenario.only_a_file]]
              (Scenario.logged_in [Scenario.epsv; Scenario.opening; Scenario.complete]) in
  let c2 := set_dataPeers
              [Scenario.peer [Scenario.file_and_dir]; Scenario.peer [];
               Scenario.peer [Scenario.only_a_file]]
              (Scenario.logged_in
                 [Scenario.epsv; Scenario.opening;
                  Scenario.epsv; Scenario.opening;
                  Wire.line ("257 " +:+ Wire.quoted "/" +:+ " is current directory.");
                  Wire.line "250 CWD successful";
                  Scenario.epsv; Scenario.opening;
                  Wire.line "250 File deleted";
                  Wire.line "200 CDUP successful";
                  Wire.line "250 Directory removed";
                  Wire.line "250 CWD successful"]) in
  (fst (deleteDirectory (Some "foo") true c1) = Ok tt
   /\ written (snd (deleteDirectory (Some "foo") true c1))
      = [Wire.line "EPSV"; Wire.line "MLSD foo"])
  /\ (fst (deleteDirectory (Some "foo") true c2) = Ok tt
      /\ written (snd (deleteDirectory (Some "foo") true c2))
         = [Wire.line "EPSV"; Wire.line "MLSD foo";
            Wire.line "EPSV"; Wire.line "MLSD foo/steamapps";
            Wire.line "PWD"; Wire.line "CWD foo/steamapps";
            Wire.line "EPSV"; Wire.line "MLSD ";
            Wire.line "DELE steam.dll"; Wire.line "CDUP";
            Wire.line "RMD foo/steamapps"; Wire.line "CWD /"]
      /\ ~ In (Wire.line "RMD foo")
             (written (snd (deleteDirectory (Some "foo") true c2)))).
Proof.
  vm_compute. repeat split; try reflexivity.
  intros H. repeat (destruct H as [H|H]; [discriminate|]). exact H.
Qed.

(** The non-recursive branch on the same directory: it ends with [CDUP],
    [RMD foo] and the return to the saved directory. *)
Example deleteDirectory_not_recursive :
  let c := set_dataPeers [Scenario.peer [Scenario.only_a_file]]
             (Scenario.logged_in
                [Wire.line ("257 " +:+ Wire.quoted "/" +:+ " is current directory.");
                 Wire.line "250 CWD successful";
                 Scenario.epsv; Scenario.opening;
                 Wire.line "250 File deleted";
                 Wire.line "200 CDUP successful";
                 Wire.line "250 Directory removed";
                 Wire.line "250 CWD successful"]) in
  fst (deleteDirectory (Some "foo") false c) = Ok tt
  /\ written (snd (deleteDirectory (Some "foo") false c))
     = [Wire.line "PWD"; Wire.line "CWD foo"; Wire.line "EPSV"; Wire.line "MLSD ";
        Wire.line "DELE steam.dll"; Wire.line "CDUP"; Wire.line "RMD foo";
        Wire.line "CWD /"].
Proof. vm_compute. repeat split; reflexivity. Qed.

(** ** The loops of the model settle *)

Import Progress.

Lemma consumes_weaken {A} (m : Promise A) d d' c :
  consumes m d c -> (d' <= d)%nat -> consumes m d' c.
Proof.
  unfold consumes. destruct (m c) as [[a|e|] c']; intros H Hd; [lia|exact H|exact H].
Qed.

Lemma consumes_bind {A B} (m : Promise A) (k : A -> Promise B) d1 d2 c :
  consumes m d1 c ->
  (forall a c', m c = (Ok a, c') -> consumes (k a) d2 c') ->
  consumes (bind m k) (d1 + d2) c.
Proof.
  unfold consumes at 1 3, bind. intros Hm Hk.
  destruct (m c) as [[a|e|] c'] eqn:E; [|exact Hm|exact Hm].
  specialize (Hk a c' eq_refl). unfold consumes in Hk.
  destruct (k a c') as [[b|e|] c'']; [lia|lia|exact Hk].
Qed.

Lemma consumes_bind0 {A B} (m : Promise A) (k : A -> Promise B) d c :
  consumes m d c ->
  (forall a c', m c = (Ok a, c') -> consumes (k a) 0 c') ->
  consumes (bind m k) d c.
Proof.
  intros Hm Hk. apply (consumes_weaken _ (d + 0)); [|lia].
  now apply consumes_bind.
Qed.

Lemma consumes_resolve {A} (a : A) c : consumes (resolve a) 0 c.
Proof. unfold consumes, resolve. lia. Qed.

Lemma consumes_reject {A} e d c : consumes (@reject A e) d c.
Proof. unfold consumes, reject. lia. Qed.

Lemma consumes_get {A} (f : FtpCommandConnection -> A) c : consumes (get f) 0 c.
Proof. unfold consumes, get. lia. Qed.

Lemma consumes_write data c : consumes (write data) 0 c.
Proof.
  unfold consumes, write. destruct (ready c); [|lia].
  destruct c; unfold pending; cbn. lia.
Qed.

Lemma consumes_getResponse c : consumes getResponse 1 c.
Proof.
  unfold consumes, getResponse. destruct (responseQueue c) as [|r q] eqn:E; [lia|].
  destruct c; unfold pending; cbn in *. subst. cbn. lia.
Qed.

Lemma consumes_send {A} (m : Promise A) d c : consumes m d c -> consumes (send m) d c.
Proof. unfold send, consumes. destruct (ready c); [auto|]. lia. Qed.

Lemma consumes_not_awaited {A} (m : Promise A) c :
  consumes m 0 c -> consumes (not_awaited m) 0 c.
Proof.
  unfold consumes, not_awaited. destruct (m c) as [[a|e|] c']; cbn [snd]; [lia|lia|tauto].
Qed.

Lemma consumes_for_each {A} (body : A -> Promise unit) l : forall c,
  (forall x c', (pending c' <= pending c)%nat -> consumes (body x) 0 c') ->
  consumes (for_each l body) 0 c.
Proof.
  induction l as [|x l IH]; intros c H; cbn [for_each]; [apply consumes_resolve|].
  apply (consumes_bind0 _ _ 0); [apply H; lia|].
  intros [] c' E. apply IH. intros y c'' Hle. apply H.
  specialize (H x c (Nat.le_refl _)). unfold consumes in H. rewrite E in H. lia.
Qed.

(** What is left in the queue after a promise resolved. *)
Lemma consumes_pending {A} (m : Promise A) d c a c' :
  consumes m d c -> m c = (Ok a, c') -> (pending c' + d <= pending c)%nat.
Proof. unfold consumes. intros H E. now rewrite E in H. Qed.

Lemma consumes_CwdCommand path c : consumes (send (CwdCommand path)) 1 c.
Proof.
  apply consumes_send. unfold CwdCommand.
  apply (consumes_bind _ _ 0 1); [apply consumes_write|]. intros _ c1 _.
  apply (consumes_bind0 _ _ 1); [apply consumes_getResponse|]. intros r c2 _.
  destruct (300 <=? code r); apply consumes_resolve.
Qed.

Lemma consumes_checkResponse c : consumes checkResponse 1 c.
Proof.
  unfold checkResponse.
  apply (consumes_bind0 _ _ 1); [apply consumes_getResponse|]. intros r c2 _.
  destruct (code r =? 257); [apply consumes_resolve|apply consumes_reject].
Qed.

(** With two rounds more than replies pending, [MkDirCommand.execute]
    settles, and its loop settles with one round more than replies
    pending. *)
Lemma MkDirCommand_settles fuel :
  (forall path recursive cwdDir c,
     (pending c + 2 <= fuel)%nat ->
     consumes (MkDirCommand_execute fuel path recursive cwdDir) 0 c)
  /\ (forall path cwdDir dirs traverse c,
        (pending c + 1 <= fuel)%nat ->
        consumes (MkDirCommand_while fuel path cwdDir dirs traverse) 1 c).
Proof.
  induction fuel as [|fuel [IHe IHw]]; [split; intros; lia|]. split.
  - intros path recursive cwdDir c Hf. cbn [MkDirCommand_execute].
    apply (consumes_bind0 _ _ 0).
    { destruct (Js.is_empty cwdDir); [|apply consumes_resolve].
      apply (consumes_bind0 _ _ 0);
        [apply (consumes_weaken _ 1); [apply consumes_CwdCommand|lia]|].
      intros; apply consumes_resolve. }
    intros [] c1 E1.
    assert (H1 : (pending c1 <= pending c)%nat).
    { destruct (Js.is_empty cwdDir).
      - unfold bind in E1.
        pose proof (consumes_CwdCommand "/" c) as Hc. unfold consumes in Hc.
        destruct (send (CwdCommand "/") c) as [[b|e|] c0]; inversion E1; subst. lia.
      - inversion E1; subst. lia. }
    destruct recursive; cbn [negb].
    + apply (consumes_weaken _ 1); [apply IHw; lia|lia].
    + apply (consumes_bind0 _ _ 0);
        [apply (consumes_weaken _ 1); [apply consumes_CwdCommand|lia]|].
      intros _ c2 _. apply (consumes_bind0 _ _ 0); [apply consumes_write|].
      intros _ c3 _. apply (consumes_bind0 _ _ 0);
        [apply (consumes_weaken _ 1); [apply consumes_checkResponse|lia]|].
      intros; apply consumes_resolve.
  - intros path cwdDir dirs traverse c Hf. rewrite MkDirCommand_while_S. cbn zeta.
    apply (consumes_bind0 _ _ 1); [apply consumes_CwdCommand|].
    intros exists_ c1 E1.
    pose proof (consumes_pending _ _ _ _ _ (consumes_CwdCommand _ c) E1) as H1.
    destruct exists_; cbn [negb].
    + apply (consumes_weaken _ 1); [apply IHw; lia|lia].
    + apply (consumes_bind0 _ _ 0); [apply consumes_write|]. intros n c2 E2.
      pose proof (consumes_pending _ _ _ _ _ (consumes_write _ c1) E2) as H2.
      apply (consumes_bind0 _ _ 0);
        [apply (consumes_weaken _ 1); [apply consumes_checkResponse|lia]|].
      intros b c3 E3.
      pose proof (consumes_pending _ _ _ _ _ (consumes_checkResponse c2) E3) as H3.
      apply (consumes_bind0 _ _ 0);
        [apply (consumes_weaken _ 1); [apply consumes_CwdCommand|lia]|].
      intros b' c4 E4.
      pose proof (consumes_pending _ _ _ _ _ (consumes_CwdCommand _ c3) E4) as H4.
      destruct (negb (Js.is_empty _)); [|apply consumes_resolve].
      apply consumes_send. apply IHe. lia.
Qed.

(** [MkDirCommand] never runs out of rounds: it resolves or rejects. *)
Lemma MkDirCommand_never_unsettled path recursive c :
  fst (MkDirCommand path recursive c) <> Unsettled.
Proof.
  pose proof (proj1 (MkDirCommand_settles (2 * S (List.length (responseQueue c))))
                path recursive EmptyString c) as H.
  unfold MkDirCommand. unfold consumes, pending in H.
  destruct (MkDirCommand_execute _ path recursive EmptyString c) as [[a|e|] c'];
    cbn [fst]; [discriminate|discriminate|].
  intros _. apply H. lia.
Qed.

Lemma consumes_FtpPassiveModeCommand c : consumes (send FtpPassiveModeCommand) 1 c.
Proof.
  apply consumes_send. unfold FtpPassiveModeCommand.
  apply (consumes_bind _ _ 0 1); [apply consumes_write|]. intros _ c1 _.
  apply (consumes_bind0 _ _ 1); [apply consumes_getResponse|]. intros r c2 _.
  destruct (Regex.exec false Expressions.RE_EPSV (message r)); [|apply consumes_reject].
  apply (consumes_bind0 _ _ 0); [apply consumes_get|]. intros h c3 _.
  unfold open_data_connection.
  destruct (Js.is_empty h); [apply consumes_reject|].
  destruct (Js.parseInt _) as [p|]; [|apply consumes_reject].
  destruct (p <=? 0); [apply consumes_reject|].
  destruct (65535 <? p); [apply consumes_reject|].
  unfold consumes. destruct (dataPeers c3) as [|peer peers]; [lia|].
  destruct (accepts peer); destruct c3; unfold pending; cbn; lia.
Qed.

Lemma consumes_FtpListCommand path c : consumes (send (FtpListCommand path)) 2 c.
Proof.
  apply consumes_send. unfold FtpListCommand.
  apply (consumes_bind _ _ 1 1); [apply consumes_FtpPassiveModeCommand|].
  intros psv c1 _.
  apply (consumes_bind _ _ 0 1); [apply consumes_get|]. intros f c2 _.
  apply (consumes_bind _ _ 0 1); [apply consumes_write|]. intros _ c3 _.
  apply (consumes_bind0 _ _ 1); [apply consumes_getResponse|]. intros r c4 _.
  destruct (negb (code r =? 150)); [apply consumes_reject|].
  destruct (readToEnd psv) as [result|e|] eqn:E;
    [apply consumes_resolve|apply consumes_reject|].
  unfold readToEnd in E. destruct (ends_cleanly psv); discriminate.
Qed.

Lemma consumes_getDirectories path c : consumes (getDirectories path) 2 c.
Proof.
  unfold getDirectories.
  apply (consumes_bind0 _ _ 2); [apply consumes_FtpListCommand|].
  intros; apply consumes_resolve.
Qed.

Lemma consumes_DeleteDirectoryCommand path c :
  consumes (send (DeleteDirectoryCommand path)) 0 c.
Proof.
  apply consumes_send. unfold DeleteDirectoryCommand.
  apply (consumes_bind0 _ _ 0).
  { apply consumes_send. unfold PwdCommand.
    apply (consumes_bind0 _ _ 0); [apply consumes_write|]. intros _ c1 _.
    apply (consumes_bind0 _ _ 0);
      [apply (consumes_weaken _ 1); [apply consumes_getResponse|lia]|].
    intros r c2 _. destruct (300 <=? code r); [apply consumes_reject|].
    destruct (Regex.exec false Expressions.RE_PWD (message r));
      [apply consumes_resolve|apply consumes_reject]. }
  intros cwd c1 _.
  apply (consumes_bind0 _ _ 0);
    [apply (consumes_weaken _ 1); [apply consumes_CwdCommand|lia]|].
  intros exists_ c2 _.
  apply (consumes_bind0 _ _ 0);
    [destruct (negb exists_); [apply consumes_reject|apply consumes_resolve]|].
  intros _ c3 _.
  apply (consumes_bind0 _ _ 0);
    [apply (consumes_weaken _ 2); [apply consumes_FtpListCommand|lia]|].
  intros dirContent c4 _.
  apply (consumes_bind0 _ _ 0).
  { apply consumes_for_each. intros f c5 _. apply consumes_send.
    unfold DeleteFileCommand.
    apply (consumes_bind0 _ _ 0); [apply consumes_write|]. intros _ c6 _.
    apply (consumes_bind0 _ _ 0);
      [apply (consumes_weaken _ 1); [apply consumes_getResponse|lia]|].
    intros r c7 _. destruct (code r =? 550); [apply consumes_reject|].
    destruct (negb (code r =? 250)); [apply consumes_reject|apply consumes_resolve]. }
  intros _ c5 _.
  apply (consumes_bind0 _ _ 0).
  { apply consumes_send. unfold GoUpDirectoryCommand.
    apply (consumes_bind0 _ _ 0); [apply consumes_write|]. intros _ c6 _.
    apply (consumes_bind0 _ _ 0);
      [apply (consumes_weaken _ 1); [apply consumes_getResponse|lia]|].
    intros r c7 _. destruct (400 <=? code r); [apply consumes_reject|apply consumes_resolve]. }
  intros _ c6 _.
  apply (consumes_bind0 _ _ 0); [apply consumes_not_awaited, consumes_write|].
  intros _ c7 _.
  apply (consumes_bind0 _ _ 0);
    [apply (consumes_weaken _ 1); [apply consumes_getResponse|lia]|].
  intros r c8 _.
  apply (consumes_bind0 _ _ 0);
    [destruct (400 <=? code r); [apply consumes_reject|apply consumes_resolve]|].
  intros _ c9 _.
  apply (consumes_bind0 _ _ 0);
    [apply (consumes_weaken _ 1); [apply consumes_CwdCommand|lia]|].
  intros; apply consumes_resolve.
Qed.

Lemma consumes_join_name a name c : consumes (join_name a name) 0 c.
Proof.
  unfold join_name. destruct name as [[]|]; (apply consumes_resolve || apply consumes_reject).
Qed.

(** With more rounds than replies pending, [rmDir] settles. *)
Lemma rmDir_settles fuel : forall toRemove c,
  (pending c < fuel)%nat -> consumes (rmDir fuel toRemove) 0 c.
Proof.
  induction fuel as [|fuel IH]; intros toRemove c Hf; [lia|]. cbn [rmDir].
  apply (consumes_bind0 _ _ 0);
    [apply (consumes_weaken _ 2); [apply consumes_getDirectories|lia]|].
  intros dirListing c1 E1.
  pose proof (consumes_pending _ _ _ _ _ (consumes_getDirectories _ c) E1) as H1.
  apply (consumes_bind0 _ _ 0); [|intros; apply consumes_DeleteDirectoryCommand].
  apply consumes_for_each. intros d c2 H2.
  apply (consumes_bind0 _ _ 0); [apply consumes_join_name|].
  intros p c3 E3.
  pose proof (consumes_pending _ _ _ _ _ (consumes_join_name _ _ c2) E3) as H3.
  apply IH. lia.
Qed.

(** [deleteDirectory] never runs out of rounds: it resolves or rejects. *)
Lemma deleteDirectory_never_unsettled path recursive c :
  fst (deleteDirectory path recursive c) <> Unsettled.
Proof.
  assert (H : consumes (deleteDirectory path recursive) 0 c).
  { unfold deleteDirectory. destruct recursive; cbn [negb];
      [|apply consumes_DeleteDirectoryCommand].
    apply (consumes_bind0 _ _ 0);
      [apply (consumes_weaken _ 2); [apply consumes_getDirectories|lia]|].
    intros dirs c1 _. destruct path as [p|]; [|apply consumes_reject].
    apply (consumes_bind0 _ _ 0); [apply consumes_get|].
    intros fuel c2 E2. unfold get in E2. inversion E2; subst; clear E2.
    apply consumes_for_each. intros d c3 H3.
    apply (consumes_bind0 _ _ 0); [apply consumes_join_name|].
    intros q c4 E4.
    pose proof (consumes_pending _ _ _ _ _ (consumes_join_name _ _ c3) E4) as H4.
    apply rmDir_settles. unfold pending in *. lia. }
  unfold consumes in H.
  destruct (deleteDirectory path recursive c) as [[a|e|] c']; cbn [fst];
    [discriminate|discriminate|contradiction].
Qed.
End ClientProofs.

(** ** Single commands: what goes out, and how replies are mapped *)

Module CommandProofs.
Import Exceptions Definitions Connection Commands FtpClient Outcome Text.
Import ParserProofs ClientProofs.

(** Unfolds [after] and the commands down to the state of the connection. *)
Ltac run_commands :=
  unfold refused, after; unfold_monad; conn_simpl; cbn [map List.app].

(** A promise bound to its continuation, by the way it ends. *)
Lemma bind_Ok {A B} (m : Promise A) (k : A -> Promise B) c a c' :
  m c = (Ok a, c') -> bind m k c = k a c'.
Proof. intros H. unfold bind. now rewrite H. Qed.

Lemma bind_Throw {A B} (m : Promise A) (k : A -> Promise B) c e c' :
  m c = (Throw e, c') -> bind m k c = (Throw e, c').
Proof. intros H. unfold bind. now rewrite H. Qed.

(** X1. A server that does not greet with 220 is sent nothing: [connect]
    fails with an [FtpException] once the greeting is read, or with the
    timeout when no greeting arrives, and in both cases no line (neither
    [USER] nor [PASS]) has been written. *)
Theorem connect_sends_nothing_without_greeting c :
  ready c = true ->
  (responseQueue c = [] -> refused connect FtpTimeoutException c)
  /\ (forall g q,
        responseQueue c = g :: q -> code g <> 220 ->
        exists e,
          connect c = (Throw e, after [] q c) /\ cls e = FtpException
          /\ written (after [] q c) = written c).
Proof.
  destruct c as [rd w rb cb q0 f conf dp li]. cbn [ready responseQueue].
  intros ->. unfold connect, FtpLoginCommand, FtpWelcomeCommand.
  split.
  - intros ->. run_commands. eexists. split; reflexivity.
  - intros g q -> Hg. apply Z.eqb_neq in Hg. run_commands. rewrite Hg. cbn [negb].
    rewrite List.app_nil_r. eexists. repeat split; reflexivity.
Qed.

Lemma connect_sends_nothing_without_greeting_witness :
  let c := set_responseQueue [mkResponse 421 (Wire.line "Service not available")] fresh in
  ready c = true
  /\ exists e,
       connect c = (Throw e, after [] [] c) /\ cls e = FtpException
       /\ written (after [] [] c) = written c.
Proof.
  intros c. split; [reflexivity|].
  apply (proj2 (connect_sends_nothing_without_greeting c eq_refl)
           (mkResponse 421 (Wire.line "Service not available")) [] eq_refl).
  discriminate.
Defined.

(** X2. [rename] with two non-empty operands writes [RNFR from] and reads
    one reply. Unless that reply is 350 the rename stops there, with an
    [FtpFileNotFoundException] for 550 and an [FtpException] otherwise,
    both carrying the code of the reply, and [RNTO] is never written.
    After a 350 it writes [RNTO to], reads a second reply, and succeeds
    exactly when that reply is 250; any other code is an [FtpException]
    carrying it. *)
Theorem rename_dialogue from to c r1 q :
  ready c = true ->
  Js.is_empty from = false -> Js.is_empty to = false ->
  responseQueue c = r1 :: q ->
  (code r1 <> 350 ->
     exists e,
       rename (Some from) (Some to) c = (Throw e, after ["RNFR " +:+ from] q c)
       /\ cls e = (if code r1 =? 550 then FtpFileNotFoundException else FtpException)
       /\ ecode e = Some (code r1))
  /\ (code r1 = 350 ->
      forall r2 q', q = r2 :: q' ->
        snd (rename (Some from) (Some to) c)
          = after ["RNFR " +:+ from; "RNTO " +:+ to] q' c
        /\ (code r2 = 250 -> fst (rename (Some from) (Some to) c) = Ok tt)
        /\ (code r2 <> 250 ->
            exists e,
              fst (rename (Some from) (Some to) c) = Throw e
              /\ cls e = FtpException /\ ecode e = Some (code r2))).
Proof.
  destruct c as [rd w rb cb q0 f conf dp li]. cbn [ready responseQueue].
  intros -> Hf Ht ->.
  destruct from as [|a from]; [discriminate|]. destruct to as [|b to]; [discriminate|].
  unfold rename, new_RenameCommand, RenameCommand_execute, constructed,
    new_RenameFromCommand, new_RenameToCommand, RenameFromCommand, RenameToCommand.
  cbn [nil_or_empty default from_option]. unfold id.
  split.
  - intros H1. apply Z.eqb_neq in H1. run_commands.
    destruct (code r1 =? 550) eqn:E5.
    + apply Z.eqb_eq in E5. eexists. repeat split. cbn. now rewrite E5.
    + rewrite H1. cbn [negb]. eexists. repeat split.
  - intros H1 r2 q' ->. run_commands.
    replace (code r1 =? 550) with false by (symmetry; apply Z.eqb_neq; lia).
    replace (code r1 =? 350) with true by (symmetry; apply Z.eqb_eq; lia).
    conn_simpl. rewrite <- !List.app_assoc. cbn [List.app].
    destruct (code r2 =? 250) eqn:E2; conn_simpl.
    + repeat split. intros H. apply Z.eqb_neq in H. congruence.
    + repeat split.
      * intros H. apply Z.eqb_eq in H. congruence.
      * intros _. eexists. repeat split.
Qed.

Lemma rename_dialogue_witness :
  let c := set_responseQueue
             [mkResponse 350 (Wire.line "File exists, ready for destination name");
              mkResponse 250 (Wire.line "File renamed")] fresh in
  ready c = true
  /\ Js.is_empty "/foo.txt" = false /\ Js.is_empty "/foo2.txt" = false
  /\ rename (Some "/foo.txt") (Some "/foo2.txt") c
     = (Ok tt, after ["RNFR /foo.txt"; "RNTO /foo2.txt"] [] c).
Proof.
  intros c. repeat (split; [reflexivity|]).
  destruct (proj2 (rename_dialogue "/foo.txt" "/foo2.txt" c _ _
                     eq_refl eq_refl eq_refl eq_refl) eq_refl _ _ eq_refl)
    as (Hs & Hok & _).
  rewrite (surjective_pairing (rename _ _ c)), Hs, (Hok eq_refl). reflexivity.
Defined.

(** X3. [deleteFile] writes [DELE path] and reads one reply: 250 is
    success, 550 an [FtpFileNotFoundException], and every other code an
    [FtpException]; either exception carries the code of the reply. *)
Theorem deleteFile_error_mapping path c r q :
  ready c = true ->
  responseQueue c = r :: q ->
  snd (deleteFile path c) = after ["DELE " +:+ path] q c
  /\ (code r = 250 -> fst (deleteFile path c) = Ok tt)
  /\ (code r <> 250 ->
      exists e,
        fst (deleteFile path c) = Throw e
        /\ cls e = (if code r =? 550 then FtpFileNotFoundException else FtpException)
        /\ ecode e = Some (code r)).
Proof.
  destruct c as [rd w rb cb q0 f conf dp li]. cbn [ready responseQueue].
  intros -> ->. unfold deleteFile, DeleteFileCommand. run_commands.
  destruct (code r =? 550) eqn:E5; conn_simpl.
  - apply Z.eqb_eq in E5. repeat split; [lia|]. intros _. eexists. repeat split.
  - destruct (code r =? 250) eqn:E2; conn_simpl.
    + apply Z.eqb_eq in E2. repeat split. intros H. contradiction.
    + apply Z.eqb_neq in E2. repeat split; [intros H; contradiction|].
      intros _. eexists. repeat split.
Qed.

Lemma deleteFile_error_mapping_witness :
  let c := set_responseQueue [mkResponse 550 (Wire.line "File not found")] fresh in
  ready c = true
  /\ snd (deleteFile "/foo.txt" c) = after ["DELE /foo.txt"] [] c
  /\ exists e,
       fst (deleteFile "/foo.txt" c) = Throw e
       /\ cls e = FtpFileNotFoundException /\ ecode e = Some 550.
Proof.
  intros c. split; [reflexivity|].
  destruct (deleteFile_error_mapping "/foo.txt" c _ _ eq_refl eq_refl) as (Hs & _ & Hno).
  split; [exact Hs|]. apply Hno. discriminate.
Defined.


(** X4. The optional commands are gated by the features of the server:
    without SIZE, [getFileSize] and hence [fileExists] fail with an
    [FtpException] (so [fileExists] does not answer [false]); without
    MDTM, [getLastModificationTime] and [setModificationTime] fail
    likewise. In each case nothing is written and no reply is read. *)
Theorem optional_commands_are_feature_gated path tz date c :
  ready c = true ->
  (SIZE (features c) = false ->
     refused (getFileSize path) FtpException c
     /\ refused (fileExists path) FtpException c)
  /\ (MDTM (features c) = false ->
      refused (getLastModificationTime tz path) FtpException c
      /\ refused (setModificationTime path date) FtpException c).
Proof.
  destruct c as [rd w rb cb q0 f conf dp li]. cbn [ready features].
  intros ->.
  unfold getFileSize, fileExists, getFileSize, getLastModificationTime,
    setModificationTime, SizeCommand, LastModifiedTimeCommand, ChangeModificationTime.
  split; intros Hf; run_commands; rewrite Hf; split; eexists; split; reflexivity.
Qed.

Lemma optional_commands_are_feature_gated_witness :
  ready fresh = true
  /\ refused (getFileSize "/foo.txt") FtpException fresh
  /\ refused (fileExists "/foo.txt") FtpException fresh
  /\ refused (getLastModificationTime 0 "/foo.txt") FtpException fresh
  /\ refused (setModificationTime "/foo.txt" (Some 0)) FtpException fresh.
Proof.
  split; [reflexivity|].
  destruct (optional_commands_are_feature_gated "/foo.txt" 0 (Some 0) fresh eq_refl)
    as [Hs Hm].
  destruct (Hs eq_refl) as [H1 H2]. destruct (Hm eq_refl) as [H3 H4].
  repeat split; assumption.
Defined.

(** X5. On a connection whose socket is closed or still connecting, every
    operation of the facade that sends a command fails with an
    [FtpNetworkException] and leaves the connection as it was: nothing is
    written, no reply is read, no data connection is opened. ([connect]
    is not among them: it opens the socket before it sends. [createDir]
    with an empty path, [rename] with an empty operand, [upload] of a
    missing file and [download] onto a file that may not be overwritten
    fail on their arguments first.) *)
Theorem closed_connection_refuses_every_operation c :
  ready c = false ->
  refused disconnect FtpNetworkException c
  /\ (forall path, refused (getFiles path) FtpNetworkException c)
  /\ (forall path, refused (getDirectories path) FtpNetworkException c)
  /\ (forall path recursive,
        Js.is_empty path = false ->
        refused (createDir path recursive) FtpNetworkException c)
  /\ (forall from to,
        nil_or_empty from || nil_or_empty to = false ->
        refused (rename from to) FtpNetworkException c)
  /\ (forall path recursive, refused (deleteDirectory path recursive) FtpNetworkException c)
  /\ (forall path, refused (deleteFile path) FtpNetworkException c)
  /\ refused getFeatures FtpNetworkException c
  /\ (forall path, refused (getFileSize path) FtpNetworkException c)
  /\ (forall path, refused (fileExists path) FtpNetworkException c)
  /\ refused getCurrentDirectory FtpNetworkException c
  /\ (forall path, refused (setCurrentDirectory path) FtpNetworkException c)
  /\ (forall path, refused (directoryExists path) FtpNetworkException c)
  /\ (forall tz path, refused (getLastModificationTime tz path) FtpNetworkException c)
  /\ (forall path date, refused (setModificationTime path date) FtpNetworkException c)
  /\ (forall local localPath target,
        Fs.found local = true ->
        refused (upload local localPath target) FtpNetworkException c)
  /\ (forall local source target overwrite progress,
        negb overwrite && Fs.found local = false ->
        refused (download local source target overwrite progress) FtpNetworkException c).
Proof.
  intros Hr.
  assert (Hsend : forall A (m : Promise A), refused (send m) FtpNetworkException c).
  { intros A m. unfold refused, send. rewrite Hr. eexists. split; reflexivity. }
  assert (Hbind : forall A B (m : Promise A) (k : A -> Promise B),
             refused m FtpNetworkException c -> refused (bind m k) FtpNetworkException c).
  { intros A B m k (e & He & Hc). unfold refused, bind. rewrite He. eauto. }
  repeat split; intros.
  - apply Hsend.
  - apply Hbind, Hsend.
  - apply Hbind, Hsend.
  - unfold createDir. rewrite H. apply Hsend.
  - unfold rename, new_RenameCommand. apply orb_false_iff in H as [Hf Ht].
    rewrite Hf, Ht. apply Hsend.
  - unfold deleteDirectory. destruct recursive; cbn [negb]; [|apply Hsend].
    apply Hbind. unfold getDirectories. apply Hbind, Hsend.
  - apply Hsend.
  - apply Hsend.
  - apply Hsend.
  - destruct (Hsend _ (SizeCommand path)) as (e & He & Hc).
    unfold refused, fileExists, try_catch, getFileSize, bind. rewrite He.
    unfold instanceof. rewrite Hc. cbn. unfold reject. eauto.
  - apply Hsend.
  - apply Hsend.
  - unfold directoryExists. apply Hbind, Hsend.
  - apply Hsend.
  - apply Hsend.
  - unfold upload, new_StoreCommand. rewrite H. apply Hsend.
  - unfold download. rewrite H. apply Hsend.
Qed.

Lemma closed_connection_refuses_every_operation_witness :
  let c := mkConnection false [] [] EmptyString [Scenario.ok] no_features
             default_configuration [] 0 in
  ready c = false
  /\ refused (deleteFile "/foo.txt") FtpNetworkException c
  /\ refused (fileExists "/foo.txt") FtpNetworkException c
  /\ refused (directoryExists "/foo") FtpNetworkException c
  /\ refused (download (Fs.mkLocalFile false true) "foo.txt" "/tmp/foo.txt" false false)
       FtpNetworkException c.
Proof.
  intros c. split; [reflexivity|].
  pose proof (closed_connection_refuses_every_operation c eq_refl) as H.
  split; [apply H|]. split; [apply H|]. split; [apply H|].
  destruct H as (_ & _ & _ & _ & _ & _ & _ & _ & _ & _ & _ & _ & _ & _ & _ & _ & Hd).
  exact (Hd (Fs.mkLocalFile false true) "foo.txt" "/tmp/foo.txt" false false eq_refl).
Defined.

(** X6. The non-recursive [deleteDirectory] first enters the directory.
    When the server refuses that [CWD] (a code of 300 or more), the
    command fails with an [FtpDirectoryNotFoundException] after [PWD] and
    [CWD path] alone: no listing is requested, no data connection is
    opened, and neither [DELE], [CDUP] nor [RMD] is written. *)
Theorem deleteDirectory_stops_at_refused_directory path c r1 r2 q dir :
  ready c = true ->
  responseQueue c = r1 :: r2 :: q ->
  code r1 < 300 ->
  Wire.pwd_directory r1 = Some dir ->
  300 <= code r2 ->
  exists e,
    deleteDirectory (Some path) false c
      = (Throw e, after ["PWD"; "CWD " +:+ path] q c)
    /\ cls e = FtpDirectoryNotFoundException
    /\ dataPeers (after ["PWD"; "CWD " +:+ path] q c) = dataPeers c.
Proof.
  destruct c as [rd w rb cb q0 f conf dp li]. cbn [ready responseQueue].
  intros -> -> H1 Hd H2. unfold Wire.pwd_directory in Hd.
  assert (H1' : (300 <=? code r1) = false) by (apply Z.leb_gt; lia).
  assert (H2' : (300 <=? code r2) = true) by (apply Z.leb_le; lia).
  destruct (Regex.exec false Expressions.RE_PWD (message r1)) as [m|] eqn:Em;
    [|discriminate].
  unfold deleteDirectory, DeleteDirectoryCommand, PwdCommand, CwdCommand.
  cbn [negb Js.str_of_undefined]. run_commands.
  rewrite H1'. conn_simpl. rewrite Em. conn_simpl. rewrite H2'. conn_simpl.
  rewrite <- !List.app_assoc. cbn [List.app].
  eexists. repeat split.
Qed.

Lemma deleteDirectory_stops_at_refused_directory_witness :
  let r1 := mkResponse 257 (Wire.line (Wire.quoted "/" +:+ " is current directory.")) in
  let r2 := mkResponse 550 (Wire.line "CWD failed. No such directory") in
  let c := set_dataPeers [Scenario.peer [Scenario.only_a_file]]
             (set_responseQueue [r1; r2] fresh) in
  ready c = true /\ code r1 < 300 /\ Wire.pwd_directory r1 = Some "/"
  /\ 300 <= code r2
  /\ exists e,
       deleteDirectory (Some "foo") false c
         = (Throw e, after ["PWD"; "CWD foo"] [] c)
       /\ cls e = FtpDirectoryNotFoundException
       /\ dataPeers (after ["PWD"; "CWD foo"] [] c) = dataPeers c.
Proof.
  intros r1 r2 c.
  assert (H1 : code r1 < 300) by reflexivity.
  assert (Hd : Wire.pwd_directory r1 = Some "/") by (vm_compute; reflexivity).
  assert (H2 : 300 <= code r2) by discriminate.
  repeat (split; [assumption || reflexivity|]).
  exact (deleteDirectory_stops_at_refused_directory "foo" c r1 r2 [] "/"
           eq_refl eq_refl H1 Hd H2).
Defined.


Lemma split_char_not_nil c s : Js.split_char c s <> [].
Proof.
  induction s as [|a s IH]; cbn [Js.split_char]; [discriminate|].
  destruct (Ascii.eqb c a); [discriminate|].
  destruct (Js.split_char c s); [congruence|discriminate].
Qed.

Lemma split_char_free c s : free_of c s = true -> Js.split_char c s = [s].
Proof.
  unfold free_of. induction s as [|a s IH]; cbn [all_chars Js.split_char]; [reflexivity|].
  intros H. apply andb_prop in H as [Ha Hs]. apply negb_true_iff in Ha.
  rewrite Ha, IH by exact Hs. reflexivity.
Qed.

Lemma split_char_app c a b :
  Js.split_char c (a +:+ String c b) = Js.split_char c a ++ Js.split_char c b.
Proof.
  induction a as [|x a IH].
  - rewrite app_nil_l_str. cbn [Js.split_char]. now rewrite Ascii.eqb_refl.
  - rewrite app_cons_str. cbn [Js.split_char]. rewrite IH.
    destruct (Ascii.eqb c x); [reflexivity|].
    apply cons_head_app, split_char_not_nil.
Qed.

Lemma split_char_first c a b :
  free_of c a = true ->
  Js.split_char c (a +:+ String c b) = a :: Js.split_char c b.
Proof. intros H. now rewrite split_char_app, split_char_free. Qed.

(** The last segment of a path is what follows its last slash. *)
Lemma pop_split_char c parent name :
  free_of c name = true ->
  Js.pop (Js.split_char c (parent +:+ String c name)) = Some name.
Proof.
  intros H. rewrite split_char_app, (split_char_free c name H).
  unfold Js.pop. apply last_snoc.
Qed.

Lemma MkDirCommand_execute_flat fuel path cwdDir :
  MkDirCommand_execute (S fuel) path false cwdDir =
  ((if Js.is_empty cwdDir then send (CwdCommand "/") ;; resolve tt else resolve tt) ;;
   send (CwdCommand path) ;;
   write ("MKD " +:+ Js.str_of_undefined (Js.pop (Js.split_char "/" path))) ;;
   checkResponse ;;
   resolve tt).
Proof. reflexivity. Qed.

(** X7. The non-recursive [createDir] on a path [parent/name] goes to the
    root, tries to enter the path itself, and then creates the last
    segment: it writes [CWD /], [CWD parent/name] and [MKD name], whatever
    the two [CWD] were answered. It succeeds exactly when the third reply
    is 257; with any other code the promise is rejected with a
    [TypeError], raised while the message of the intended exception is
    built. *)
Theorem createDir_single_level parent name c r1 r2 r3 q :
  ready c = true ->
  free_of "/" name = true ->
  responseQueue c = r1 :: r2 :: r3 :: q ->
  let path := parent +:+ "/" +:+ name in
  snd (createDir path false c)
    = after ["CWD /"; "CWD " +:+ path; "MKD " +:+ name] q c
  /\ (code r3 = 257 -> fst (createDir path false c) = Ok tt)
  /\ (code r3 <> 257 ->
      exists e, fst (createDir path false c) = Throw e /\ cls e = TypeError).
Proof.
  destruct c as [rd w rb cb q0 f conf dp li]. cbn [ready responseQueue].
  intros -> Hn ->.
  assert (Hp : Js.is_empty (parent +:+ "/" +:+ name) = false) by now destruct parent.
  set (c := mkConnection true w rb cb (r1 :: r2 :: r3 :: q) f conf dp li).
  assert (E : createDir (parent +:+ "/" +:+ name) false c =
              (if code r3 =? 257 then Ok tt
               else Throw (new TypeError "Cannot read property 'path' of undefined"),
               after ["CWD /"; "CWD " +:+ parent +:+ "/" +:+ name; "MKD " +:+ name] q c)).
  { unfold createDir. rewrite Hp. unfold send at 1. subst c. cbn [ready].
    unfold MkDirCommand. cbn [responseQueue List.length Nat.mul Nat.add].
    rewrite MkDirCommand_execute_flat. cbn [Js.is_empty].
    change ("/" +:+ name) with (String "/" name).
    rewrite pop_split_char by exact Hn. cbn [Js.str_of_undefined].
    unfold CwdCommand, checkResponse. run_commands.
    destruct (300 <=? code r1); conn_simpl;
      (destruct (300 <=? code r2); conn_simpl;
       (destruct (code r3 =? 257); conn_simpl;
        rewrite <- ?List.app_assoc; reflexivity)). }
  cbn zeta. rewrite E. cbn [fst snd]. split; [reflexivity|].
  split; intros H3.
  - apply Z.eqb_eq in H3. now rewrite H3.
  - apply Z.eqb_neq in H3. rewrite H3. eexists. split; reflexivity.
Qed.

Lemma createDir_single_level_witness :
  let c := set_responseQueue [Scenario.ok; Scenario.no; Scenario.created] fresh in
  ready c = true /\ free_of "/" "b" = true
  /\ createDir "/a/b" false c
     = (Ok tt, after ["CWD /"; "CWD /a/b"; "MKD b"] [] c).
Proof.
  intros c. repeat (split; [reflexivity|]).
  pose proof (createDir_single_level "/a" "b" c _ _ _ _ eq_refl eq_refl eq_refl) as H.
  change ("/a" +:+ "/" +:+ "b") with "/a/b" in H. destruct H as (Hs & Hok & _).
  rewrite (surjective_pairing (createDir _ _ c)), Hs, (Hok eq_refl). reflexivity.
Defined.


End CommandProofs.

(** ** Replies, from the bytes of the control stream to the commands *)

Module ReplyProofs.
Import Regex Expressions ReplyGrammar Exceptions Definitions Connection Commands.
Import FtpClient Outcome Text ParserProofs DataProofs ClientProofs.

Lemma set_parser_same c :
  responseBuffer c = [] -> commandBuffer c = EmptyString -> set_parser [] EmptyString c = c.
Proof. destruct c; cbn. now intros -> ->. Qed.

(** X9. Data that arrives on the control socket never fails the parser
    and never disturbs what is already there: whatever the events, the
    replies queued before stay queued, in their order, ahead of the new
    ones, and nothing but the queue and the accumulated text of the open
    reply changes (no line is written, features and data connections are
    untouched). *)
Theorem deliver_only_appends_replies events c :
  responseBuffer c = [] ->
  exists new cb,
    deliver events c
    = (Ok tt, set_responseQueue (responseQueue c ++ new) (set_parser [] cb c)).
Proof.
  revert c. induction events as [|data events IH]; intros c Hb.
  - exists [], (commandBuffer c). cbn [deliver]. unfold resolve.
    rewrite List.app_nil_r. destruct c; cbn in *. now subst.
  - cbn [deliver]. unfold bind. rewrite onData_closed by exact Hb. cbn zeta.
    destruct (fold_left feed_line (data_lines data) (commandBuffer c, [])) as [cb1 new1].
    cbn [fst snd].
    destruct (IH (set_responseQueue (responseQueue c ++ new1) (set_parser [] cb1 c)))
      as (new2 & cb2 & E); [reflexivity|].
    rewrite E. exists (new1 ++ new2), cb2.
    destruct c; cbn. now rewrite List.app_assoc.
Qed.

Lemma deliver_only_appends_replies_witness :
  let c := set_responseQueue [Scenario.ok] fresh in
  responseBuffer c = []
  /\ exists new cb,
       deliver [Wire.line "220-hello"; Wire.line "220 ready"; "226"] c
       = (Ok tt, set_responseQueue (responseQueue c ++ new) (set_parser [] cb c)).
Proof.
  intros c. split; [reflexivity|].
  apply (deliver_only_appends_replies _ c eq_refl).
Defined.

Lemma trimStart_all_ws s : all_chars Js.is_ws s = true -> Js.trimStart s = EmptyString.
Proof.
  induction s as [|a s IH]; cbn [all_chars Js.trimStart]; [reflexivity|].
  intros H. apply andb_prop in H as [Ha Hs]. rewrite Ha. now apply IH.
Qed.

Lemma all_chars_cons_head p a l :
  p a = true -> Forall (fun s => all_chars p s = true) l ->
  Forall (fun s => all_chars p s = true) (Js.cons_head a l).
Proof.
  intros Ha Hl. destruct l as [|x l]; cbn [Js.cons_head].
  - repeat constructor. cbn. now rewrite Ha.
  - inversion Hl; subst. constructor; [cbn; now rewrite Ha|assumption].
Qed.

Lemma split_go_all_chars p sep s : forall k,
  all_chars p s = true ->
  Forall (fun l => all_chars p l = true) (Js.split_go sep k s).
Proof.
  induction s as [|a s IH]; intros k H; cbn [Js.split_go]; [repeat constructor|].
  cbn [all_chars] in H. apply andb_prop in H as [Ha Hs].
  destruct k as [|k]; [|now apply IH].
  destruct (String.prefix sep (String a s)).
  - constructor; [reflexivity|now apply IH].
  - apply all_chars_cons_head; [exact Ha|now apply IH].
Qed.

Lemma data_lines_blank ws : all_chars Js.is_ws ws = true -> data_lines ws = [].
Proof.
  intros H. unfold data_lines, Js.split.
  pose proof (split_go_all_chars Js.is_ws NEW_LINE ws 0 H) as Hall.
  induction Hall as [|l ls Hl _ IH]; [reflexivity|].
  cbn [List.filter]. unfold Js.trim. rewrite trimStart_all_ws by exact Hl.
  cbn [Js.trimEnd Js.is_empty negb]. exact IH.
Qed.

(** X10. Blank lines in the control stream are ignored: a line made of
    white space only (or an empty one) between two CRLF changes neither
    the replies that an event produces nor the text accumulated for the
    open reply. *)
Theorem blank_lines_are_ignored a ws b c :
  all_chars Js.is_ws ws = true ->
  onData (a +:+ NEW_LINE +:+ ws +:+ NEW_LINE +:+ b) c
  = onData (a +:+ NEW_LINE +:+ b) c.
Proof.
  intros H. unfold onData, bind, parseResponse.
  now rewrite !data_lines_app, (data_lines_blank ws H).
Qed.

Lemma blank_lines_are_ignored_witness :
  all_chars Js.is_ws "  " = true
  /\ onData ("211-Features" +:+ NEW_LINE +:+ "  " +:+ NEW_LINE +:+ "211 End") fresh
     = onData ("211-Features" +:+ NEW_LINE +:+ "211 End") fresh.
Proof.
  split; [reflexivity|].
  apply (blank_lines_are_ignored "211-Features" "  " "211 End" fresh). reflexivity.
Defined.


Lemma not_terminator_not_CR a :
  Js.is_line_terminator a = false -> Ascii.eqb Js.CR a = false.
Proof.
  intros H. destruct (Ascii.eqb_spec Js.CR a) as [<-|]; [discriminate|reflexivity].
Qed.

Lemma split_one_line s : one_line s = true -> Js.split NEW_LINE s = [s].
Proof.
  unfold one_line, Js.split.
  induction s as [|a s IH]; cbn [all_chars Js.split_go]; [reflexivity|].
  intros H. apply andb_prop in H as [Ha Hs]. apply negb_true_iff in Ha.
  rewrite prefix_NEW_LINE, (not_terminator_not_CR a Ha). cbn [andb].
  now rewrite IH.
Qed.

Lemma data_lines_one_line l :
  one_line l = true -> negb (Js.is_empty (Js.trim l)) = true -> data_lines l = [l].
Proof.
  intros H1 H2. unfold data_lines. rewrite split_one_line by exact H1.
  cbn [List.filter]. now rewrite H2.
Qed.

Lemma of_lines_cons l ls :
  Stream.of_lines (l :: ls) = l +:+ NEW_LINE +:+ Stream.of_lines ls.
Proof.
  unfold Stream.of_lines. cbn [map stream_of fold_right]. unfold Wire.line.
  apply app_assoc_str.
Qed.

Lemma of_lines_snoc ls l :
  Stream.of_lines (ls ++ [l]) = Stream.of_lines ls +:+ l +:+ NEW_LINE.
Proof.
  unfold Stream.of_lines. rewrite List.map_app. cbn [map].
  now rewrite stream_of_snoc.
Qed.

Lemma data_lines_of_lines ls :
  Forall (fun l => one_line l = true /\ negb (Js.is_empty (Js.trim l)) = true) ls ->
  data_lines (Stream.of_lines ls) = ls.
Proof.
  induction 1 as [|l ls [H1 H2] _ IH]; [reflexivity|].
  rewrite of_lines_cons, data_lines_app, IH, data_lines_one_line by assumption.
  reflexivity.
Qed.

Lemma fold_feed_inner ls : forall cb rs,
  Forall (fun l => is_final_line l = false) ls ->
  fold_left feed_line ls (cb, rs)
  = (cb +:+ Stream.of_lines (map line_text ls), rs).
Proof.
  induction ls as [|l ls IH]; intros cb rs H; cbn [fold_left map].
  - unfold Stream.of_lines. cbn. now rewrite app_nil_r_str.
  - inversion H as [|? ? Hl Hls]; subst.
    unfold feed_line at 2. cbn [fst snd]. rewrite Hl, IH by exact Hls.
    now rewrite of_lines_cons, !app_assoc_str.
Qed.

Lemma span_dot_one_line s : one_line s = true -> span_dot s = s.
Proof.
  unfold one_line. induction s as [|a s IH]; cbn [all_chars span_dot]; [reflexivity|].
  intros H. apply andb_prop in H as [Ha Hs]. apply negb_true_iff in Ha.
  now rewrite Ha, IH.
Qed.

Lemma first_run_one_line s : one_line s = true -> first_run s = s.
Proof.
  destruct s as [|a s]; [reflexivity|]. intros H. cbn [first_run].
  pose proof H as H'. unfold one_line in H'. cbn [all_chars] in H'.
  apply andb_prop in H' as [Ha _]. apply negb_true_iff in Ha. rewrite Ha.
  now apply span_dot_one_line.
Qed.

Lemma one_line_drop n : forall s, one_line s = true -> one_line (Js.drop n s) = true.
Proof.
  unfold one_line. induction n as [|n IH]; intros s H; [exact H|].
  destruct s as [|a s]; [reflexivity|]. cbn [Js.drop]. apply IH.
  cbn [all_chars] in H. now apply andb_prop in H as [_ H].
Qed.

Lemma line_text_one_line l :
  one_line l = true -> line_text l = if coded l then Js.drop 4 l else l.
Proof.
  intros H. unfold line_text. destruct (coded l).
  - apply span_dot_one_line, one_line_drop, H.
  - now apply first_run_one_line.
Qed.

Lemma trim_starts_with_digit a s : Js.is_digit a = true ->
  negb (Js.is_empty (Js.trim (String a s))) = true.
Proof.
  intros Ha. unfold Js.trim. cbn [Js.trimStart].
  rewrite (digit_not_ws a Ha). cbn [Js.trimEnd].
  rewrite (digit_not_ws a Ha), andb_false_r. reflexivity.
Qed.

(** What the last line of a reply does to the parser. *)
Lemma feed_final_line d1 d2 d3 sep text cb rs :
  Js.is_digit d1 = true -> Js.is_digit d2 = true -> Js.is_digit d3 = true ->
  Ascii.eqb "-" sep = false ->
  one_line text = true -> Js.is_empty text = false ->
  feed_line (cb, rs) (Stream.final_line d1 d2 d3 sep text)
  = (EmptyString,
     rs ++ [mkResponse (Stream.code_of d1 d2 d3) (cb +:+ text +:+ NEW_LINE)]).
Proof.
  intros H1 H2 H3 Hs Ht Hne. destruct text as [|e text]; [discriminate|].
  pose proof Ht as Ht'. unfold one_line in Ht'. cbn [all_chars] in Ht'.
  apply andb_prop in Ht' as [He _].
  unfold feed_line, is_final_line, line_text, coded, fourth_is_dash, Stream.final_line.
  rewrite H1, H2, H3, He, Hs. cbn [andb negb fst snd Js.drop Js.take].
  rewrite parseInt10_three_digits by assumption.
  now rewrite (span_dot_one_line _ Ht).
Qed.

(** An event that carries whole lines, the last of which is final. *)
Lemma onData_whole_reply ls d1 d2 d3 sep text c :
  responseBuffer c = [] ->
  Forall (fun l => Stream.inner_line l = true) ls ->
  Js.is_digit d1 = true -> Js.is_digit d2 = true -> Js.is_digit d3 = true ->
  Ascii.eqb "-" sep = false ->
  one_line (String sep text) = true -> Js.is_empty text = false ->
  onData (Stream.of_lines (ls ++ [Stream.final_line d1 d2 d3 sep text])) c
  = (Ok tt,
     set_responseQueue
       (responseQueue c ++
          [mkResponse (Stream.code_of d1 d2 d3)
             (commandBuffer c +:+ Stream.of_lines (map line_text ls ++ [text]))])
       (set_parser [] EmptyString c)).
Proof.
  intros Hb Hls H1 H2 H3 Hs Hst Hne.
  assert (Ht : one_line text = true).
  { unfold one_line in *. cbn [all_chars] in Hst. now apply andb_prop in Hst as [_ ?]. }
  assert (Hsep : Js.is_line_terminator sep = false).
  { unfold one_line in Hst. cbn [all_chars] in Hst. apply andb_prop in Hst as [? _].
    now apply negb_true_iff. }
  rewrite onData_closed by exact Hb. cbn zeta.
  rewrite data_lines_of_lines.
  2:{ apply Forall_app. split.
      - eapply List.Forall_impl; [|exact Hls]. cbn beta. intros l Hl. unfold Stream.inner_line in Hl.
        apply andb_prop in Hl as [Hl _]. apply andb_prop in Hl as [? ?]. now split.
      - constructor; [|constructor]. split.
        + unfold one_line, Stream.final_line. cbn [all_chars].
          rewrite Hsep. fold (one_line text). rewrite Ht.
          assert (Hd : forall d, Js.is_digit d = true -> Js.is_line_terminator d = false).
          { intros d Hd. destruct (Js.is_line_terminator d) eqn:E; [|reflexivity].
            apply line_terminator_is_ws in E. rewrite (digit_not_ws d Hd) in E.
            discriminate. }
          now rewrite !Hd by assumption.
        + now apply trim_starts_with_digit. }
  rewrite fold_left_app. rewrite fold_feed_inner.
  2:{ eapply List.Forall_impl; [|exact Hls]. cbn beta. intros l Hl. unfold Stream.inner_line in Hl.
      apply andb_prop in Hl as [_ Hl]. now apply negb_true_iff. }
  cbn [fold_left]. rewrite feed_final_line by assumption. cbn [fst snd List.app].
  rewrite of_lines_snoc, app_assoc_str. reflexivity.
Qed.

(** X11. A reply is assembled from its lines. When an event carries whole
    lines, none of which completes a reply, followed by a final line
    (three digits, a separator other than a hyphen, a non-empty text),
    the parser queues exactly one reply: its code is the number of the
    final line and its message is the text accumulated so far followed by
    the text of every line and CRLF, where a line that starts like a
    coded line loses its first four characters and any other line is
    kept whole. The code prefix is therefore not part of the message. *)
Theorem reply_is_assembled_from_its_lines ls d1 d2 d3 sep text c :
  responseBuffer c = [] ->
  Forall (fun l => Stream.inner_line l = true) ls ->
  Js.is_digit d1 = true -> Js.is_digit d2 = true -> Js.is_digit d3 = true ->
  Ascii.eqb "-" sep = false ->
  one_line (String sep text) = true -> Js.is_empty text = false ->
  onData (Stream.of_lines (ls ++ [Stream.final_line d1 d2 d3 sep text])) c
  = (Ok tt,
     set_responseQueue
       (responseQueue c ++
          [mkResponse (Stream.code_of d1 d2 d3)
             (commandBuffer c +:+ Stream.of_lines (map line_text ls ++ [text]))])
       (set_parser [] EmptyString c))
  /\ Forall (fun l => line_text l = if coded l then Js.drop 4 l else l) ls.
Proof.
  intros Hb Hls H1 H2 H3 Hs Hst Hne.
  split; [now apply onData_whole_reply|].
  eapply List.Forall_impl; [|exact Hls]. cbn beta. intros l Hl. apply line_text_one_line.
  unfold Stream.inner_line in Hl. apply andb_prop in Hl as [Hl _].
  now apply andb_prop in Hl as [? _].
Qed.

Lemma reply_is_assembled_from_its_lines_witness :
  let ls := ["211-Features"; " MDTM"; " UTF8"] in
  Forall (fun l => Stream.inner_line l = true) ls
  /\ Stream.of_lines (ls ++ [Stream.final_line "2" "1" "1" " " "End"])
     = Wire.line "211-Features" +:+ Wire.line " MDTM" +:+ Wire.line " UTF8"
         +:+ Wire.line "211 End"
  /\ onData (Stream.of_lines (ls ++ [Stream.final_line "2" "1" "1" " " "End"])) fresh
     = (Ok tt,
        set_responseQueue
          [mkResponse 211
             (Wire.line "Features" +:+ Wire.line " MDTM" +:+ Wire.line " UTF8"
                +:+ Wire.line "End")]
          fresh).
Proof.
  intros ls.
  assert (H : Forall (fun l => Stream.inner_line l = true) ls)
    by (repeat constructor).
  split; [exact H|]. split; [reflexivity|].
  exact (proj1 (reply_is_assembled_from_its_lines ls "2" "1" "1" " " "End" fresh
                  eq_refl H eq_refl eq_refl eq_refl eq_refl eq_refl eq_refl)).
Defined.


(** *** Decimal numbers, printed and read back *)

Lemma dec_digits_uint d : forall acc rest,
  Js.dec_digits (Some acc) (DecimalString.NilEmpty.string_of_uint d +:+ rest)
  = Js.dec_digits (Some (uint_value acc d)) rest.
Proof.
  induction d as [|d IH|d IH|d IH|d IH|d IH|d IH|d IH|d IH|d IH|d IH];
    intros acc rest; cbn [DecimalString.NilEmpty.string_of_uint uint_value];
    [reflexivity|..];
    rewrite app_cons_str; cbn [Js.dec_digits];
    match goal with
    | |- context [Js.is_digit ?a] =>
        change (Js.is_digit a) with true; cbn match;
        cbn [default from_option]; unfold id
    end;
    match goal with
    | |- context [Js.digit_val ?a] =>
        let v := eval vm_compute in (Js.digit_val a) in
        change (Js.digit_val a) with v
    end;
    rewrite <- IH; do 2 f_equal; lia.
Qed.

Lemma uint_value_pos d : forall a,
  uint_value (Zpos a) d = Zpos (Pos.of_uint_acc d a).
Proof.
  induction d as [|d IH|d IH|d IH|d IH|d IH|d IH|d IH|d IH|d IH|d IH];
    intros a; cbn [uint_value Pos.of_uint_acc]; [reflexivity|..];
    rewrite <- IH; f_equal; lia.
Qed.

Lemma uint_value_0 d : uint_value 0 d = Z.of_N (Pos.of_uint d).
Proof.
  induction d as [|d IH|d IH|d IH|d IH|d IH|d IH|d IH|d IH|d IH|d IH];
    cbn [uint_value Pos.of_uint]; [reflexivity|exact IH|..];
    cbn [Z.mul Z.add Z.of_N]; apply uint_value_pos.
Qed.

(** [String(n)] for a natural number is a non-empty string of digits
    whose value is [n]. *)
Lemma string_of_number_digits n :
  0 <= n ->
  exists d,
    Js.string_of_number (Some n) = DecimalString.NilEmpty.string_of_uint d
    /\ d <> Decimal.Nil /\ uint_value 0 d = n.
Proof.
  intros Hn. unfold Js.string_of_number, Z.to_int.
  destruct n as [|p|p]; [| |lia].
  - exists (Decimal.D0 Decimal.Nil). repeat split. discriminate.
  - exists (Pos.to_uint p). cbn [DecimalString.NilZero.string_of_int].
    pose proof (DecimalPos.Unsigned.to_uint_nonnil p) as Hnn.
    split; [|split; [exact Hnn|]].
    + unfold DecimalString.NilZero.string_of_uint.
      destruct (Pos.to_uint p); [congruence|reflexivity..].
    + now rewrite uint_value_0, DecimalPos.Unsigned.of_to.
Qed.

Lemma string_of_uint_all_digits d :
  all_chars Js.is_digit (DecimalString.NilEmpty.string_of_uint d) = true.
Proof.
  induction d; cbn [DecimalString.NilEmpty.string_of_uint all_chars];
    [reflexivity|..];
    match goal with
    | |- context [Js.is_digit ?a] => change (Js.is_digit a) with true
    end; exact IHd.
Qed.

Lemma string_of_uint_nonempty d :
  d <> Decimal.Nil -> Js.is_empty (DecimalString.NilEmpty.string_of_uint d) = false.
Proof. destruct d; [congruence|reflexivity..]. Qed.

Lemma dec_digits_stop acc rest :
  match rest with EmptyString => true | String r _ => negb (Js.is_digit r) end = true ->
  Js.dec_digits acc rest = acc.
Proof.
  destruct rest as [|r rest]; [reflexivity|]. intros H. apply negb_true_iff in H.
  cbn [Js.dec_digits]. now rewrite H.
Qed.

(** [parseInt] reads back a printed natural number, whatever follows it
    (short of more digits, or of an [x] after a lone zero). *)
Lemma parseInt_string_of_number n rest :
  0 <= n -> ends_number rest = true ->
  Js.parseInt (Js.string_of_number (Some n) +:+ rest) = Some n.
Proof.
  intros Hn Hrest. destruct (string_of_number_digits n Hn) as (d & -> & Hd & Hv).
  pose proof (string_of_uint_all_digits d) as Hall.
  pose proof (string_of_uint_nonempty d Hd) as Hne.
  assert (Hstop : match rest with EmptyString => true
                                | String r _ => negb (Js.is_digit r) end = true).
  { destruct rest as [|r rest]; [reflexivity|]. cbn in Hrest.
    now apply andb_prop in Hrest as [? _]. }
  assert (Hdec : Js.dec_digits None (DecimalString.NilEmpty.string_of_uint d +:+ rest)
                 = Some n).
  { rewrite <- Hv, <- (dec_digits_stop (Some (uint_value 0 d)) rest Hstop),
      <- dec_digits_uint.
    destruct (DecimalString.NilEmpty.string_of_uint d) as [|a s]; [discriminate|].
    cbn [all_chars] in Hall. apply andb_prop in Hall as [Ha _].
    rewrite app_cons_str. cbn [Js.dec_digits]. now rewrite Ha. }
  unfold Js.parseInt, Js.parseInt_radix.
  destruct (DecimalString.NilEmpty.string_of_uint d) as [|a s] eqn:Es; [discriminate|].
  cbn [all_chars] in Hall. apply andb_prop in Hall as [Ha Hs].
  rewrite app_cons_str in *. cbn [Js.trimStart]. rewrite (digit_not_ws a Ha).
  pose proof (digit_bounds a Ha) as Ba.
  destruct (Nat.eqb_spec (Js.code a) 45); [lia|].
  destruct (Nat.eqb_spec (Js.code a) 43); [lia|].
  unfold Js.parse_magnitude. cbn [negb andb].
  destruct (s +:+ rest) as [|x t] eqn:Et; [exact Hdec|].
  assert (Hx : Js.is_x x = false).
  { destruct s as [|b s'].
    - rewrite app_nil_l_str in Et. subst rest. cbn in Hrest.
      apply andb_prop in Hrest as [_ Hx]. now apply negb_true_iff.
    - rewrite app_cons_str in Et. inversion Et; subst x t. cbn [all_chars] in Hs.
      apply andb_prop in Hs as [Hb _]. apply digit_bounds in Hb.
      unfold Js.is_x. destruct (Nat.eqb_spec (Js.code b) 120); [lia|].
      destruct (Nat.eqb_spec (Js.code b) 88); [lia|]. reflexivity. }
  rewrite Hx, andb_false_r. exact Hdec.
Qed.

Lemma all_digits_one_line s : all_chars Js.is_digit s = true -> one_line s = true.
Proof.
  unfold one_line. induction s as [|a s IH]; cbn [all_chars]; [reflexivity|].
  intros H. apply andb_prop in H as [Ha Hs]. rewrite IH by exact Hs.
  destruct (Js.is_line_terminator a) eqn:E; [|reflexivity].
  apply line_terminator_is_ws in E. rewrite (digit_not_ws a Ha) in E. discriminate.
Qed.

Lemma of_lines_single l : Stream.of_lines [l] = Wire.line l.
Proof. unfold Stream.of_lines. cbn. apply app_nil_r_str. Qed.

(** X12. The size the server sends is the size the caller gets. On a
    server with the SIZE feature, when the bytes [213 n CRLF] arrive for
    a natural number [n] of at most 2^53 written in decimal, the parser
    queues one reply and [getFileSize] returns exactly [n], having
    written [SIZE path]. (A larger size reaches the caller rounded to a
    double.) *)
Theorem getFileSize_returns_the_size_sent n path c :
  0 <= n <= 2 ^ 53 ->
  ready c = true -> SIZE (features c) = true ->
  responseBuffer c = [] -> commandBuffer c = EmptyString -> responseQueue c = [] ->
  getFileSize path
    (snd (onData (Wire.line ("213 " +:+ Js.string_of_number (Some n))) c))
  = (Ok (Some n), after ["SIZE " +:+ path] [] c).
Proof.
  intros [Hn _] Hr Hs Hb Hcb Hq.
  destruct (string_of_number_digits n Hn) as (d & Ed & Hd & _).
  pose proof (string_of_uint_all_digits d) as Hall.
  pose proof (onData_whole_reply [] "2" "1" "3" " " (Js.string_of_number (Some n)) c
                Hb (List.Forall_nil _) eq_refl eq_refl eq_refl eq_refl) as E.
  cbn [List.app map] in E. rewrite of_lines_single in E.
  change (Stream.final_line "2" "1" "3" " " (Js.string_of_number (Some n)))
    with ("213 " +:+ Js.string_of_number (Some n)) in E.
  rewrite E.
  2:{ unfold one_line. cbn [all_chars]. fold (one_line (Js.string_of_number (Some n))).
      rewrite Ed. now rewrite all_digits_one_line. }
  2:{ rewrite Ed. now apply string_of_uint_nonempty. }
  cbn [snd]. rewrite Hq, Hcb, app_nil_l_str, of_lines_single.
  rewrite getFileSize_cases.
  destruct c as [rd w rb cb q f conf dp li]. cbn in Hr, Hs, Hb, Hcb, Hq. subst.
  cbn -[Js.parseInt Js.string_of_number String.append].
  unfold Wire.line. rewrite parseInt_string_of_number by (exact Hn || reflexivity).
  rewrite Hs. change (Stream.code_of "2" "1" "3") with 213. reflexivity.
Qed.

Lemma getFileSize_returns_the_size_sent_witness :
  let c := set_features Wire.all_features fresh in
  0 <= 419616 <= 2 ^ 53
  /\ Wire.line ("213 " +:+ Js.string_of_number (Some 419616)) = Wire.line "213 419616"
  /\ getFileSize "/steam.dll"
       (snd (onData (Wire.line ("213 " +:+ Js.string_of_number (Some 419616))) c))
     = (Ok (Some 419616), after ["SIZE /steam.dll"] [] c).
Proof.
  intros c. assert (H : 0 <= 419616 <= 2 ^ 53) by (split; [lia|discriminate]).
  split; [exact H|]. split; [reflexivity|].
  exact (getFileSize_returns_the_size_sent 419616 "/steam.dll" c H
           eq_refl eq_refl eq_refl eq_refl eq_refl).
Defined.


(** *** The directory in the reply to PWD *)

Lemma plus_dot_step ml (k : cont) f p pv a s c :
  plus_loop (mtch ml dot) k (S f) (Cursor p pv (String a s)) c =
  if Js.is_line_terminator a then None
  else orelse (plus_loop (mtch ml dot) k f (Cursor (S p) (Some a) s) c)
         (k (Cursor (S p) (Some a) s) c).
Proof.
  cbn [plus_loop mtch dot rest pos].
  destruct (Js.is_line_terminator a); cbn [negb]; [reflexivity|].
  replace (p <? S p)%nat with true by (symmetry; apply Nat.ltb_lt; lia).
  reflexivity.
Qed.

(** [.+] in front of a continuation that fails wherever [.+] may stop. *)
Lemma plus_dot_none ml (k : cont) s : forall fuel p pv c,
  (forall n p' pv' c', (0 < n)%nat -> k (Cursor p' pv' (Js.drop n s)) c' = None) ->
  plus_loop (mtch ml dot) k fuel (Cursor p pv s) c = None.
Proof.
  induction s as [|a s IH]; intros fuel p pv c Hk;
    (destruct fuel as [|f]; [reflexivity|]); [reflexivity|].
  rewrite plus_dot_step.
  destruct (Js.is_line_terminator a); [reflexivity|].
  rewrite IH.
  - apply (Hk 1%nat). lia.
  - intros n p' pv' c' Hn. apply (Hk (S n)). lia.
Qed.

(** [.+] gives back characters until the continuation succeeds: when it
    succeeds right after [dir] and fails wherever [.+] may stop later, the
    match is the one after [dir]. *)
Lemma plus_dot_last ml (k : cont) tail r dir : forall fuel p pv c,
  Js.is_empty dir = false -> one_line dir = true ->
  (String.length (dir +:+ tail) < fuel)%nat ->
  (forall pv', k (Cursor (p + String.length dir) pv' tail) c = Some r) ->
  (forall n p' pv' c', (0 < n)%nat -> k (Cursor p' pv' (Js.drop n tail)) c' = None) ->
  plus_loop (mtch ml dot) k fuel (Cursor p pv (dir +:+ tail)) c = Some r.
Proof.
  induction dir as [|a dir IH]; intros fuel p pv c Hne Hol Hf Hok Hno; [discriminate|].
  destruct fuel as [|f]; [lia|].
  rewrite app_cons_str, plus_dot_step.
  unfold one_line in Hol. cbn [all_chars] in Hol. apply andb_prop in Hol as [Ha Hol].
  apply negb_true_iff in Ha. rewrite Ha.
  rewrite app_cons_str in Hf. cbn [String.length] in Hf.
  destruct dir as [|b dir].
  - rewrite app_nil_l_str in *.
    rewrite plus_dot_none by exact Hno.
    cbn [orelse]. cbn [String.length] in Hok.
    replace (S p) with (p + 1)%nat by lia. apply Hok.
  - rewrite (IH f (S p) (Some a) c); [reflexivity|reflexivity|exact Hol|lia| |exact Hno].
    intros pv'. cbn [String.length] in *.
    replace (S p + S (String.length dir))%nat with (p + S (S (String.length dir)))%nat
      by lia.
    apply Hok.
Qed.

Lemma drop_free c n : forall s, free_of c s = true -> free_of c (Js.drop n s) = true.
Proof.
  unfold free_of. induction n as [|n IH]; intros s H; [exact H|].
  destruct s as [|a s]; [reflexivity|]. cbn [Js.drop]. apply IH.
  cbn [all_chars] in H. now apply andb_prop in H as [_ H].
Qed.

Lemma free_head c s :
  free_of c s = true ->
  match s with String x _ => Ascii.eqb c x = false | EmptyString => True end.
Proof.
  destruct s as [|x s]; [exact (fun _ => I)|]. unfold free_of. cbn [all_chars].
  intros H. apply andb_prop in H as [H _]. now apply negb_true_iff.
Qed.

(** The part of [RE_PWD] after its group: the closing quote, then a space
    or the end of the text. *)
Lemma mtch_closing_quote_none (k : cont) p pv t c :
  match t with String x _ => Ascii.eqb Js.DQUOTE x = false | EmptyString => True end ->
  mtch false (Seq (chr Js.DQUOTE) (Alt (chr " ") Eol)) k (Cursor p pv t) c = None.
Proof.
  destruct t as [|x t]; intros H; cbn [mtch chr rest]; [reflexivity|]. now rewrite H.
Qed.

Lemma exec_RE_PWD_quoted dir more :
  Js.is_empty dir = false -> one_line dir = true ->
  free_of Js.DQUOTE more = true ->
  exists m,
    exec false RE_PWD (Wire.quoted dir +:+ String " " more) = Some m
    /\ group m 1 = Some dir.
Proof.
  intros Hne Hol Hfree.
  set (tail := String Js.DQUOTE (String " " more)).
  assert (Emsg : Wire.quoted dir +:+ String " " more = String Js.DQUOTE (dir +:+ tail)).
  { unfold Wire.quoted, tail. rewrite app_cons_str, app_assoc_str. reflexivity. }
  rewrite Emsg. unfold exec. cbn [search]. unfold RE_PWD at 1.
  cbn [mtch chr rest pos]. rewrite Ascii.eqb_refl.
  rewrite (plus_dot_last false _ tail
             (Cursor (1 + String.length dir + 2) (Some " "%char) more, [(1%nat, dir)])).
  - eexists. split; [reflexivity|]. cbn [group groups cap Nat.eqb]. reflexivity.
  - exact Hne.
  - exact Hol.
  - lia.
  - intros pv'. unfold tail. cbn [mtch chr rest pos orelse accept].
    rewrite Ascii.eqb_refl. cbn [Ascii.eqb]. cbn.
    rewrite Nat.sub_0_r, take_app_exact. unfold accept. do 3 f_equal. lia.
  - intros n p' pv' c' Hn. apply mtch_closing_quote_none.
    destruct n as [|n]; [lia|]. unfold tail. cbn [Js.drop].
    apply free_head. apply (drop_free Js.DQUOTE n (String " " more)).
    unfold free_of. cbn [all_chars]. exact Hfree.
Qed.

Lemma mtch_RE_PWD_needs_quote p pv t :
  match t with String x _ => Ascii.eqb Js.DQUOTE x = false | EmptyString => True end ->
  mtch false RE_PWD accept (Cursor p pv t) [] = None.
Proof.
  destruct t as [|x t]; intros H; unfold RE_PWD; cbn [mtch chr rest]; [reflexivity|].
  now rewrite H.
Qed.

Lemma search_RE_PWD_none t : forall p pv,
  (forall n p' pv', mtch false RE_PWD accept (Cursor p' pv' (Js.drop n t)) [] = None) ->
  search false RE_PWD p pv t = None.
Proof.
  induction t as [|x t IH]; intros p pv H; cbn [search];
    pose proof (H 0%nat p pv) as H0; cbn [Js.drop] in H0; rewrite H0; [reflexivity|].
  apply IH. intros n p' pv'. apply (H (S n)).
Qed.

(** After the closing quote nothing but the end of the line: no match at
    the quote that opens, none at the quote that closes, none elsewhere. *)
Lemma exec_RE_PWD_bare dir :
  free_of Js.DQUOTE dir = true ->
  exec false RE_PWD (Wire.quoted dir +:+ NEW_LINE) = None.
Proof.
  intros Hfree.
  set (tail := String Js.DQUOTE NEW_LINE).
  assert (Emsg : Wire.quoted dir +:+ NEW_LINE = String Js.DQUOTE (dir +:+ tail)).
  { unfold Wire.quoted, tail. rewrite app_cons_str, app_assoc_str. reflexivity. }
  rewrite Emsg. unfold exec.
  assert (Htail : forall n p pv,
            mtch false RE_PWD accept (Cursor p pv (Js.drop n tail)) [] = None).
  { intros [|[|[|[|n]]]] p pv; reflexivity. }
  assert (Hsuf : forall d, free_of Js.DQUOTE d = true -> forall n p pv,
            mtch false RE_PWD accept (Cursor p pv (Js.drop n (d +:+ tail))) [] = None).
  { induction d as [|x d IHd]; intros Hd n p pv.
    - rewrite app_nil_l_str. apply Htail.
    - rewrite app_cons_str. unfold free_of in Hd. cbn [all_chars] in Hd.
      apply andb_prop in Hd as [Hx Hd]. apply negb_true_iff in Hx.
      destruct n as [|n]; cbn [Js.drop]; [|now apply IHd].
      now apply mtch_RE_PWD_needs_quote. }
  cbn [search]. rewrite search_RE_PWD_none by (intros; now apply Hsuf).
  unfold RE_PWD. cbn [mtch chr rest pos]. rewrite Ascii.eqb_refl.
  rewrite plus_dot_none; [reflexivity|].
  intros n p' pv' c' Hn.
  assert (Hk : forall d, free_of Js.DQUOTE d = true -> forall n p pv c,
            mtch false (Seq (chr Js.DQUOTE) (Alt (chr " ") Eol)) accept
              (Cursor p pv (Js.drop n (d +:+ tail))) c = None).
  { induction d as [|x d IHd]; intros Hd m p pv c.
    - rewrite app_nil_l_str. destruct m as [|[|[|[|m]]]]; reflexivity.
    - rewrite app_cons_str. unfold free_of in Hd. cbn [all_chars] in Hd.
      apply andb_prop in Hd as [Hx Hd]. apply negb_true_iff in Hx.
      destruct m as [|m]; cbn [Js.drop]; [|now apply IHd].
      now apply mtch_closing_quote_none. }
  cbn beta. now apply Hk.
Qed.

(** X13. [getCurrentDirectory] returns the text between the first double
    quote of the reply to [PWD] and the last double quote that a space
    follows: for a reply whose text is a quoted, non-empty directory, a
    space and a remainder without double quotes, the result is that
    directory as it stands (double quotes inside it are not unescaped).
    When the line ends right after the closing quote the expression does
    not match, and the command fails with a [TypeError] instead of
    returning the directory. *)
Theorem getCurrentDirectory_reads_the_quoted_path dir c r q :
  ready c = true ->
  responseQueue c = r :: q ->
  code r < 300 ->
  Js.is_empty dir = false -> one_line dir = true ->
  (forall more,
     free_of Js.DQUOTE more = true ->
     message r = Wire.quoted dir +:+ String " " more ->
     getCurrentDirectory c = (Ok (Some dir), after ["PWD"] q c))
  /\ (free_of Js.DQUOTE dir = true ->
      message r = Wire.quoted dir +:+ NEW_LINE ->
      exists e,
        getCurrentDirectory c = (Throw e, after ["PWD"] q c) /\ cls e = TypeError).
Proof.
  destruct c as [rd w rb cb q0 f conf dp li]. cbn [ready responseQueue].
  intros -> -> Hc Hne Hol.
  assert (Hc' : (300 <=? code r) = false) by (apply Z.leb_gt; lia).
  unfold getCurrentDirectory, PwdCommand.
  split.
  - intros more Hfree Hm.
    destruct (exec_RE_PWD_quoted dir more Hne Hol Hfree) as (m & Em & Hg).
    unfold after. unfold_monad. conn_simpl. rewrite Hc', Hm, Em, Hg.
    destruct dir; [discriminate|]. reflexivity.
  - intros Hfree Hm. unfold after. unfold_monad. conn_simpl.
    rewrite Hc', Hm, (exec_RE_PWD_bare dir Hfree).
    eexists. split; reflexivity.
Qed.

Lemma getCurrentDirectory_reads_the_quoted_path_witness :
  let r := mkResponse 257 (Wire.quoted "/pub/new dir" +:+ " is current directory."
                             +:+ NEW_LINE) in
  let c := set_responseQueue [r] fresh in
  ready c = true /\ code r < 300
  /\ Js.is_empty "/pub/new dir" = false /\ one_line "/pub/new dir" = true
  /\ free_of Js.DQUOTE ("is current directory." +:+ NEW_LINE) = true
  /\ getCurrentDirectory c = (Ok (Some "/pub/new dir"), after ["PWD"] [] c).
Proof.
  intros r c. assert (Hc : code r < 300) by reflexivity.
  repeat (split; [reflexivity || exact Hc|]).
  apply (proj1 (getCurrentDirectory_reads_the_quoted_path "/pub/new dir" c r []
                  eq_refl eq_refl Hc eq_refl eq_refl)
           ("is current directory." +:+ NEW_LINE)); reflexivity.
Defined.

End ReplyProofs.

(** ** The data connection beyond the first buffer *)

Module TransferProofs.
Import Definitions Connection ReplyGrammar Transfer ParserProofs DataProofs.

Lemma take_take n s : Js.take n (Js.take n s) = Js.take n s.
Proof.
  revert s. induction n as [|n IH]; intros [|a s]; cbn [Js.take]; try reflexivity.
  now rewrite IH.
Qed.

Lemma read_onData_holds st capacity copied buffer :
  filled st capacity copied ->
  if (capacity <? String.length copied + String.length buffer)%nat
  then filled (read_onData st buffer) (capacity * 2) copied
  else filled (read_onData st buffer) capacity (copied +:+ buffer).
Proof.
  intros (Hlen & Hm & Hle & Ht). unfold read_onData. rewrite Hlen, Hm.
  destruct (Nat.ltb_spec capacity (String.length copied + String.length buffer))
    as [Hlt|Hfit]; unfold filled; cbn [marker result]; unfold copy.
  - rewrite !Nat.sub_0_r, length_alloc. cbn [Js.drop Js.take Nat.add].
    rewrite app_nil_l_str.
    rewrite (Nat.min_l (String.length copied)) by lia.
    rewrite <- Hm, Ht.
    repeat split.
    + rewrite length_app_str, length_drop, length_alloc. lia.
    + lia.
    + rewrite Hm. apply take_app_exact.
  - rewrite Nat.sub_0_r. cbn [Js.drop].
    rewrite (Nat.min_l (String.length buffer)) by lia.
    rewrite (take_all _ buffer) by lia. rewrite <- Hm, Ht.
    repeat split.
    + rewrite !length_app_str, length_drop. lia.
    + rewrite length_app_str. lia.
    + lia.
    + rewrite Hm, <- length_app_str, <- app_assoc_str. apply take_app_exact.
Qed.

Lemma fold_read_onData_holds chunks : forall st capacity copied,
  filled st capacity copied ->
  exists capacity',
    filled (fold_left read_onData chunks st) capacity'
      (copied +:+ stream_of (kept capacity (String.length copied) chunks)).
Proof.
  induction chunks as [|b chunks IH]; intros st capacity copied H.
  - exists capacity. cbn. now rewrite app_nil_r_str.
  - cbn [fold_left kept]. pose proof (read_onData_holds st capacity copied b H) as Hb.
    destruct (capacity <? String.length copied + String.length b)%nat.
    + apply (IH _ _ _ Hb).
    + destruct (IH _ _ _ Hb) as (cap' & H'). exists cap'.
      cbn [stream_of fold_right]. fold (stream_of (kept capacity
        (String.length copied + String.length b) chunks)).
      rewrite length_app_str in H'. now rewrite <- app_assoc_str.
Qed.

Lemma read_onEnd_copied st capacity copied :
  filled st capacity copied -> read_onEnd st = copied.
Proof.
  intros (Hlen & Hm & Hle & Ht). unfold read_onEnd, copy.
  rewrite !Nat.sub_0_r, length_alloc, Nat.min_id. cbn [Js.drop Js.take Nat.add].
  rewrite Ht, app_nil_l_str.
  rewrite drop_all by (rewrite length_alloc; lia).
  apply app_nil_r_str.
Qed.

Lemma length_stream_cons b chunks :
  String.length (stream_of (b :: chunks))
  = (String.length b + String.length (stream_of chunks))%nat.
Proof. cbn [stream_of fold_right]. apply length_app_str. Qed.

Lemma kept_no_more chunks : forall capacity marker,
  (String.length (stream_of (kept capacity marker chunks))
   <= String.length (stream_of chunks))%nat.
Proof.
  induction chunks as [|b chunks IH]; intros capacity marker; [reflexivity|].
  cbn [kept]. destruct (capacity <? marker + String.length b)%nat;
    rewrite ?length_stream_cons.
  - specialize (IH (capacity * 2)%nat marker). lia.
  - specialize (IH capacity (marker + String.length b)%nat). lia.
Qed.

Lemma kept_all chunks : forall capacity marker,
  (marker + String.length (stream_of chunks) <= capacity)%nat ->
  kept capacity marker chunks = chunks.
Proof.
  induction chunks as [|b chunks IH]; intros capacity marker H; [reflexivity|].
  rewrite length_stream_cons in H. cbn [kept].
  destruct (Nat.ltb_spec capacity (marker + String.length b)); [lia|].
  rewrite IH by lia. reflexivity.
Qed.

Lemma kept_loses chunks : forall capacity marker,
  (marker <= capacity)%nat ->
  (capacity < marker + String.length (stream_of chunks))%nat ->
  (String.length (stream_of (kept capacity marker chunks))
   < String.length (stream_of chunks))%nat.
Proof.
  induction chunks as [|b chunks IH]; intros capacity marker Hm H.
  - cbn in H. lia.
  - rewrite length_stream_cons in H. cbn [kept].
    destruct (Nat.ltb_spec capacity (marker + String.length b)) as [Hlt|Hfit];
      rewrite ?length_stream_cons.
    + pose proof (kept_no_more chunks (capacity * 2) marker). lia.
    + specialize (IH capacity (marker + String.length b)%nat). lia.
Qed.

(** X14. What [readToEnd] of the build under [lib/] returns, for every
    sequence of chunks. (The [data] listener is the same in
    [connection.ts], but there the listener that ends the reading fails
    on [this.dispose()] and the promise never settles.) A chunk that fits
    the buffer is copied; a chunk that does not fit is left out and only
    doubles the buffer. The result is the concatenation of the chunks
    copied, in order. So the listing is complete exactly when the whole
    stream is at most 1024 bytes long; any longer stream comes back
    shorter than it was sent. A socket error rejects the promise. *)
Theorem readToEnd_returns_the_chunks_that_fitted peer :
  (ends_cleanly peer = false -> exists e, readToEnd peer = Throw e)
  /\ (ends_cleanly peer = true ->
      readToEnd peer = Ok (stream_of (kept chunkSize 0 (chunks peer)))
      /\ ((String.length (stream_of (chunks peer)) <= chunkSize)%nat ->
          readToEnd peer = Ok (stream_of (chunks peer)))
      /\ ((chunkSize < String.length (stream_of (chunks peer)))%nat ->
          exists bytes,
            readToEnd peer = Ok bytes
            /\ (String.length bytes < String.length (stream_of (chunks peer)))%nat)).
Proof.
  unfold readToEnd. split; intros He; rewrite He; [eexists; reflexivity|].
  assert (E : read_onEnd (fold_left read_onData (chunks peer) read_init)
              = stream_of (kept chunkSize 0 (chunks peer))).
  { destruct (fold_read_onData_holds (chunks peer) read_init chunkSize EmptyString)
      as (cap & H).
    - unfold filled, read_init. cbn [marker result String.length].
      split; [apply length_alloc|]. split; [reflexivity|]. split; [lia|reflexivity].
    - rewrite app_nil_l_str in H. cbn [String.length] in H.
      apply (read_onEnd_copied _ _ _ H). }
  rewrite E. split; [reflexivity|]. split.
  - intros Hfit. now rewrite kept_all.
  - intros Hbig. eexists. split; [reflexivity|]. apply kept_loses; lia.
Qed.

Lemma readToEnd_returns_the_chunks_that_fitted_witness :
  let whole := Scenario.peer ["type=dir; "; "foo"] in
  let long := Scenario.peer [alloc 1000; "type=dir; "; alloc 100] in
  readToEnd whole = Ok "type=dir; foo"
  /\ readToEnd long = Ok (stream_of (kept chunkSize 0 (chunks long)))
  /\ kept chunkSize 0 (chunks long) = [alloc 1000; "type=dir; "]
  /\ exists e, readToEnd (mkPeer true ["foo"] false) = Throw e.
Proof.
  intros whole long.
  assert (Hfit : (String.length (stream_of (chunks whole)) <= chunkSize)%nat)
    by (vm_compute; lia).
  split; [|split; [|split]].
  - exact (proj1 (proj2 (proj2 (readToEnd_returns_the_chunks_that_fitted whole) eq_refl))
             Hfit).
  - exact (proj1 (proj2 (readToEnd_returns_the_chunks_that_fitted long) eq_refl)).
  - vm_compute. reflexivity.
  - exact (proj1 (readToEnd_returns_the_chunks_that_fitted (mkPeer true ["foo"] false))
             eq_refl).
Defined.

End TransferProofs.

(** ** Listings in the MLSD format *)

Module ListingProofs.
Import Regex Expressions ReplyGrammar Exceptions Definitions Connection Commands.
Import FtpClient Outcome Text Listing.
Import ParserProofs DataProofs ClientProofs CommandProofs ReplyProofs.

Lemma all_chars_app p a b :
  all_chars p (a +:+ b) = all_chars p a && all_chars p b.
Proof.
  induction a as [|x a IH]; [reflexivity|].
  rewrite app_cons_str. cbn [all_chars]. now rewrite IH, andb_assoc.
Qed.

Lemma digits_free c s :
  Js.is_digit c = false -> all_chars Js.is_digit s = true -> free_of c s = true.
Proof.
  intros Hc. unfold free_of. induction s as [|a s IH]; cbn [all_chars]; [reflexivity|].
  intros H. apply andb_prop in H as [Ha Hs]. rewrite IH by exact Hs.
  destruct (Ascii.eqb_spec c a) as [->|]; [congruence|reflexivity].
Qed.

Lemma string_of_number_all_digits n :
  0 <= n -> all_chars Js.is_digit (Js.string_of_number (Some n)) = true.
Proof.
  intros Hn. destruct (string_of_number_digits n Hn) as (d & -> & _ & _).
  apply string_of_uint_all_digits.
Qed.

Lemma string_of_number_nonempty n :
  0 <= n -> Js.is_empty (Js.string_of_number (Some n)) = false.
Proof.
  intros Hn. destruct (string_of_number_digits n Hn) as (d & -> & Hd & _).
  now apply string_of_uint_nonempty.
Qed.

(** The rows of a line: its facts and, last, a space and the name. *)
Lemma rows_of_mlsd_line i :
  well_formed i = true ->
  Js.split_char RE_SEP (mlsd_line i)
  = ["type=" +:+ kind i; "modify=" +:+ stamp i]
      ++ match size i with
         | Some n => ["size=" +:+ Js.string_of_number (Some n)]
         | None => []
         end
      ++ [" " +:+ name i].
Proof.
  unfold well_formed, mlsd_line, size_fact, RE_SEP. intros H.
  repeat (apply andb_prop in H as [H ?]).
  assert (Hname : Js.split_char ";" (" " +:+ name i) = [" " +:+ name i]).
  { apply split_char_free. unfold free_of. cbn [all_chars]. assumption. }
  assert (Hstamp : free_of ";" ("modify=" +:+ stamp i) = true).
  { unfold free_of. rewrite all_chars_app. cbn [andb].
    apply (digits_free ";"); [reflexivity|assumption]. }
  assert (Hkind : free_of ";" ("type=" +:+ kind i) = true).
  { unfold free_of. rewrite all_chars_app. cbn [andb]. assumption. }
  rewrite <- (app_assoc_str "type=" (kind i)).
  change (";modify=" +:+ ?x) with (String ";" ("modify=" +:+ x)).
  rewrite (split_char_first ";" _ _ Hkind).
  destruct (size i) as [n|].
  - rewrite <- (app_assoc_str "modify=" (stamp i)).
    rewrite (app_assoc_str ";size=").
    change (";size=" +:+ ?x) with (String ";" ("size=" +:+ x)).
    rewrite (split_char_first ";" _ _ Hstamp).
    rewrite <- (app_assoc_str "size=" (Js.string_of_number (Some n))).
    change ("; " +:+ ?x) with (String ";" (" " +:+ x)).
    rewrite split_char_first, Hname; [reflexivity|].
    unfold free_of. rewrite all_chars_app. cbn [andb].
    apply (digits_free ";"); [reflexivity|].
    apply string_of_number_all_digits. now apply Z.leb_le.
  - rewrite app_nil_l_str, <- (app_assoc_str "modify=" (stamp i)).
    change ("; " +:+ ?x) with (String ";" (" " +:+ x)).
    now rewrite (split_char_first ";" _ _ Hstamp), Hname.
Qed.


Lemma truthy_nonempty s :
  Js.is_empty s = false -> truthy_value (Some (VString s)) = true.
Proof. now destruct s. Qed.

(** Decides the lookups in an entry under construction and the tests on
    what they find. *)
Ltac resolve_lookups :=
  repeat first
    [ rewrite lookup_insert_eq
    | rewrite lookup_insert_ne by discriminate
    | rewrite lookup_empty
    | rewrite truthy_nonempty by assumption
    | match goal with H : Js.parseInt _ = Some _ |- _ => rewrite H end
    | progress cbn [string_of_value truthy_value]
    | progress lazy beta match ].

(** One line of the listing becomes the entry of its item. *)
Lemma mlsd_entry_of_line i :
  well_formed i = true ->
  mlsd_entry (Js.split_char RE_SEP (mlsd_line i)) = entry_of i.
Proof.
  intros Hwf. rewrite (rows_of_mlsd_line i Hwf).
  unfold well_formed in Hwf. repeat (apply andb_prop in Hwf as [Hwf ?]).
  assert (Hstamp : Js.is_empty (stamp i) = false) by now apply negb_true_iff.
  assert (Etype : Js.split_char RE_EQ ("type=" +:+ kind i) = ["type"; kind i]).
  { change ("type=" +:+ kind i) with ("type" +:+ String "=" (kind i)).
    rewrite split_char_first by reflexivity. now rewrite split_char_free. }
  assert (Emod : Js.split_char RE_EQ ("modify=" +:+ stamp i) = ["modify"; stamp i]).
  { change ("modify=" +:+ stamp i) with ("modify" +:+ String "=" (stamp i)).
    rewrite split_char_first by reflexivity.
    rewrite split_char_free; [reflexivity|]. now apply (digits_free "="). }
  unfold mlsd_entry, entry_of.
  destruct (size i) as [n|].
  - assert (Hn : 0 <= n) by now apply Z.leb_le.
    assert (Esize : Js.split_char RE_EQ ("size=" +:+ Js.string_of_number (Some n))
                    = ["size"; Js.string_of_number (Some n)]).
    { change ("size=" +:+ ?x) with ("size" +:+ String "=" x).
      rewrite split_char_first by reflexivity.
      rewrite split_char_free; [reflexivity|].
      apply (digits_free "="); [reflexivity|now apply string_of_number_all_digits]. }
    assert (Hparse : Js.parseInt (Js.string_of_number (Some n)) = Some n).
    { rewrite <- (app_nil_r_str (Js.string_of_number (Some n))).
      now apply parseInt_string_of_number. }
    assert (Hdec : Js.is_empty (Js.string_of_number (Some n)) = false)
      by now apply string_of_number_nonempty.
    cbn [List.app Js.pop last removelast fold_left Js.str_of_undefined].
    rewrite !Etype, !Emod, !Esize. cbn [lookup list_lookup Js.str_of_undefined].
    change (Js.toLowerCase "type") with "type".
    change (Js.toLowerCase "modify") with "modify".
    change (Js.toLowerCase "size") with "size".
    change (Js.substr_from 1 (" " +:+ name i)) with (name i).
    resolve_lookups.
    rewrite insert_insert_eq.
    rewrite (insert_insert_ne _ "modify" "size") by discriminate.
    rewrite insert_insert_eq. reflexivity.
  - cbn [List.app Js.pop last removelast fold_left Js.str_of_undefined].
    rewrite !Etype, !Emod. cbn [lookup list_lookup Js.str_of_undefined].
    change (Js.toLowerCase "type") with "type".
    change (Js.toLowerCase "modify") with "modify".
    change (Js.substr_from 1 (" " +:+ name i)) with (name i).
    resolve_lookups.
    rewrite insert_insert_eq. reflexivity.
Qed.

Lemma parse_listing_of_lines items :
  Forall (fun i => well_formed i = true) items ->
  parse_listing true (map mlsd_line items) = map entry_of items.
Proof.
  induction 1 as [|i items Hi _ IH]; [reflexivity|].
  unfold parse_listing in *. cbn [map flat_map List.app].
  now rewrite IH, mlsd_entry_of_line.
Qed.

Lemma one_line_mlsd_line i :
  well_formed i = true ->
  one_line (mlsd_line i) = true /\ Js.is_empty (mlsd_line i) = false.
Proof.
  intros Hwf. split; [|reflexivity].
  unfold well_formed in Hwf. repeat (apply andb_prop in Hwf as [Hwf ?]).
  assert (Hs : one_line (stamp i) = true) by now apply all_digits_one_line.
  assert (Hz : one_line (size_fact i) = true).
  { unfold size_fact. destruct (size i) as [n|]; [|reflexivity].
    unfold one_line. rewrite all_chars_app. apply andb_true_intro. split; [reflexivity|].
    apply all_digits_one_line, string_of_number_all_digits. now apply Z.leb_le. }
  unfold mlsd_line. unfold one_line in *. rewrite !all_chars_app.
  repeat (apply andb_true_intro; split); (reflexivity || assumption).
Qed.

(** The lines that [FtpListCommand] reads out of the bytes of a listing. *)
Lemma lines_of_listing ls :
  Forall (fun l => one_line l = true /\ Js.is_empty l = false) ls ->
  List.filter (fun l => negb (Js.is_empty l)) (Js.split NEW_LINE (Stream.of_lines ls))
  = ls.
Proof.
  induction 1 as [|l ls [Hol Hne] _ IH]; [reflexivity|].
  rewrite of_lines_cons, split_NEW_LINE_app, List.filter_app, IH.
  rewrite split_one_line by exact Hol. cbn [List.filter]. now rewrite Hne.
Qed.


(** *** The port in the reply to EPSV *)

Lemma plus_digit_step ml (k : cont) f p pv a s c :
  plus_loop (mtch ml digit) k (S f) (Cursor p pv (String a s)) c =
  if Js.is_digit a
  then orelse (plus_loop (mtch ml digit) k f (Cursor (S p) (Some a) s) c)
         (k (Cursor (S p) (Some a) s) c)
  else None.
Proof.
  cbn [plus_loop mtch digit Regex.rest pos].
  destruct (Js.is_digit a); [|reflexivity].
  replace (p <? S p)%nat with true by (symmetry; apply Nat.ltb_lt; lia).
  reflexivity.
Qed.

Lemma plus_digit_stop ml (k : cont) fuel p pv post c :
  stops_digits post = true ->
  plus_loop (mtch ml digit) k fuel (Cursor p pv post) c = None.
Proof.
  intros H. destruct fuel as [|f]; [reflexivity|].
  destruct post as [|r post]; [reflexivity|].
  rewrite plus_digit_step. cbn in H. apply negb_true_iff in H. now rewrite H.
Qed.

(** [\d+] in front of a continuation that always succeeds takes the whole
    run of digits. *)
Lemma plus_digit_run ml (k : cont) post ds :
  (forall j c, k j c <> None) ->
  stops_digits post = true ->
  forall fuel p pv c,
    Js.is_empty ds = false -> all_chars Js.is_digit ds = true ->
    (String.length (ds +:+ post) < fuel)%nat ->
    exists pv',
      plus_loop (mtch ml digit) k fuel (Cursor p pv (ds +:+ post)) c
      = k (Cursor (p + String.length ds) pv' post) c.
Proof.
  intros Hk Hpost. induction ds as [|a ds IH]; intros fuel p pv c Hne Hall Hf;
    [discriminate|].
  destruct fuel as [|f]; [lia|].
  cbn [all_chars] in Hall. apply andb_prop in Hall as [Ha Hall].
  rewrite app_cons_str in *. cbn [String.length] in Hf.
  rewrite plus_digit_step, Ha.
  destruct ds as [|b ds].
  - rewrite app_nil_l_str in *. rewrite plus_digit_stop by exact Hpost.
    cbn [orelse String.length]. exists (Some a).
    now replace (p + 1)%nat with (S p) by lia.
  - destruct (IH f (S p) (Some a) c eq_refl Hall) as (pv' & E); [lia|].
    rewrite E. exists pv'. cbn [String.length] in *.
    replace (p + S (S (String.length ds)))%nat
      with (S p + S (String.length ds))%nat by lia.
    unfold orelse. destruct (k _ c) eqn:Ek; [reflexivity|]. now apply Hk in Ek.
Qed.

Lemma search_RE_EPSV pre ds post :
  Js.is_empty ds = false -> all_chars Js.is_digit ds = true ->
  stops_digits post = true ->
  forall p pv,
    digit_free pre = true ->
    exists j c,
      search false RE_EPSV p pv (pre +:+ ds +:+ post)
      = Some ((p + String.length pre)%nat, j, c)
      /\ pos j = (p + String.length pre + String.length ds)%nat.
Proof.
  intros Hne Hall Hpost. unfold digit_free.
  induction pre as [|a pre IH]; intros p pv Hpre.
  - rewrite app_nil_l_str. unfold RE_EPSV.
    destruct (plus_digit_run false
                (fun j c' => accept j ((1%nat, Js.take (pos j - p) (ds +:+ post)) :: c'))
                post ds (fun j c => accept_total j _) Hpost
                (S (String.length (ds +:+ post))) p pv [] Hne Hall) as (pv' & E); [lia|].
    destruct ds as [|d ds]; [discriminate|]. rewrite app_cons_str in *.
    cbn [search mtch Regex.rest pos]. cbn [search mtch Regex.rest pos] in E.
    rewrite E. unfold accept. cbn [String.length]. rewrite !Nat.add_0_r.
    do 2 eexists. split; [reflexivity|]. cbn [pos String.length]. lia.
  - cbn [all_chars] in Hpre. apply andb_prop in Hpre as [Ha Hpre].
    apply negb_true_iff in Ha. rewrite app_cons_str.
    cbn [search]. unfold RE_EPSV at 1.
    cbn [mtch Regex.rest pos String.length]. rewrite plus_digit_step, Ha.
    destruct (IH (S p) (Some a) Hpre) as (j & c & E & Hj).
    rewrite E. exists j, c. cbn [String.length].
    replace (p + S (String.length pre))%nat with (S p + String.length pre)%nat by lia.
    split; [reflexivity|]. lia.
Qed.

(** [RE_EPSV.exec] finds the first run of digits of the text. *)
Lemma exec_RE_EPSV pre ds post :
  digit_free pre = true ->
  Js.is_empty ds = false -> all_chars Js.is_digit ds = true ->
  stops_digits post = true ->
  exists m, exec false RE_EPSV (pre +:+ ds +:+ post) = Some m /\ whole m = ds.
Proof.
  intros Hpre Hne Hall Hpost. unfold exec.
  destruct (search_RE_EPSV pre ds post Hne Hall Hpost 0 None Hpre) as (j & c & E & Hj).
  rewrite E. eexists. split; [reflexivity|]. cbn [whole Nat.add] in *.
  rewrite Hj, drop_app_exact.
  replace (String.length pre + String.length ds - String.length pre)%nat
    with (String.length ds) by lia.
  apply take_app_exact.
Qed.


(** *** The passive mode *)

(** What [FtpPassiveModeCommand] reads out of a reply whose text has a
    number: that number. *)
Lemma exec_RE_EPSV_port pre port post r :
  message r = pre +:+ Js.string_of_number (Some port) +:+ post ->
  digit_free pre = true -> 0 <= port -> stops_digits post = true ->
  exists m,
    Regex.exec false RE_EPSV (message r) = Some m
    /\ Js.parseInt (whole m) = Some port.
Proof.
  intros Hmsg Hpre Hp0 Hpost.
  destruct (exec_RE_EPSV pre (Js.string_of_number (Some port)) post Hpre
              (string_of_number_nonempty port Hp0)
              (string_of_number_all_digits port Hp0) Hpost) as (m & Em & Hm).
  exists m. rewrite Hmsg. split; [exact Em|].
  rewrite Hm, <- (app_nil_r_str (Js.string_of_number (Some port))).
  now apply parseInt_string_of_number.
Qed.

(** [EPSV] answered with a port, and a data connection that is accepted. *)
Lemma FtpPassiveModeCommand_opens pre port post c r1 q peer peers :
  ready c = true ->
  Js.is_empty (host (configuration c)) = false ->
  responseQueue c = r1 :: q ->
  message r1 = pre +:+ Js.string_of_number (Some port) +:+ post ->
  digit_free pre = true -> 0 < port <= 65535 -> stops_digits post = true ->
  dataPeers c = peer :: peers -> accepts peer = true ->
  send FtpPassiveModeCommand c = (Ok peer, set_dataPeers peers (after ["EPSV"] q c)).
Proof.
  destruct c as [rd w rb cb q0 f conf dp li].
  cbn [ready features configuration responseQueue dataPeers].
  intros -> Hhost -> Hmsg Hpre Hport Hpost -> Hacc.
  destruct (exec_RE_EPSV_port pre port post r1 Hmsg Hpre ltac:(lia) Hpost)
    as (m & Em & Hparse).
  unfold FtpPassiveModeCommand, open_data_connection.
  unfold after. unfold_monad. conn_simpl.
  rewrite Em. conn_simpl. rewrite Hhost, Hparse.
  replace (port <=? 0) with false by (symmetry; apply Z.leb_gt; lia).
  replace (65535 <? port) with false by (symmetry; apply Z.ltb_ge; lia).
  conn_simpl. rewrite Hacc. reflexivity.
Qed.



(** *** Listings *)

Lemma has_type_entry_of t i : has_type t (entry_of i) = String.eqb (kind i) t.
Proof.
  unfold has_type, entry_of. destruct (size i);
    rewrite ?lookup_insert_ne by discriminate; now rewrite lookup_insert_eq.
Qed.

Lemma filter_entries t items :
  List.filter (has_type t) (map entry_of items)
  = map entry_of (List.filter (fun i => String.eqb (kind i) t) items).
Proof.
  induction items as [|i items IH]; [reflexivity|].
  cbn [map List.filter]. rewrite has_type_entry_of, IH.
  now destruct (String.eqb (kind i) t).
Qed.

(** The listing command on a server that answers [EPSV] with a port,
    accepts the data connection, opens the transfer with 150 and sends a
    listing of well-formed lines that fits the first buffer. *)
Lemma FtpListCommand_mlsd path pre port post items c r1 r2 q peer peers :
  ready c = true -> MLSD (features c) = true ->
  Js.is_empty (host (configuration c)) = false ->
  responseQueue c = r1 :: r2 :: q ->
  message r1 = pre +:+ Js.string_of_number (Some port) +:+ post ->
  digit_free pre = true -> 0 < port <= 65535 -> stops_digits post = true ->
  code r2 = 150 ->
  dataPeers c = peer :: peers -> accepts peer = true -> ends_cleanly peer = true ->
  stream_of (chunks peer) = Stream.of_lines (map mlsd_line items) ->
  (String.length (stream_of (chunks peer)) <= chunkSize)%nat ->
  Forall (fun i => well_formed i = true) items ->
  Js.is_empty (Js.trim path) = false ->
  send (FtpListCommand (Some path)) c
  = (Ok (map entry_of items),
     set_dataPeers peers (after ["EPSV"; "MLSD " +:+ path] q c)).
Proof.
  destruct c as [rd w rb cb q0 f conf dp li].
  cbn [ready features configuration responseQueue dataPeers].
  intros -> Hmlsd Hhost -> Hmsg Hpre Hport Hpost H150 -> Hacc Hend Hdata Hfit Hwf Hpath.
  assert (Hp0 : 0 <= port) by lia.
  destruct (exec_RE_EPSV pre (Js.string_of_number (Some port)) post Hpre
              (string_of_number_nonempty port Hp0)
              (string_of_number_all_digits port Hp0) Hpost) as (m & Em & Hm).
  assert (Hparse : Js.parseInt (whole m) = Some port).
  { rewrite Hm, <- (app_nil_r_str (Js.string_of_number (Some port))).
    now apply parseInt_string_of_number. }
  assert (Hread : readToEnd peer = Ok (Stream.of_lines (map mlsd_line items))).
  { destruct peer as [a ch e]. cbn in Hacc, Hend, Hdata, Hfit. subst a e.
    rewrite <- Hdata. now apply readToEnd_within_first_buffer. }
  assert (Hlines : List.filter (fun l => negb (Js.is_empty l))
                     (Js.split NEW_LINE (Stream.of_lines (map mlsd_line items)))
                   = map mlsd_line items).
  { apply lines_of_listing. apply List.Forall_map.
    eapply List.Forall_impl; [|exact Hwf]. intros i Hi. now apply one_line_mlsd_line. }
  assert (Hp : negb (Js.is_empty path) && negb (Js.is_empty (Js.trim path)) = true).
  { rewrite Hpath. now destruct path. }
  unfold FtpListCommand, FtpPassiveModeCommand, open_data_connection.
  rewrite Hp. unfold after. unfold_monad. conn_simpl.
  rewrite <- Hmsg in Em. rewrite Em. conn_simpl. rewrite Hhost, Hparse.
  replace (port <=? 0) with false by (symmetry; apply Z.leb_gt; lia).
  replace (65535 <? port) with false by (symmetry; apply Z.ltb_ge; lia).
  conn_simpl. rewrite Hacc. conn_simpl. rewrite Hmlsd. conn_simpl.
  replace (code r2 =? 150) with true by (symmetry; now apply Z.eqb_eq).
  cbn [negb]. rewrite Hread, Hlines, parse_listing_of_lines by exact Hwf.
  cbn [map]. unfold Wire.line. rewrite <- !List.app_assoc. reflexivity.
Qed.



End ListingProofs.

(** ** Listings in the Unix format *)

Module UnixListingProofs.
Import Regex Definitions ParseList Text.
Import ParserProofs CommandProofs ReplyProofs ListingProofs.

Lemma trimEnd_idem s : Js.trimEnd (Js.trimEnd s) = Js.trimEnd s.
Proof.
  induction s as [|a s IH]; [reflexivity|]. cbn [Js.trimEnd].
  destruct (Js.is_empty (Js.trimEnd s) && Js.is_ws a) eqn:E; [reflexivity|].
  cbn [Js.trimEnd]. now rewrite IH, E.
Qed.

Lemma trimStart_trimEnd s :
  match s with String a _ => Js.is_ws a = false | EmptyString => True end ->
  Js.trimStart (Js.trimEnd s) = Js.trimEnd s.
Proof.
  destruct s as [|a s]; [reflexivity|]. intros Ha. cbn [Js.trimEnd].
  rewrite Ha, andb_false_r. cbn [Js.trimStart]. now rewrite Ha.
Qed.

(** [trim] is idempotent. *)
Lemma trim_idem s : Js.trim (Js.trim s) = Js.trim s.
Proof.
  unfold Js.trim. rewrite trimStart_trimEnd by apply trimStart_head.
  apply trimEnd_idem.
Qed.

Lemma entry_type_values t :
  In (entry_type t) ["dir"; "symlinc"; "file"; "unknown"].
Proof.
  unfold entry_type. destruct t as [|c t]; [cbn; auto|].
  destruct (Ascii.eqb c "d"); [cbn; auto|].
  destruct (Ascii.eqb c "e" || Ascii.eqb c "l"); [cbn; auto|].
  destruct (Ascii.eqb c "b" || Ascii.eqb c "f" || Ascii.eqb c "-"); cbn; auto.
Qed.

(** X16. What [parseListLine] returns. It answers [undefined] exactly for
    the lines that [testLine] refuses and for the entries [.] and [..].
    Every entry it returns has the four fields [name], [size], [modify]
    and [type] and no other; the name has no white space at either end
    and is neither [.] nor [..]; the type is one of [dir], [symlinc],
    [file] and [unknown]. *)
Theorem parseListLine_entries line :
  (parseListLine line = None <->
   testLine line = false
   \/ exists m, exec false RE_LINE line = Some m
                /\ (Js.trim (required m 21) = "." \/ Js.trim (required m 21) = ".."))
  /\ (forall e,
        parseListLine line = Some e ->
        testLine line = true
        /\ exists name size modify type,
             e = <["type" := VString type]>
                   (<["modify" := VDate modify]>
                      (<["size" := VNumber size]> (<["name" := VString name]> ∅)))
             /\ Js.trim name = name /\ name <> "." /\ name <> ".."
             /\ In type ["dir"; "symlinc"; "file"; "unknown"]).
Proof.
  unfold parseListLine, testLine.
  destruct (exec false RE_LINE line) as [m|]; [|split; [|discriminate]].
  - destruct (String.eqb_spec (Js.trim (required m 21)) ".") as [E1|N1]; cbn [orb].
    + split; [|discriminate]. split; [eauto|reflexivity].
    + destruct (String.eqb_spec (Js.trim (required m 21)) "..") as [E2|N2].
      * split; [|discriminate]. split; [eauto|reflexivity].
      * split.
        -- split; [discriminate|]. intros [H|(m' & Hm & [H|H])]; [discriminate|..];
             inversion Hm; subst m'; contradiction.
        -- intros e He. inversion He; subst e; clear He. split; [reflexivity|].
           do 4 eexists. split; [reflexivity|].
           split; [apply trim_idem|]. repeat split; try assumption.
           apply entry_type_values.
  - split; [auto|]. intros _. reflexivity.
Qed.

(** The line that the source quotes as its example. *)
Lemma parseListLine_sample :
  parseListLine "-rw-r--r--+   1 patrick  staff   1057 Dec 11 14:35 test.txt"
  = Some (<["type" := VString "file"]>
            (<["modify" := VDate (DateOfThisYear "-12-11T14:35:00")]>
               (<["size" := VNumber (Some 1057)]>
                  (<["name" := VString "test.txt"]> ∅)))).
Proof.
  unfold parseListLine.
  assert (exists m,
             exec false RE_LINE
               "-rw-r--r--+   1 patrick  staff   1057 Dec 11 14:35 test.txt" = Some m
             /\ required m 21 = "test.txt" /\ required m 1 = "-"
             /\ required m 18 = "1057" /\ required m 19 = "Dec 11"
             /\ required m 20 = "14:35") as (m & -> & -> & -> & -> & -> & ->).
  { vm_compute. eexists. repeat split; reflexivity. }
  reflexivity.
Qed.

Lemma parseListLine_entries_witness :
  let line := "-rw-r--r--+   1 patrick  staff   1057 Dec 11 14:35 test.txt" in
  let e : FtpEntryInfo :=
    <["type" := VString "file"]>
      (<["modify" := VDate (DateOfThisYear "-12-11T14:35:00")]>
         (<["size" := VNumber (Some 1057)]> (<["name" := VString "test.txt"]> ∅))) in
  parseListLine line = Some e
  /\ testLine line = true
  /\ exists name size modify type,
       e = <["type" := VString type]>
             (<["modify" := VDate modify]>
                (<["size" := VNumber size]> (<["name" := VString name]> ∅)))
       /\ Js.trim name = name /\ name <> "." /\ name <> ".."
       /\ In type ["dir"; "symlinc"; "file"; "unknown"].
Proof.
  intros line e. split; [exact parseListLine_sample|].
  exact (proj2 (parseListLine_entries line) e parseListLine_sample).
Defined.

Lemma pad_1 value : pad value 1 = Js.string_of_number value.
Proof.
  unfold pad. cbn [Nat.eqb].
  assert (H : Js.is_empty (Js.string_of_number value) = false).
  { destruct value as [n|]; [|reflexivity]. unfold Js.string_of_number.
    destruct n as [|p|p]; [reflexivity| |reflexivity].
    cbn [Z.to_int DecimalString.NilZero.string_of_int].
    unfold DecimalString.NilZero.string_of_uint.
    pose proof (DecimalPos.Unsigned.to_uint_nonnil p) as Hn.
    destruct (Pos.to_uint p); [congruence|reflexivity..]. }
  destruct (Js.string_of_number value) as [|a s]; [discriminate|]. reflexivity.
Qed.

Lemma months_cases k mon :
  months !! k = Some mon ->
  free_of " " mon = true /\ Js.indexOf mon months = Z.of_nat k.
Proof.
  do 12 (destruct k as [|k]; [intros [= <-]; split; reflexivity|]).
  discriminate.
Qed.

(** X17. The date of a Unix listing line. [parseDate] hands to [Date] a
    string made of the current year, the number of the month and the day,
    neither of them padded to two digits ([pad] is called with width 1,
    where it never pads): for [Jun 8] the string ends in [-6-8T...]. When
    the month and the day are separated by more than one space, as [ls]
    prints days below 10, the day is read from an empty string and is
    [NaN]. *)
Theorem parseDate_month_and_day k mon d hour :
  months !! k = Some mon ->
  0 <= d ->
  parseDate (mon +:+ " " +:+ Js.string_of_number (Some d)) hour
  = DateOfThisYear
      ("-" +:+ Js.string_of_number (Some (Z.of_nat k + 1)) +:+ "-"
         +:+ Js.string_of_number (Some d) +:+ "T" +:+ hour +:+ ":00")
  /\ forall rest,
       parseDate (mon +:+ "  " +:+ rest) hour
       = DateOfThisYear
           ("-" +:+ Js.string_of_number (Some (Z.of_nat k + 1)) +:+ "-NaNT"
              +:+ hour +:+ ":00").
Proof.
  intros Hk Hd. destruct (months_cases k mon Hk) as [Hfree Hidx].
  unfold parseDate. split; [|intros rest].
  - change (" " +:+ ?x) with (String " " x).
    rewrite (split_char_first " " mon _ Hfree).
    rewrite split_char_free
      by (apply (digits_free " "); [reflexivity|now apply string_of_number_all_digits]).
    cbn [lookup list_lookup Js.str_of_undefined].
    rewrite Hidx, !pad_1.
    rewrite <- (app_nil_r_str (Js.string_of_number (Some d))) at 1.
    now rewrite parseInt_string_of_number by (exact Hd || reflexivity).
  - change ("  " +:+ rest) with (String " " (String " " rest)).
    rewrite (split_char_first " " mon _ Hfree). cbn [Js.split_char].
    cbn [Ascii.eqb Bool.eqb lookup list_lookup Js.str_of_undefined].
    rewrite Hidx, !pad_1. reflexivity.
Qed.

(** A line as [ls -l] prints it for a day below 10: the expression takes
    the month, both spaces and the day as the date. *)
Lemma RE_LINE_single_digit_day :
  exists m,
    exec false RE_LINE "-rw-r--r--   1 patrick  staff   1057 Jun  8 14:35 test.txt"
    = Some m
    /\ required m 19 = "Jun  8" /\ required m 20 = "14:35".
Proof. vm_compute. eexists. repeat split; reflexivity. Qed.

Lemma parseDate_month_and_day_witness :
  months !! 5%nat = Some "Jun" /\ 0 <= 8
  /\ parseDate "Jun 8" "14:35" = DateOfThisYear "-6-8T14:35:00"
  /\ parseDate "Jun  8" "14:35" = DateOfThisYear "-6-NaNT14:35:00".
Proof.
  assert (H8 : 0 <= 8) by lia.
  destruct (parseDate_month_and_day 5 "Jun" 8 "14:35" eq_refl H8) as [H1 H2].
  split; [reflexivity|]. split; [exact H8|]. split; [exact H1|exact (H2 "8")].
Defined.

End UnixListingProofs.

(** ** The recursive make-directory where it works *)

Module MkDirProofs.
Import Exceptions Definitions Connection Commands FtpClient Outcome Text Tree.
Import ParserProofs DataProofs ClientProofs CommandProofs.

Lemma after_after l1 q1 l2 q2 c :
  after l2 q2 (after l1 q1 c) = after (l1 ++ l2) q2 c.
Proof.
  destruct c. unfold after, set_responseQueue, set_written. cbn.
  now rewrite List.map_app, List.app_assoc.
Qed.

Lemma ready_after l q c : ready (after l q c) = ready c.
Proof. now destruct c. Qed.

Lemma responseQueue_after l q c : responseQueue (after l q c) = q.
Proof. now destruct c. Qed.

Lemma send_CwdCommand_after path c r q :
  ready c = true -> responseQueue c = r :: q ->
  send (CwdCommand path) c = (Ok (negb (300 <=? code r)), after ["CWD " +:+ path] q c).
Proof.
  intros Hr Hq. rewrite send_CwdCommand by exact Hr. cbn zeta. rewrite Hq.
  reflexivity.
Qed.

Lemma write_after data l q c :
  ready c = true ->
  write data (after l q c)
  = (Ok (Z.of_nat (String.length (Js.utf8_encode (data +:+ Expressions.NEW_LINE)))),
     after (l ++ [data]) q c).
Proof.
  destruct c. cbn [ready]. intros ->. unfold write, after, set_responseQueue, set_written.
  cbn. now rewrite List.map_app, List.app_assoc.
Qed.

Lemma getResponse_after l r q c :
  getResponse (after l (r :: q) c) = (Ok r, after l q c).
Proof. now destruct c. Qed.

Lemma checkResponse_after l r q c :
  code r = 257 -> checkResponse (after l (r :: q) c) = (Ok true, after l q c).
Proof.
  intros H. unfold checkResponse, bind. rewrite getResponse_after.
  replace (code r =? 257) with true by (symmetry; now apply Z.eqb_eq).
  reflexivity.
Qed.

Lemma split_segments segs : forall s,
  Forall (fun s => free_of "/" s = true) (s :: segs) ->
  Js.split_char "/" (s +:+ path_of segs) = s :: segs.
Proof.
  induction segs as [|s2 segs IH]; intros s H; inversion H as [|? ? Hs Hrest]; subst.
  - cbn [path_of]. rewrite app_nil_r_str. now apply split_char_free.
  - cbn [path_of]. change ("/" +:+ ?x) with (String "/" x).
    rewrite (split_char_first "/" s _ Hs). now rewrite IH.
Qed.

(** The segments that the command finds in [/s1/s2/...]. *)
Lemma dirs_of_path segs :
  Forall (fun s => free_of "/" s = true /\ Js.is_empty (Js.trim s) = false) segs ->
  List.filter (fun d => negb (Js.is_empty (Js.trim d))) (Js.split_char "/" (path_of segs))
  = segs.
Proof.
  intros H. destruct segs as [|s segs]; [reflexivity|].
  cbn [path_of]. change ("/" +:+ ?x) with (String "/" x).
  cbn [Js.split_char]. rewrite Ascii.eqb_refl.
  rewrite split_segments
    by (eapply List.Forall_impl; [|exact H]; intros ? [? _]; assumption).
  transitivity
    (List.filter (fun d => negb (Js.is_empty (Js.trim d))) (s :: segs)); [reflexivity|].
  clear -H. induction H as [|x l [_ Hx] _ IH]; [reflexivity|].
  cbn [List.filter]. now rewrite Hx, IH.
Qed.

Lemma length_replies plan : (List.length plan <= List.length (replies plan))%nat.
Proof.
  induction plan as [|[s [r|r1 r2 r3]] plan IH]; cbn [replies List.length]; lia.
Qed.

Lemma ends_missing_cons sa plan :
  plan <> [] -> ends_missing (sa :: plan) -> ends_missing plan.
Proof.
  unfold ends_missing. destruct plan as [|sb plan]; [congruence|]. intros _.
  now rewrite last_cons_cons.
Qed.

(** The loop of the recursive command over a plan whose last segment is
    missing. *)
Lemma MkDirCommand_while_plan plan : forall fuel traverse cwdDir path c q,
  ready c = true ->
  Forall consistent plan -> ends_missing plan ->
  responseQueue c = replies plan ++ q ->
  (2 * List.length plan <= fuel)%nat ->
  path = traverse +:+ path_of (map fst plan) ->
  MkDirCommand_while fuel path cwdDir (map fst plan) traverse c
  = (Ok tt, after (dialogue (cwdDir +:+ traverse) plan) q c).
Proof.
  induction plan as [|[s a] plan IH]; intros fuel traverse cwdDir path c q
    Hr Hcons Hend Hq Hfuel Hpath; [contradiction|].
  inversion Hcons as [|? ? (Hfree & Hblank & Hans) Hcons']; subst.
  cbn [fst snd] in Hfree, Hblank, Hans.
  destruct fuel as [|fuel]; [cbn in Hfuel; lia|]. cbn [List.length] in Hfuel.
  rewrite MkDirCommand_while_S. cbn [map fst head tail Js.str_of_undefined]. cbn zeta.
  assert (Edir : cwdDir +:+ traverse +:+ "/" +:+ s = (cwdDir +:+ traverse) +:+ "/" +:+ s)
    by now rewrite app_assoc_str.
  destruct a as [r|r1 r2 r3]; cbn [replies List.app] in Hq; cbn [dialogue List.app].
  - (* the directory exists: the loop goes on *)
    unfold bind at 1. rewrite (send_CwdCommand_after _ c r _ Hr Hq).
    replace (300 <=? code r) with false by (symmetry; apply Z.leb_gt; lia).
    cbn [negb].
    assert (Hne : plan <> []).
    { intros ->. unfold ends_missing in Hend. cbn in Hend. exact Hend. }
    rewrite (IH fuel (traverse +:+ "/" +:+ s) cwdDir _ _ q);
      [|now rewrite ready_after|exact Hcons'|now apply (ends_missing_cons (s, Exists r))
       |now rewrite responseQueue_after|lia
       |cbn [path_of map fst]; now rewrite !app_assoc_str].
    rewrite after_after, Edir. reflexivity.
  - (* the directory is missing: it is created and entered *)
    destruct Hans as [H1 H2].
    unfold bind at 1. rewrite (send_CwdCommand_after _ c r1 _ Hr Hq).
    replace (300 <=? code r1) with true by (symmetry; apply Z.leb_le; lia).
    cbn [negb].
    change ("/" +:+ s) with (String "/" s).
    rewrite pop_split_char by exact Hfree. cbn [Js.str_of_undefined].
    change (String "/" s) with ("/" +:+ s).
    unfold bind at 1. rewrite write_after by exact Hr. cbn [List.app].
    unfold bind at 1. rewrite checkResponse_after by exact H2.
    unfold bind at 1.
    rewrite (send_CwdCommand_after _ _ r3 (replies plan ++ q))
      by (now rewrite ?ready_after, ?responseQueue_after).
    rewrite after_after. cbn [List.app].
    replace (traverse +:+ path_of (s :: map fst plan))
      with ((traverse +:+ "/" +:+ s) +:+ path_of (map fst plan))
      by (cbn [path_of]; now rewrite !app_assoc_str).
    unfold Js.substr_from. rewrite drop_app_exact.
    destruct plan as [|sb plan].
    + cbn [map path_of Js.is_empty negb replies List.app dialogue].
      unfold resolve. rewrite <- Edir. reflexivity.
    + set (plan' := sb :: plan) in *.
      assert (Hnext : Js.is_empty (path_of (map fst plan')) = false) by reflexivity.
      rewrite Hnext. cbn [negb].
      destruct fuel as [|fuel]; [cbn in Hfuel; lia|].
      unfold send. rewrite ready_after, Hr.
      rewrite MkDirCommand_execute_S.
      assert (Hcwd : Js.is_empty (cwdDir +:+ traverse +:+ "/" +:+ s) = false).
      { destruct cwdDir; [destruct traverse|]; reflexivity. }
      rewrite Hcwd. unfold bind at 1. unfold resolve at 1.
      rewrite dirs_of_path.
      2:{ apply List.Forall_map. eapply List.Forall_impl; [|exact Hcons'].
          intros x (? & ? & _). now split. }
      rewrite (IH fuel EmptyString _ _ _ q);
        [|now rewrite ready_after|exact Hcons'
         |now apply (ends_missing_cons (s, Missing r1 r2 r3))
         |now rewrite responseQueue_after|cbn [List.length] in *; lia|reflexivity].
      rewrite after_after, app_nil_r_str, <- Edir. reflexivity.
Qed.


(** X18. The recursive [createDir] on a path [/s1/s2/...] whose last
    segment is missing. After [CWD /] the client probes the path segment
    by segment with [CWD]; where the probe is accepted it goes on, where
    it is refused it sends [MKD] with that segment alone, enters the new
    directory, and continues below it. It sends nothing else, reads one
    reply for each command, and succeeds; the reply to [CWD /] and the
    replies to the [CWD] into a new directory are not looked at. *)
Theorem createDir_creates_the_missing_segments plan c r0 q :
  ready c = true ->
  Forall consistent plan -> ends_missing plan ->
  responseQueue c = r0 :: replies plan ++ q ->
  createDir (path_of (map fst plan)) true c
  = (Ok tt, after ("CWD /" :: dialogue EmptyString plan) q c).
Proof.
  intros Hr Hcons Hend Hq.
  assert (Hne : plan <> []) by (intros ->; exact Hend).
  assert (Hp : Js.is_empty (path_of (map fst plan)) = false).
  { destruct plan; [congruence|reflexivity]. }
  unfold createDir. rewrite Hp. unfold send at 1. rewrite Hr.
  unfold MkDirCommand. rewrite Hq. cbn [List.length Nat.mul Nat.add].
  rewrite MkDirCommand_execute_S. cbn [Js.is_empty].
  unfold bind at 1. unfold bind at 1.
  rewrite (send_CwdCommand_after "/" c r0 _ Hr Hq). unfold resolve at 1.
  rewrite dirs_of_path.
  2:{ apply List.Forall_map. eapply List.Forall_impl; [|exact Hcons].
      intros x (? & ? & _). now split. }
  rewrite (MkDirCommand_while_plan plan _ EmptyString EmptyString _ _ q);
    [|now rewrite ready_after|exact Hcons|exact Hend|now rewrite responseQueue_after
     | |reflexivity].
  - now rewrite after_after.
  - pose proof (length_replies plan). rewrite List.length_app. lia.
Qed.

Lemma createDir_creates_the_missing_segments_witness :
  let plan := [("a", Exists Scenario.ok);
               ("b", Missing Scenario.no Scenario.created Scenario.ok);
               ("c", Missing Scenario.no Scenario.created Scenario.ok)] in
  let c := set_responseQueue (Scenario.ok :: replies plan) fresh in
  Forall consistent plan /\ ends_missing plan
  /\ path_of (map fst plan) = "/a/b/c"
  /\ createDir "/a/b/c" true c
     = (Ok tt,
        after ["CWD /"; "CWD /a"; "CWD /a/b"; "MKD b"; "CWD /a/b";
               "CWD /a/b/c"; "MKD c"; "CWD /a/b/c"] [] c).
Proof.
  intros plan c.
  assert (Hcons : Forall consistent plan).
  { repeat constructor; cbn; lia. }
  assert (Hend : ends_missing plan) by exact I.
  split; [exact Hcons|]. split; [exact Hend|]. split; [reflexivity|].
  exact (createDir_creates_the_missing_segments plan c Scenario.ok [] eq_refl Hcons Hend
           eq_refl).
Defined.

End MkDirProofs.

(** ** Modification times, written and read back *)

Module DateProofs.
Import Exceptions Definitions Connection Commands FtpClient Outcome Text Civil.
Import ParserProofs DataProofs ClientProofs CommandProofs ReplyProofs ListingProofs.

(** *** The calendar *)

Lemma yoe_from_doe yoe doy :
  0 <= yoe < 400 -> 0 <= doy <= 365 ->
  (doy = 365 -> (yoe + 1) mod 4 = 0 /\ ((yoe + 1) mod 100 <> 0 \/ yoe = 399)) ->
  let doe := 365 * yoe + yoe / 4 - yoe / 100 + doy in
  (doe - doe / 1460 + doe / 36524 - doe / 146096) / 365 = yoe.
Proof.
  intros Hy Hd Hl doe. subst doe.
  Z.div_mod_to_equations. lia.
Qed.

Lemma leap_spec y :
  leap y = true <-> (y mod 4 = 0 /\ y mod 100 <> 0) \/ y mod 400 = 0.
Proof.
  unfold leap.
  rewrite orb_true_iff, andb_true_iff, negb_true_iff, !Z.eqb_eq, Z.eqb_neq.
  tauto.
Qed.

Ltac eval_closed t := let v := eval vm_compute in t in change t with v.

(** What the arithmetic of the two conversions needs of a month: the day
    of the year counted from the first of March, and the way back. *)
Lemma month_facts y m d :
  1 <= m <= 12 -> 1 <= d <= days_in_month y m ->
  let Y := if m <=? 2 then y - 1 else y in
  let mp := (m + 9) mod 12 in
  let doy := (153 * mp + 2) / 5 + d - 1 in
  0 <= doy <= 365
  /\ (doy = 365 -> m = 2 /\ leap y = true)
  /\ (5 * doy + 2) / 153 = mp
  /\ doy - (153 * mp + 2) / 5 + 1 = d
  /\ (if mp <? 10 then mp + 3 else mp - 9) = m
  /\ (if m <=? 2 then Y + 1 else Y) = y.
Proof.
  intros Hm Hd.
  assert (Hc : m = 1 \/ m = 2 \/ m = 3 \/ m = 4 \/ m = 5 \/ m = 6 \/ m = 7 \/ m = 8
               \/ m = 9 \/ m = 10 \/ m = 11 \/ m = 12) by lia.
  unfold days_in_month in Hd. cbv zeta.
  destruct Hc as [->|[->|[->|[->|[->|[->|[->|[->|[->|[->|[->| ->]]]]]]]]]]];
    cbn in Hd;
    match goal with
    | |- context [(?k + 9) mod 12] => eval_closed ((k + 9) mod 12)
    end;
    match goal with
    | |- context [(153 * ?k + 2) / 5] => eval_closed ((153 * k + 2) / 5)
    end;
    match goal with
    | |- context [?k <=? 2] => eval_closed (k <=? 2)
    end;
    match goal with
    | |- context [?k <? 10] => eval_closed (k <? 10)
    end;
    cbv iota;
    try (destruct (leap y) eqn:El);
    repeat split; intros; try reflexivity; try (Z.div_mod_to_equations; lia).
Qed.

(** The day number of a date of the calendar gives the date back. *)
Lemma civil_of_days y m d :
  1 <= m <= 12 -> 1 <= d <= days_in_month y m ->
  JsDate.civil_from_days (JsDate.days_from_civil y m d) = (y, m, d).
Proof.
  intros Hm Hd.
  destruct (month_facts y m d Hm Hd) as (Hdoy & Hleap & Hmp & Hday & Hmon & Hyear).
  unfold JsDate.days_from_civil, JsDate.civil_from_days.
  set (Y := if m <=? 2 then y - 1 else y) in *.
  set (mp := (m + 9) mod 12) in *.
  set (doy := (153 * mp + 2) / 5 + d - 1) in *.
  set (era := Y / 400).
  set (yoe := Y - era * 400).
  assert (Hyoe : 0 <= yoe < 400) by (subst yoe era; Z.div_mod_to_equations; lia).
  set (doe := yoe * 365 + yoe / 4 - yoe / 100 + doy).
  assert (Hdoe : 0 <= doe < 146097) by (subst doe; Z.div_mod_to_equations; lia).
  replace (era * 146097 + doe - 719468 + 719468) with (doe + era * 146097) by lia.
  rewrite Z.div_add by lia. rewrite (Z.div_small doe) by lia.
  replace (doe + era * 146097 - (0 + era) * 146097) with doe by lia.
  assert (Hy' : (doe - doe / 1460 + doe / 36524 - doe / 146096) / 365 = yoe).
  { subst doe. replace (yoe * 365) with (365 * yoe) by lia.
    apply yoe_from_doe; [exact Hyoe|exact Hdoy|].
    intros H365. destruct (Hleap H365) as [-> Hl]. apply leap_spec in Hl.
    subst yoe era Y. cbn in *. Z.div_mod_to_equations. lia. }
  cbv zeta. rewrite Hy'.
  replace (doe - (365 * yoe + yoe / 4 - yoe / 100)) with doy by (subst doe; lia).
  rewrite Hmp, Hday, Hmon.
  replace (yoe + (0 + era) * 400) with Y by (subst yoe; lia).
  now rewrite Hyear.
Qed.

(** The UTC fields of the instant [y]-[m]-[d] [h]:[mi]:[s]. *)
Lemma Day_utc y m d h mi s :
  0 <= h < 24 -> 0 <= mi < 60 -> 0 <= s < 60 ->
  JsDate.Day (Calendar.utc y m d h mi s) = JsDate.days_from_civil y m d.
Proof.
  intros Hh Hmi Hs.
  unfold JsDate.Day, Calendar.utc, JsDate.MakeDate, JsDate.MakeTime.
  generalize (JsDate.days_from_civil y m d). intros D.
  Z.div_mod_to_equations. lia.
Qed.

Lemma fields_of_utc y m d h mi s :
  valid y m d h mi s ->
  let t := Calendar.utc y m d h mi s in
  JsDate.YearFromTime t = y /\ JsDate.MonthFromTime t = m - 1
  /\ JsDate.DateFromTime t = d /\ JsDate.HourFromTime t = h
  /\ JsDate.MinFromTime t = mi /\ JsDate.SecFromTime t = s.
Proof.
  intros (Hm & Hd & Hh & Hmi & Hs) t.
  unfold JsDate.YearFromTime, JsDate.MonthFromTime, JsDate.DateFromTime.
  subst t. rewrite Day_utc, civil_of_days by assumption. cbn [fst snd].
  repeat split;
    unfold JsDate.HourFromTime, JsDate.MinFromTime, JsDate.SecFromTime,
      Calendar.utc, JsDate.MakeDate, JsDate.MakeTime;
    generalize (JsDate.days_from_civil y m d); intros D;
    Z.div_mod_to_equations; lia.
Qed.

(** [formatDate] prints the fields of a date one after the other, the
    month as [getUTCMonth] gives it: counted from 0. *)
Lemma formatDate_utc y m d h mi s :
  valid y m d h mi s ->
  formatDate (Some (Calendar.utc y m d h mi s)) = stamp y (m - 1) d h mi s.
Proof.
  intros Hv. destruct (fields_of_utc y m d h mi s Hv) as (E1 & E2 & E3 & E4 & E5 & E6).
  unfold formatDate, stamp, two, JsDate.getUTCFullYear, JsDate.getUTCMonth,
    JsDate.getUTCDate, JsDate.getUTCHours, JsDate.getUTCMinutes, JsDate.getUTCSeconds.
  cbn [fmap option_fmap option_map]. now rewrite E1, E2, E3, E4, E5, E6.
Qed.

(** *** The digits of a printed number *)

Lemma uint_value_bounds d : forall acc,
  0 <= acc ->
  acc * 10 ^ Z.of_nat (Decimal.nb_digits d) <= uint_value acc d
    < (acc + 1) * 10 ^ Z.of_nat (Decimal.nb_digits d).
Proof.
  induction d as [|d IH|d IH|d IH|d IH|d IH|d IH|d IH|d IH|d IH|d IH];
    intros acc Ha; cbn [uint_value Decimal.nb_digits];
    [rewrite Z.pow_0_r; lia|..];
    rewrite Nat2Z.inj_succ, Z.pow_succ_r by lia;
    assert (Hp : 0 < 10 ^ Z.of_nat (Decimal.nb_digits d))
      by (apply Z.pow_pos_nonneg; lia);
    match goal with
    | |- context [uint_value ?a d] => pose proof (IH a ltac:(lia)) as B
    end; nia.
Qed.

(** A positive number is printed without a leading zero. *)
Lemma to_uint_head p l : Pos.to_uint p <> Decimal.D0 l.
Proof.
  intros E.
  pose proof (DecimalPos.Unsigned.to_of (Pos.to_uint p)) as H.
  rewrite DecimalPos.Unsigned.of_to in H. cbn [N.to_uint] in H.
  rewrite E in H. unfold Decimal.unorm in H. cbn [Decimal.nzhead] in H.
  destruct (Decimal.nzhead l) eqn:En;
    [injection H as ->; exact (DecimalPos.Unsigned.to_uint_nonzero p E)|..];
    symmetry in H; rewrite <- En in H; exact (DecimalFacts.nzhead_nonzero _ _ H).
Qed.

Lemma length_string_of_uint d :
  String.length (DecimalString.NilEmpty.string_of_uint d) = Decimal.nb_digits d.
Proof.
  induction d; cbn [DecimalString.NilEmpty.string_of_uint String.length
                      Decimal.nb_digits]; congruence.
Qed.

Lemma pow10_bracket (a b : nat) n :
  10 ^ Z.of_nat a <= n < 10 ^ Z.of_nat (S a) ->
  10 ^ Z.of_nat b <= n < 10 ^ Z.of_nat (S b) ->
  a = b.
Proof.
  intros [A1 A2] [B1 B2].
  assert (H1 : Z.of_nat a < Z.of_nat (S b))
    by (apply (Z.pow_lt_mono_r_iff 10); lia).
  assert (H2 : Z.of_nat b < Z.of_nat (S a))
    by (apply (Z.pow_lt_mono_r_iff 10); lia).
  lia.
Qed.

(** A number from [10^k] to [10^(k+1) - 1] is printed with [k + 1]
    characters. *)
Lemma length_string_of_number n (k : nat) :
  10 ^ Z.of_nat k <= n < 10 ^ Z.of_nat (S k) ->
  String.length (Js.string_of_number (Some n)) = S k.
Proof.
  intros Hn.
  assert (Hk : 0 < 10 ^ Z.of_nat k) by (apply Z.pow_pos_nonneg; lia).
  destruct n as [|p|p]; [lia| |lia].
  unfold Js.string_of_number, Z.to_int.
  cbn [DecimalString.NilZero.string_of_int].
  pose proof (DecimalPos.Unsigned.to_uint_nonnil p) as Hnn.
  pose proof (to_uint_head p) as Hh.
  assert (Hv : uint_value 0 (Pos.to_uint p) = Zpos p)
    by now rewrite uint_value_0, DecimalPos.Unsigned.of_to.
  unfold DecimalString.NilZero.string_of_uint.
  destruct (Pos.to_uint p) as [|l|l|l|l|l|l|l|l|l|l] eqn:E;
    [congruence|exfalso; exact (Hh l eq_refl)|..];
    (rewrite length_string_of_uint; cbn [Decimal.nb_digits]; f_equal;
     cbn [uint_value] in Hv;
     match type of Hv with
     | uint_value ?a l = _ => pose proof (uint_value_bounds l a ltac:(lia)) as B
     end;
     rewrite Hv in B; symmetry; apply (pow10_bracket _ _ (Z.pos p)); [exact Hn|];
     rewrite (Nat2Z.inj_succ (Decimal.nb_digits l)), Z.pow_succ_r by lia;
     assert (Hp : 0 < 10 ^ Z.of_nat (Decimal.nb_digits l))
       by (apply Z.pow_pos_nonneg; lia);
     nia).
Qed.

(** A year from 1000 to 9999 is printed as four digits. *)
Lemma year_digits y :
  1000 <= y <= 9999 ->
  exists a b c e,
    Js.string_of_number (Some y) = String a (String b (String c (String e EmptyString)))
    /\ Js.is_digit a = true /\ Js.is_digit b = true
    /\ Js.is_digit c = true /\ Js.is_digit e = true.
Proof.
  intros Hy.
  pose proof (length_string_of_number y 3 ltac:(cbn; lia)) as Hl.
  pose proof (string_of_number_all_digits y ltac:(lia)) as Ha.
  destruct (Js.string_of_number (Some y)) as [|a [|b [|c [|e [|f t]]]]];
    try discriminate Hl.
  cbn [all_chars] in Ha. repeat (apply andb_prop in Ha as [? Ha]).
  exists a, b, c, e. repeat split; assumption.
Qed.

Lemma two_below_ten (k : nat) :
  (k < 10)%nat ->
  exists a b,
    two (Z.of_nat k) = String a (String b EmptyString)
    /\ Js.is_digit a = true /\ Js.is_digit b = true
    /\ Js.parseInt (two (Z.of_nat k)) = Some (Z.of_nat k).
Proof.
  intros Hk.
  do 10 (destruct k as [|k]; [do 2 eexists; repeat split; reflexivity|]).
  lia.
Qed.

(** A number below 100, padded to two characters, is two digits that
    [parseInt] reads back. *)
Lemma two_digits n :
  0 <= n < 100 ->
  exists a b,
    two n = String a (String b EmptyString)
    /\ Js.is_digit a = true /\ Js.is_digit b = true
    /\ Js.parseInt (two n) = Some n.
Proof.
  intros Hn. destruct (Z.lt_ge_cases n 10) as [Hs|Hb].
  - rewrite <- (Z2Nat.id n) by lia. apply two_below_ten. lia.
  - pose proof (length_string_of_number n 1 ltac:(cbn; lia)) as Hl.
    pose proof (string_of_number_all_digits n ltac:(lia)) as Ha.
    pose proof (parseInt_string_of_number n EmptyString ltac:(lia) eq_refl) as Hp.
    rewrite app_nil_r_str in Hp.
    unfold two, Lodash.padStart. rewrite Hl. cbn [Nat.sub Lodash.repeat_char].
    rewrite app_nil_l_str.
    destruct (Js.string_of_number (Some n)) as [|a [|b [|c t]]];
      try discriminate Hl.
    cbn [all_chars] in Ha. repeat (apply andb_prop in Ha as [? Ha]).
    exists a, b. repeat split; assumption.
Qed.

(** *** The stamp on the wire *)

Lemma trimEnd_digits s :
  all_chars Js.is_digit s = true -> Js.trimEnd (s +:+ Expressions.NEW_LINE) = s.
Proof.
  induction s as [|a s IH]; [reflexivity|].
  cbn [all_chars]. intros H. apply andb_prop in H as [Ha Hs].
  rewrite app_cons_str. cbn [Js.trimEnd].
  rewrite (IH Hs), (digit_not_ws a Ha), andb_false_r. reflexivity.
Qed.

Lemma trim_digits s :
  all_chars Js.is_digit s = true -> Js.trim (s +:+ Expressions.NEW_LINE) = s.
Proof.
  intros H. unfold Js.trim. destruct s as [|a s]; [reflexivity|].
  pose proof H as H'. cbn [all_chars] in H'. apply andb_prop in H' as [Ha _].
  rewrite app_cons_str. cbn [Js.trimStart]. rewrite (digit_not_ws a Ha).
  rewrite <- app_cons_str. now apply trimEnd_digits.
Qed.

(** [RE_LAST_MOD_TIME], searched from the start of fourteen digits, cuts
    them into fields of four, two, two, two, two and two, and leaves its
    [lastIndex] at 14. *)
Lemma exec_RE_LAST_MOD_TIME a1 a2 a3 a4 b1 b2 c1 c2 d1 d2 e1 e2 f1 f2 :
  let yy := String a1 (String a2 (String a3 (String a4 EmptyString))) in
  let mo := String b1 (String b2 EmptyString) in
  let dd := String c1 (String c2 EmptyString) in
  let hh := String d1 (String d2 EmptyString) in
  let mi := String e1 (String e2 EmptyString) in
  let ss := String f1 (String f2 EmptyString) in
  all_chars Js.is_digit (yy +:+ mo +:+ dd +:+ hh +:+ mi +:+ ss) = true ->
  exists m,
    Regex.exec_global true Expressions.RE_LAST_MOD_TIME 0
      (yy +:+ mo +:+ dd +:+ hh +:+ mi +:+ ss) = (Some m, 14%nat)
    /\ Regex.group m 1 = Some yy /\ Regex.group m 2 = Some mo
    /\ Regex.group m 3 = Some dd /\ Regex.group m 4 = Some hh
    /\ Regex.group m 5 = Some mi /\ Regex.group m 6 = Some ss.
Proof.
  intros yy mo dd hh mi ss H. subst yy mo dd hh mi ss.
  rewrite !app_cons_str, !app_nil_l_str in *.
  cbn [all_chars] in H. repeat (apply andb_prop in H as [? H]).
  unfold Regex.exec_global, Expressions.RE_LAST_MOD_TIME, Regex.digit.
  cbn [Regex.seek Regex.search Regex.mtch Regex.rep_n Regex.at_bol Regex.prev
       Regex.rest Regex.pos].
  repeat match goal with
         | E : Js.is_digit ?a = true |- _ => rewrite E; clear E
         end.
  eexists. split; [reflexivity|]. repeat split.
Qed.

(** *** The commands *)

(** X19. On a server that announces MDTM (the feature the command looks
    at), [setModificationTime] writes [MFMT stamp path] where the stamp
    holds the UTC fields of the date with the month counted from 0, one
    less than the month of the calendar. It then reads one reply: 213 is
    success, every other code an [FtpException] carrying that code. *)
Theorem setModificationTime_counts_months_from_zero y m d h mi s path c r q :
  valid y m d h mi s ->
  ready c = true -> MDTM (features c) = true ->
  responseQueue c = r :: q ->
  let date := Some (Calendar.utc y m d h mi s) in
  let sent := after ["MFMT " +:+ stamp y (m - 1) d h mi s +:+ " " +:+ path] q c in
  (code r = 213 -> setModificationTime path date c = (Ok tt, sent))
  /\ (code r <> 213 ->
      exists e,
        setModificationTime path date c = (Throw e, sent)
        /\ cls e = FtpException /\ ecode e = Some (code r)).
Proof.
  intros Hv Hr Hf Hq date sent. subst date sent.
  destruct c as [rd w rb cb q0 f conf dp li]. cbn [ready responseQueue features] in *.
  subst rd q0.
  unfold setModificationTime, ChangeModificationTime.
  rewrite (formatDate_utc y m d h mi s Hv).
  generalize (stamp y (m - 1) d h mi s). intros st.
  run_commands. rewrite Hf. conn_simpl.
  split.
  - intros E. apply Z.eqb_eq in E. rewrite E. reflexivity.
  - intros E. apply Z.eqb_neq in E. rewrite E. cbn [negb].
    eexists. repeat split.
Qed.

Lemma setModificationTime_counts_months_from_zero_witness :
  let c := set_responseQueue [mkResponse 213 (Wire.line "Modify=20180508233854; /foo.txt")]
             (set_features Wire.all_features fresh) in
  valid 2018 6 8 23 38 54
  /\ "MFMT " +:+ stamp 2018 (6 - 1) 8 23 38 54 +:+ " " +:+ "/foo.txt"
     = "MFMT 20180508233854 /foo.txt"
  /\ setModificationTime "/foo.txt" (Some (Calendar.utc 2018 6 8 23 38 54)) c
     = (Ok tt, after ["MFMT " +:+ stamp 2018 (6 - 1) 8 23 38 54 +:+ " " +:+ "/foo.txt"] [] c).
Proof.
  intros c.
  assert (Hv : valid 2018 6 8 23 38 54) by (unfold valid; cbn; lia).
  split; [exact Hv|]. split; [reflexivity|].
  exact (proj1 (setModificationTime_counts_months_from_zero 2018 6 8 23 38 54
                  "/foo.txt" c _ _ Hv eq_refl eq_refl eq_refl) eq_refl).
Defined.

(** [new Date] with a month counted from 0 and a day of that month. *)
Lemma MakeDay_civil y m d :
  1 <= m <= 12 -> JsDate.MakeDay y (m - 1) d = JsDate.days_from_civil y m d.
Proof.
  intros Hm. unfold JsDate.MakeDay.
  replace ((m - 1) / 12) with 0 by (Z.div_mod_to_equations; lia).
  replace ((m - 1) mod 12 + 1) with m by (Z.div_mod_to_equations; lia).
  rewrite Z.add_0_r. unfold JsDate.days_from_civil. lia.
Qed.

Lemma days_from_civil_bounds y m d :
  1000 <= y <= 9999 -> 1 <= m <= 12 -> 1 <= d <= 31 ->
  -400000 <= JsDate.days_from_civil y m d <= 3000000.
Proof.
  intros Hy Hm Hd. unfold JsDate.days_from_civil.
  destruct (m <=? 2); Z.div_mod_to_equations; lia.
Qed.

Lemma days_in_month_le y m : days_in_month y m <= 31.
Proof.
  unfold days_in_month.
  destruct (m =? 2); [destruct (leap y); lia|].
  destruct ((m =? 4) || (m =? 6) || (m =? 9) || (m =? 11)); lia.
Qed.

(** In a zone whose offsets stay within a day of UTC, the adjustment of
    the command adds back the offset in force at the instant it was given,
    which is the offset the fields were read with except across a change
    of offset. *)
Lemma local_fields_read_in_zone z t :
  -1440 <= JsDate.at_local z t <= 1440 ->
  -1440 <= JsDate.at_utc z (t - JsDate.at_local z t * 60000) <= 1440 ->
  Z.abs t <= 8000000000000000 ->
  JsDate.minus_timezone_offset_in z
    (JsDate.TimeClip (t - JsDate.at_local z t * 60000))
  = Some (t + (JsDate.at_utc z (t - JsDate.at_local z t * 60000)
               - JsDate.at_local z t) * 60000).
Proof.
  intros Hl Hu Ht.
  set (l := JsDate.at_local z t) in *.
  unfold JsDate.minus_timezone_offset_in, JsDate.TimeClip.
  destruct (Z.leb_spec (Z.abs (t - l * 60000)) 8640000000000000) as [_|Hgt];
    [|lia].
  cbn [mbind option_bind JsDate.getTimezoneOffset_in JsDate.of_time].
  set (u := JsDate.at_utc z (t - l * 60000)) in *.
  unfold JsDate.TimeClip.
  replace (t - l * 60000 - - u * 60 * 1000) with (t + (u - l) * 60000) by lia.
  destruct (Z.leb_spec (Z.abs (t + (u - l) * 60000)) 8640000000000000) as [_|Hgt];
    [reflexivity|lia].
Qed.

(** In a zone that keeps one offset the command is the one of the
    definitions that take the offset. *)
Lemma LastModifiedTimeCommand_in_fixed tz path :
  LastModifiedTimeCommand_in (JsDate.fixed tz) path
  = LastModifiedTimeCommand tz path.
Proof. reflexivity. Qed.

(** X20. What [setModificationTime] writes, [getLastModificationTime]
    reads back, in a time zone that keeps its offset and, in one that
    changes it, away from the changes. Take a date of the years 1000 to
    9999 with time value [t], a zone whose offsets are within a day of
    UTC, the first use of the shared expression, and for the reply to
    [MDTM] the stamp that [formatDate] gives for the date. The fields of
    the stamp are read as a local time with one offset, which gives an
    instant [u], and the adjustment adds the offset in force at [u]: the
    client returns [t] moved by the difference of the two. Where these
    agree, as they always do in a zone of one offset, the date comes back
    as it was, the month counted from 0 on the way out being read as
    counted from 0 on the way in; for a stamp whose fields fall in an
    hour that the local clock skips they differ, and the date comes back
    moved by the change. *)
Theorem modification_time_round_trip z y m d h mi s path c :
  valid y m d h mi s -> 1000 <= y <= 9999 ->
  let t := Calendar.utc y m d h mi s in
  let u := t - JsDate.at_local z t * 60000 in
  -1440 <= JsDate.at_local z t <= 1440 -> -1440 <= JsDate.at_utc z u <= 1440 ->
  ready c = true -> MDTM (features c) = true -> lastIndex c = 0%nat ->
  responseBuffer c = [] -> commandBuffer c = EmptyString -> responseQueue c = [] ->
  let c' := snd (onData (Wire.line ("213 " +:+ formatDate (Some t))) c) in
  getLastModificationTime_in z path c'
  = (Ok (Some (t + (JsDate.at_utc z u - JsDate.at_local z t) * 60000)),
     set_lastIndex 14 (after ["MDTM " +:+ path] [] c))
  /\ (JsDate.at_utc z u = JsDate.at_local z t ->
      fst (getLastModificationTime_in z path c') = Ok (Some t)).
Proof.
  intros Hv Hy t u Hl Hu Hr Hf Hli Hb Hcb Hq c'.
  assert (G : getLastModificationTime_in z path c'
              = (Ok (Some (t + (JsDate.at_utc z u - JsDate.at_local z t) * 60000)),
                 set_lastIndex 14 (after ["MDTM " +:+ path] [] c))).
  2:{ split; [exact G|]. intros E. rewrite G, E. cbn [fst].
      do 2 f_equal. lia. }
  subst c' u. unfold t at 1.
  rewrite (formatDate_utc y m d h mi s Hv).
  pose proof Hv as (Hm & Hd & Hh & Hmi & Hs).
  pose proof (days_in_month_le y m) as Hdm.
  destruct (year_digits y Hy) as (a1 & a2 & a3 & a4 & Ey & Ha1 & Ha2 & Ha3 & Ha4).
  destruct (two_digits (m - 1) ltac:(lia)) as (b1 & b2 & Emo & Hb1 & Hb2 & Pmo).
  destruct (two_digits d ltac:(lia)) as (c1 & c2 & Ed & Hc1 & Hc2 & Pd).
  destruct (two_digits h ltac:(lia)) as (d1 & d2 & Eh & Hd1 & Hd2 & Ph).
  destruct (two_digits mi ltac:(lia)) as (e1 & e2 & Emi & He1 & He2 & Pmi).
  destruct (two_digits s ltac:(lia)) as (f1 & f2 & Es & Hf1 & Hf2 & Ps).
  pose proof (parseInt_string_of_number y EmptyString ltac:(lia) eq_refl) as Py.
  rewrite app_nil_r_str in Py.
  assert (Hall : all_chars Js.is_digit (stamp y (m - 1) d h mi s) = true).
  { unfold stamp. rewrite Ey, Emo, Ed, Eh, Emi, Es.
    rewrite !app_cons_str, !app_nil_l_str. cbn [all_chars].
    now rewrite Ha1, Ha2, Ha3, Ha4, Hb1, Hb2, Hc1, Hc2, Hd1, Hd2, He1, He2, Hf1, Hf2. }
  destruct (exec_RE_LAST_MOD_TIME a1 a2 a3 a4 b1 b2 c1 c2 d1 d2 e1 e2 f1 f2)
    as (mt & Ex & G1 & G2 & G3 & G4 & G5 & G6).
  { cbv zeta. rewrite <- Ey, <- Emo, <- Ed, <- Eh, <- Emi, <- Es. exact Hall. }
  rewrite <- Ey, <- Emo, <- Ed, <- Eh, <- Emi, <- Es in Ex.
  rewrite <- Ey in G1. rewrite <- Emo in G2. rewrite <- Ed in G3.
  rewrite <- Eh in G4. rewrite <- Emi in G5. rewrite <- Es in G6.
  fold (stamp y (m - 1) d h mi s) in Ex.
  pose proof (onData_whole_reply [] "2" "1" "3" " " (stamp y (m - 1) d h mi s) c
                Hb (List.Forall_nil _) eq_refl eq_refl eq_refl eq_refl) as E.
  cbn [List.app map] in E. rewrite of_lines_single in E.
  change (Stream.final_line "2" "1" "3" " " (stamp y (m - 1) d h mi s))
    with ("213 " +:+ stamp y (m - 1) d h mi s) in E.
  rewrite E.
  2:{ unfold one_line. cbn [all_chars]. fold (one_line (stamp y (m - 1) d h mi s)).
      now rewrite all_digits_one_line. }
  2:{ unfold stamp. rewrite Ey, app_cons_str. reflexivity. }
  cbn [snd]. rewrite Hq, Hcb, app_nil_l_str, of_lines_single.
  change (Stream.code_of "2" "1" "3") with 213.
  assert (Ht : Z.abs t <= 8000000000000000).
  { pose proof (days_from_civil_bounds y m d Hy Hm ltac:(lia)) as B.
    unfold t, Calendar.utc, JsDate.MakeDate, JsDate.MakeTime. lia. }
  pose proof (local_fields_read_in_zone z t Hl Hu Ht) as Hz.
  unfold t in Hz. clear Ht Hl Hu. subst t.
  destruct c as [rd w rb cb q f conf dp li]. cbn in Hr, Hf, Hli, Hb, Hcb, Hq. subst.
  unfold getLastModificationTime_in, LastModifiedTimeCommand_in, Wire.line.
  run_commands. rewrite Hf. conn_simpl.
  cbn [code message].
  change (213 =? 550) with false. change (213 =? 213) with true. cbn [negb].
  cbv beta. conn_simpl. rewrite (trim_digits _ Hall), Ex. conn_simpl. cbv beta.
  rewrite G1, G2, G3, G4, G5, G6. cbn [Js.str_of_undefined].
  rewrite Py, Pmo, Pd, Ph, Pmi, Ps.
  unfold JsDate.new_Date_in.
  replace ((0 <=? y) && (y <=? 99)) with false
    by (symmetry; apply andb_false_iff; right; apply Z.leb_gt; lia).
  rewrite MakeDay_civil by exact Hm. cbv zeta.
  fold (Calendar.utc y m d h mi s).
  rewrite Hz. reflexivity.
Qed.

Lemma modification_time_round_trip_witness :
  let c := set_features Wire.all_features fresh in
  let t := Calendar.utc 2018 6 8 23 38 54 in
  let gap := Calendar.utc 2018 3 25 2 30 0 in
  (valid 2018 6 8 23 38 54 /\ valid 2018 3 25 2 30 0)
  /\ Wire.line ("213 " +:+ formatDate (Some t)) = Wire.line "213 20180508233854"
  /\ Wire.line ("213 " +:+ formatDate (Some gap)) = Wire.line "213 20180225023000"
  /\ fst (getLastModificationTime_in (JsDate.fixed 120) "/foo.txt"
            (snd (onData (Wire.line ("213 " +:+ formatDate (Some t))) c)))
     = Ok (Some t)
  /\ fst (getLastModificationTime_in Zones.spring_2018 "/foo.txt"
            (snd (onData (Wire.line ("213 " +:+ formatDate (Some t))) c)))
     = Ok (Some t)
  /\ fst (getLastModificationTime_in Zones.spring_2018 "/foo.txt"
            (snd (onData (Wire.line ("213 " +:+ formatDate (Some gap))) c)))
     = Ok (Some (Calendar.utc 2018 3 25 3 30 0)).
Proof.
  intros c t gap.
  assert (Hv : valid 2018 6 8 23 38 54) by (unfold valid; cbn; lia).
  assert (Hg : valid 2018 3 25 2 30 0) by (unfold valid; cbn; lia).
  assert (Hy : 1000 <= 2018 <= 9999) by lia.
  split; [exact (conj Hv Hg)|].
  split; [vm_compute; reflexivity|].
  split; [vm_compute; reflexivity|].
  split; [|split].
  - apply (modification_time_round_trip (JsDate.fixed 120) 2018 6 8 23 38 54
             "/foo.txt" c Hv Hy); try reflexivity; cbn; lia.
  - apply (modification_time_round_trip Zones.spring_2018 2018 6 8 23 38 54
             "/foo.txt" c Hv Hy); try reflexivity; vm_compute; split; discriminate.
  - assert (Hl : -1440 <= JsDate.at_local Zones.spring_2018 gap <= 1440)
      by (vm_compute; split; discriminate).
    assert (Hu : -1440 <= JsDate.at_utc Zones.spring_2018
                            (gap - JsDate.at_local Zones.spring_2018 gap * 60000)
                  <= 1440)
      by (vm_compute; split; discriminate).
    destruct (modification_time_round_trip Zones.spring_2018 2018 3 25 2 30 0
                "/foo.txt" c Hg Hy Hl Hu eq_refl eq_refl eq_refl eq_refl eq_refl
                eq_refl) as [H _].
    fold gap in H. rewrite H. reflexivity.
Defined.

End DateProofs.

(** ** The features of the server *)

Module FeaturesProofs.
Import Exceptions Definitions Connection Commands FtpClient Outcome Text.
Import ParserProofs ClientProofs CommandProofs.

Lemma prefix_occurs sub s :
  String.prefix sub s = true <-> exists post, s = sub +:+ post.
Proof.
  revert s. induction sub as [|a sub IH]; intros s.
  - split; [intros _; exists s; now rewrite app_nil_l_str|]. now destruct s.
  - destruct s as [|b s].
    + split; [discriminate|]. intros (post & E). rewrite app_cons_str in E. discriminate.
    + cbn [String.prefix]. destruct (ascii_dec a b) as [->|Hn].
      * rewrite IH. split; intros (post & E); exists post.
        -- rewrite app_cons_str. now f_equal.
        -- rewrite app_cons_str in E. now inversion E.
      * split; [discriminate|]. intros (post & E). rewrite app_cons_str in E.
        inversion E. congruence.
Qed.

Lemma includes_unfold sub s :
  Js.includes sub s
  = String.prefix sub s
    || match s with EmptyString => false | String _ s' => Js.includes sub s' end.
Proof. destruct s; reflexivity. Qed.

(** [s.includes(sub)] answers whether [sub] occurs in [s]. *)
Lemma includes_occurs sub s : Js.includes sub s = true <-> occurs sub s.
Proof.
  unfold occurs. split.
  - induction s as [|a s IH]; rewrite includes_unfold, orb_true_iff;
      intros [H|H]; try discriminate.
    + apply prefix_occurs in H as (post & ->). exists EmptyString, post.
      now rewrite app_nil_l_str.
    + apply prefix_occurs in H as (post & ->). exists EmptyString, post.
      now rewrite app_nil_l_str.
    + destruct (IH H) as (pre & post & ->). exists (String a pre), post.
      now rewrite app_cons_str.
  - intros (pre & post & ->). induction pre as [|a pre IH].
    + rewrite app_nil_l_str, includes_unfold.
      assert (H : String.prefix sub (sub +:+ post) = true)
        by (apply prefix_occurs; now exists post).
      now rewrite H.
    + rewrite app_cons_str, includes_unfold, IH. apply orb_true_r.
Qed.

(** X21. [getFeatures] writes [FEAT] and reads one reply. A code other
    than 211 is an [FtpException] carrying that code. On 211 each
    feature of the result holds exactly when its name occurs somewhere in
    the text of the reply, and the features that the connection itself
    keeps (those found at login, which gate the optional commands) are
    left as they were. *)
Theorem getFeatures_scans_the_reply c r q :
  ready c = true ->
  responseQueue c = r :: q ->
  let sent := after ["FEAT"] q c in
  features sent = features c
  /\ (code r <> 211 ->
      exists e,
        getFeatures c = (Throw e, sent)
        /\ cls e = FtpException /\ ecode e = Some (code r))
  /\ (code r = 211 ->
      exists f,
        getFeatures c = (Ok f, sent)
        /\ (MDTM f = true <-> occurs "MDTM" (message r))
        /\ (MFMT f = true <-> occurs "MFMT" (message r))
        /\ (MLSD f = true <-> occurs "MLSD" (message r))
        /\ (MLST f = true <-> occurs "MLST" (message r))
        /\ (SIZE f = true <-> occurs "SIZE" (message r))
        /\ (UTF8 f = true <-> occurs "UTF8" (message r))
        /\ (EPSV f = true <-> occurs "EPSV" (message r))).
Proof.
  destruct c as [rd w rb cb q0 f0 conf dp li]. cbn [ready responseQueue].
  intros -> ->.
  unfold getFeatures, FtpFeaturesCommand. run_commands.
  split; [reflexivity|]. split.
  - intros E. apply Z.eqb_neq in E. rewrite E. cbn [negb].
    eexists. repeat split.
  - intros E. apply Z.eqb_eq in E. rewrite E. cbn [negb].
    eexists. split; [reflexivity|]. unfold scan_features.
    cbn [MDTM MFMT MLSD MLST SIZE UTF8 EPSV].
    repeat split; apply includes_occurs.
Qed.

Lemma getFeatures_scans_the_reply_witness :
  let r := mkResponse 211 (Wire.line "Features:" +:+ Wire.line " MDTM"
                             +:+ Wire.line " REST STREAM" +:+ Wire.line " SIZE"
                             +:+ Wire.line "End") in
  let c := set_responseQueue [r] fresh in
  ready c = true
  /\ exists f,
       getFeatures c = (Ok f, after ["FEAT"] [] c)
       /\ features (after ["FEAT"] [] c) = no_features
       /\ MDTM f = true /\ SIZE f = true
       /\ (MFMT f = true <-> occurs "MFMT" (message r)).
Proof.
  intros r c. split; [reflexivity|].
  destruct (getFeatures_scans_the_reply c r [] eq_refl eq_refl) as (Hk & _ & Hok).
  destruct (Hok eq_refl) as (f & E & H1 & H2 & _ & _ & H5 & _).
  exists f. split; [exact E|]. split; [exact Hk|].
  split; [apply H1; exists (Wire.line "Features:" +:+ " "),
            (Wire.line "" +:+ Wire.line " REST STREAM" +:+ Wire.line " SIZE"
               +:+ Wire.line "End"); reflexivity|].
  split; [apply H5; exists (Wire.line "Features:" +:+ Wire.line " MDTM"
                              +:+ Wire.line " REST STREAM" +:+ " "),
            (Wire.line "" +:+ Wire.line "End"); reflexivity|].
  exact H2.
Defined.

End FeaturesProofs.

(** ** The recursive delete-directory below a nested path *)

Module RmDirProofs.
Import Regex Expressions ReplyGrammar Exceptions Definitions Connection Commands.
Import FtpClient Outcome Text Listing.
Import ParserProofs DataProofs ClientProofs CommandProofs ReplyProofs ListingProofs.

(** The listing command on a server that answers [EPSV] with a port and
    accepts the data connection, but does not open the transfer. *)
Lemma FtpListCommand_refused path pre port post c r1 r2 q peer peers :
  ready c = true -> MLSD (features c) = true ->
  Js.is_empty (host (configuration c)) = false ->
  responseQueue c = r1 :: r2 :: q ->
  message r1 = pre +:+ Js.string_of_number (Some port) +:+ post ->
  digit_free pre = true -> 0 < port <= 65535 -> stops_digits post = true ->
  code r2 <> 150 ->
  dataPeers c = peer :: peers -> accepts peer = true ->
  Js.is_empty (Js.trim path) = false ->
  send (FtpListCommand (Some path)) c
  = (Throw (new_full FtpException "Cannot get directory listing" (code r2) (message r2)),
     set_dataPeers peers (after ["EPSV"; "MLSD " +:+ path] q c)).
Proof.
  destruct c as [rd w rb cb q0 f conf dp li].
  cbn [ready features configuration responseQueue dataPeers].
  intros -> Hmlsd Hhost -> Hmsg Hpre Hport Hpost H150 -> Hacc Hpath.
  assert (Hp0 : 0 <= port) by lia.
  destruct (exec_RE_EPSV pre (Js.string_of_number (Some port)) post Hpre
              (string_of_number_nonempty port Hp0)
              (string_of_number_all_digits port Hp0) Hpost) as (m & Em & Hm).
  assert (Hparse : Js.parseInt (whole m) = Some port).
  { rewrite Hm, <- (app_nil_r_str (Js.string_of_number (Some port))).
    now apply parseInt_string_of_number. }
  assert (Hp : negb (Js.is_empty path) && negb (Js.is_empty (Js.trim path)) = true).
  { rewrite Hpath. now destruct path. }
  unfold FtpListCommand, FtpPassiveModeCommand, open_data_connection.
  rewrite Hp. unfold after. unfold_monad. conn_simpl.
  rewrite <- Hmsg in Em. rewrite Em. conn_simpl. rewrite Hhost, Hparse.
  replace (port <=? 0) with false by (symmetry; apply Z.leb_gt; lia).
  replace (65535 <? port) with false by (symmetry; apply Z.ltb_ge; lia).
  conn_simpl. rewrite Hacc. conn_simpl. rewrite Hmlsd. conn_simpl.
  replace (code r2 =? 150) with false by (symmetry; now apply Z.eqb_neq).
  cbn [negb map]. unfold Wire.line. rewrite <- !List.app_assoc. reflexivity.
Qed.

Lemma name_entry_of i : entry_of i !! "name" = Some (VString (name i)).
Proof.
  unfold entry_of. destruct (size i);
    rewrite ?lookup_insert_ne by discriminate; now rewrite lookup_insert_eq.
Qed.

(** X22. In the build under [lib/], the recursive [deleteDirectory]
    looks for the subdirectories under the first segment of the path, not
    under the path. Take a path [root/more] on a server that offers
    [MLSD], names ports from 1 to 65535 in its replies to [EPSV] and
    sends a listing that fits the first buffer, with sizes of at most
    2^53 and names and types in ASCII. Once the listing of the path has
    shown a directory [d], the next listing that the client asks for is
    that of [join(root, d)]; when the server does not open that listing
    the operation fails with an [FtpException] carrying its code, after
    [EPSV], [MLSD root/more], [EPSV] and [MLSD join(root, d)] and nothing
    else was written. The client reads no reply at the end of a listing:
    the replies to the second [EPSV] and [MLSD] are the two that are next
    in the queue after the 150 of the first. In the build of
    [connection.ts] the first listing does not return, as [readToEnd]
    does not settle there. *)
Theorem deleteDirectory_recursive_descends_from_first_segment
  root more pre port post pre' port' post' items d ds c r1 r2 r3 r4 q peer peer' peers :
  let path := root +:+ "/" +:+ more in
  let target := Path.join root (name d) in
  free_of "/" root = true ->
  ready c = true -> MLSD (features c) = true ->
  Js.is_empty (host (configuration c)) = false ->
  responseQueue c = r1 :: r2 :: r3 :: r4 :: q ->
  message r1 = pre +:+ Js.string_of_number (Some port) +:+ post ->
  digit_free pre = true -> 0 < port <= 65535 -> stops_digits post = true ->
  code r2 = 150 ->
  dataPeers c = peer :: peer' :: peers ->
  accepts peer = true -> ends_cleanly peer = true ->
  stream_of (chunks peer) = Stream.of_lines (map mlsd_line items) ->
  (String.length (stream_of (chunks peer)) <= chunkSize)%nat ->
  Forall (fun i => well_formed i = true) items ->
  Forall (fun i => representable i = true) items ->
  Js.is_empty (Js.trim path) = false ->
  List.filter (fun i => String.eqb (kind i) "dir") items = d :: ds ->
  message r3 = pre' +:+ Js.string_of_number (Some port') +:+ post' ->
  digit_free pre' = true -> 0 < port' <= 65535 -> stops_digits post' = true ->
  code r4 <> 150 ->
  accepts peer' = true ->
  Js.is_empty (Js.trim target) = false ->
  exists e,
    deleteDirectory (Some path) true c
    = (Throw e,
       set_dataPeers peers
         (after ["EPSV"; "MLSD " +:+ path; "EPSV"; "MLSD " +:+ target] q c))
    /\ cls e = FtpException /\ ecode e = Some (code r4).
Proof.
  intros path target Hroot Hr Hmlsd Hhost Hq Hm1 Hpre Hport Hpost H150 Hdp Hacc Hend
    Hdata Hfit Hwf _ Hpath Hdirs Hm3 Hpre' Hport' Hpost' Hr4 Hacc' Htarget.
  set (c1 := set_dataPeers (peer' :: peers)
               (after ["EPSV"; "MLSD " +:+ path] (r3 :: r4 :: q) c)).
  assert (E1 : getDirectories (Some path) c = (Ok (map entry_of (d :: ds)), c1)).
  { unfold getDirectories.
    rewrite (bind_Ok _ _ _ _ _
               (FtpListCommand_mlsd path pre port post items c r1 r2 (r3 :: r4 :: q)
                  peer (peer' :: peers) Hr Hmlsd Hhost Hq Hm1 Hpre Hport Hpost H150
                  Hdp Hacc Hend Hdata Hfit Hwf Hpath)).
    unfold resolve. now rewrite filter_entries, Hdirs. }
  assert (E2 : send (FtpListCommand (Some target)) c1
               = (Throw (new_full FtpException "Cannot get directory listing"
                           (code r4) (message r4)),
                  set_dataPeers peers (after ["EPSV"; "MLSD " +:+ target] q c1))).
  { apply (FtpListCommand_refused target pre' port' post' c1 r3 r4 q peer' peers);
      try assumption; subst c1; destruct c; cbn in *; congruence. }
  exists (new_full FtpException "Cannot get directory listing" (code r4) (message r4)).
  split; [|split; reflexivity].
  unfold deleteDirectory. cbn [negb].
  rewrite (bind_Ok _ _ _ _ _ E1).
  subst path. change (root +:+ "/" +:+ more) with (root +:+ String "/" more).
  rewrite (split_char_first "/" root more Hroot). cbn [head Js.str_of_undefined].
  unfold bind at 1, get at 1.
  cbn [map for_each]. rewrite name_entry_of. cbn [join_name].
  unfold bind at 1. unfold bind at 1, resolve at 1. cbn [rmDir].
  fold target. unfold getDirectories.
  rewrite (bind_Throw _ _ _ _ _ (bind_Throw _ _ _ _ _ E2)). cbv iota.
  f_equal. subst c1. destruct c. unfold after, set_dataPeers, set_responseQueue, set_written.
  cbn. now rewrite <- !List.app_assoc.
Qed.

Lemma deleteDirectory_recursive_descends_from_first_segment_witness :
  let sub := mkItem "dir" "20180702203936" None "c" in
  let file := mkItem "file" "20180608233854" (Some 419616) "steam.dll" in
  let epsv := mkResponse 229 (Wire.line "Entering Extended Passive Mode (|||9258|)") in
  let r2 := mkResponse 150 (Wire.line "Opening data channel for directory listing") in
  let r4 := mkResponse 550 (Wire.line "Directory not found") in
  let peer := mkPeer true [Stream.of_lines (map mlsd_line [file; sub])] true in
  let c := set_dataPeers [peer; mkPeer true [] true]
             (set_responseQueue [epsv; r2; epsv; r4]
                (set_features Wire.all_features fresh)) in
  Path.join "a" (name sub) = "a/c"
  /\ exists e,
       deleteDirectory (Some ("a" +:+ "/" +:+ "b")) true c
       = (Throw e,
          set_dataPeers []
            (after ["EPSV"; "MLSD " +:+ ("a" +:+ "/" +:+ "b"); "EPSV";
                    "MLSD " +:+ Path.join "a" (name sub)] [] c))
       /\ cls e = FtpException /\ ecode e = Some 550.
Proof.
  intros sub file epsv r2 r4 peer c. split; [reflexivity|].
  assert (Hwf : Forall (fun i => well_formed i = true) [file; sub])
    by (repeat constructor).
  assert (Hrep : Forall (fun i => representable i = true) [file; sub])
    by (repeat constructor).
  assert (Hport : 0 < 9258 <= 65535) by lia.
  assert (Hfit : (String.length (stream_of (chunks peer)) <= chunkSize)%nat)
    by (vm_compute; lia).
  assert (Hr4 : code r4 <> 150) by discriminate.
  exact (deleteDirectory_recursive_descends_from_first_segment
           "a" "b" "Entering Extended Passive Mode (|||" 9258 (Wire.line "|)")
           "Entering Extended Passive Mode (|||" 9258 (Wire.line "|)")
           [file; sub] sub [] c epsv r2 epsv r4 [] peer (mkPeer true [] true) []
           eq_refl eq_refl eq_refl eq_refl eq_refl eq_refl eq_refl Hport eq_refl
           eq_refl eq_refl eq_refl eq_refl eq_refl Hfit Hwf Hrep eq_refl
           eq_refl
           eq_refl eq_refl Hport eq_refl Hr4 eq_refl eq_refl).
Defined.

End RmDirProofs.

(** ** Uploads and downloads: the dialogue on the control connection *)

Module FileTransferProofs.
Import Regex Expressions ReplyGrammar Exceptions Definitions Connection Commands.
Import FtpClient Outcome Text.
Import ParserProofs DataProofs ClientProofs CommandProofs ReplyProofs ListingProofs.

(** X23. What [download] checks before the transfer. When the target
    exists on the local disk and [overwrite] is not set, it fails with an
    [FtpException] and sends nothing, even on a closed connection. Given
    a progress callback it first asks for the size of the file: on a
    server without the SIZE feature the download fails with an
    [FtpException] before anything is written, and a reply 550 to [SIZE]
    ends it with an [FtpFileNotFoundException] after [SIZE source] alone,
    before [EPSV] and [RETR]. *)
Theorem download_checks_before_the_transfer local source target overwrite c :
  (overwrite = false -> Fs.found local = true ->
   forall progress, refused (download local source target overwrite progress) FtpException c)
  /\ (negb overwrite && Fs.found local = false -> ready c = true ->
      (SIZE (features c) = false ->
       refused (download local source target overwrite true) FtpException c)
      /\ (SIZE (features c) = true ->
          forall r q,
            responseQueue c = r :: q -> code r = 550 ->
            exists e,
              download local source target overwrite true c
              = (Throw e, after ["SIZE " +:+ source] q c)
              /\ cls e = FtpFileNotFoundException)).
Proof.
  split.
  - intros -> Hf progress. unfold download. rewrite Hf. cbn [negb andb].
    eexists. split; reflexivity.
  - intros Hg Hr. unfold download. rewrite Hg.
    destruct c as [rd w rb cb q0 f conf dp li]. cbn [ready features responseQueue] in *.
    subst rd. unfold FtpRetrieveFileCommand, SizeCommand. split.
    + intros Hs. run_commands. rewrite Hs. eexists. split; reflexivity.
    + intros Hs r q -> H550. run_commands. rewrite Hs. conn_simpl.
      rewrite H550. cbn. eexists. split; reflexivity.
Qed.

Lemma download_checks_before_the_transfer_witness :
  refused (download (Fs.mkLocalFile true true) "steam.dll" "/tmp/steam.dll" false false)
    FtpException fresh
  /\ refused (download (Fs.mkLocalFile false true) "steam.dll" "/tmp/steam.dll" false true)
       FtpException fresh
  /\ exists e,
       download (Fs.mkLocalFile false true) "steam.dll" "/tmp/steam.dll" false true
         (set_responseQueue [mkResponse 550 (Wire.line "File not found")]
            (set_features Wire.all_features fresh))
       = (Throw e,
          after ["SIZE " +:+ "steam.dll"] []
            (set_responseQueue [mkResponse 550 (Wire.line "File not found")]
               (set_features Wire.all_features fresh)))
       /\ cls e = FtpFileNotFoundException.
Proof.
  split; [|split].
  - exact (proj1 (download_checks_before_the_transfer (Fs.mkLocalFile true true)
                    "steam.dll" "/tmp/steam.dll" false fresh) eq_refl eq_refl false).
  - exact (proj1 (proj2 (download_checks_before_the_transfer (Fs.mkLocalFile false true)
                           "steam.dll" "/tmp/steam.dll" false fresh) eq_refl eq_refl)
             eq_refl).
  - exact (proj2 (proj2 (download_checks_before_the_transfer (Fs.mkLocalFile false true)
                           "steam.dll" "/tmp/steam.dll" false
                           (set_responseQueue [mkResponse 550 (Wire.line "File not found")]
                              (set_features Wire.all_features fresh)))
                    eq_refl eq_refl)
             eq_refl _ _ eq_refl eq_refl).
Defined.

(** X24. The dialogue of [download] without a progress callback, on a
    server that answers [EPSV] with a port from 1 to 65535 and accepts
    the data connection: the client writes [EPSV] and [RETR source]. A reply other
    than 150 is an [FtpException] carrying its code. After 150 and a
    transfer that ends without an error the client reads one more reply:
    below 400 the download succeeds; from 400 on it fails with an
    [FtpException] that carries the code 150 and the text of the reply
    that opened the transfer, not those of the reply that reports the
    failure. *)
Theorem download_dialogue local source target overwrite pre port post c r1 r2 q peer peers :
  negb overwrite && Fs.found local = false ->
  ready c = true ->
  Js.is_empty (host (configuration c)) = false ->
  responseQueue c = r1 :: r2 :: q ->
  message r1 = pre +:+ Js.string_of_number (Some port) +:+ post ->
  digit_free pre = true -> 0 < port <= 65535 -> stops_digits post = true ->
  dataPeers c = peer :: peers -> accepts peer = true ->
  let run := download local source target overwrite false c in
  let sent q' := set_dataPeers peers (after ["EPSV"; "RETR " +:+ source] q' c) in
  (code r2 <> 150 ->
   exists e, run = (Throw e, sent q) /\ cls e = FtpException /\ ecode e = Some (code r2))
  /\ (code r2 = 150 -> ends_cleanly peer = true -> Fs.streams local = true ->
      forall r3 q',
        q = r3 :: q' ->
        (code r3 < 400 -> run = (Ok tt, sent q'))
        /\ (400 <= code r3 ->
            exists e,
              run = (Throw e, sent q') /\ cls e = FtpException
              /\ ecode e = Some 150 /\ innerException e = Some (message r2))).
Proof.
  intros Hg Hr Hhost Hq Hmsg Hpre Hport Hpost Hdp Hacc run sent. subst run sent.
  pose proof (FtpPassiveModeCommand_opens pre port post c r1 (r2 :: q) peer peers
                Hr Hhost Hq Hmsg Hpre Hport Hpost Hdp Hacc) as Hpsv.
  assert (E : download local source target overwrite false c
              = (psvConnection <- send FtpPassiveModeCommand ;;
                 write ("RETR " +:+ source) ;;
                 response <- getResponse ;;
                 if negb (code response =? 150)
                 then
                   reject
                     (new_full FtpException ("Cannot download file " +:+ source)
                        (code response) (message response))
                 else
                   (fun c => (data_download psvConnection (Fs.streams local), c)) ;;
                   transferResponse <- getResponse ;;
                   if 400 <=? code transferResponse
                   then
                     reject
                       (new_full FtpException ("Cannot download file " +:+ source)
                          (code response) (message response))
                   else resolve tt) c).
  { unfold download. rewrite Hg. unfold send at 1. rewrite Hr. reflexivity. }
  rewrite E, (bind_Ok _ _ _ _ _ Hpsv). clear E Hpsv.
  destruct c as [rd w rb cb q0 f conf dp li].
  cbn [ready configuration responseQueue dataPeers] in *. subst rd q0 dp.
  run_commands. split.
  - intros H150. apply Z.eqb_neq in H150. rewrite H150. cbn [negb].
    rewrite <- !List.app_assoc. eexists. repeat split.
  - intros H150 Hend Hstr r3 q' ->. rewrite H150. cbn [Z.eqb Pos.eqb negb].
    unfold data_download. rewrite Hend, Hstr. cbn [andb]. conn_simpl.
    rewrite <- !List.app_assoc. split.
    + intros Hlt. replace (400 <=? code r3) with false by (symmetry; apply Z.leb_gt; lia).
      reflexivity.
    + intros Hge. replace (400 <=? code r3) with true by (symmetry; apply Z.leb_le; lia).
      eexists. repeat split.
Qed.

Lemma download_dialogue_witness :
  let epsv := mkResponse 229 (Wire.line "Entering Extended Passive Mode (|||9258|)") in
  let r2 := mkResponse 150 (Wire.line "Opening data channel for file download") in
  let r3 := mkResponse 426 (Wire.line "Connection closed; transfer aborted") in
  let local := Fs.mkLocalFile false true in
  let c := set_dataPeers [Scenario.peer ["abc"]]
             (set_responseQueue [epsv; r2; r3] fresh) in
  exists e,
    download local "steam.dll" "/tmp/steam.dll" false false c
    = (Throw e, set_dataPeers [] (after ["EPSV"; "RETR " +:+ "steam.dll"] [] c))
    /\ cls e = FtpException /\ ecode e = Some 150
    /\ innerException e = Some (message r2).
Proof.
  intros epsv r2 r3 local c.
  assert (Hport : 0 < 9258 <= 65535) by lia.
  assert (Hge : 400 <= code r3) by (cbn; lia).
  destruct (download_dialogue local "steam.dll" "/tmp/steam.dll" false
              "Entering Extended Passive Mode (|||" 9258 (Wire.line "|)")
              c epsv r2 [r3] (Scenario.peer ["abc"]) []
              eq_refl eq_refl eq_refl eq_refl eq_refl eq_refl Hport eq_refl
              eq_refl eq_refl) as [_ H].
  destruct (H eq_refl eq_refl eq_refl r3 [] eq_refl) as [_ H'].
  exact (H' Hge).
Defined.

(** *** The name under which a file is stored *)

Lemma basename_scan_run l : forall acc r,
  Forall (fun a => Ascii.eqb a "/" = false) l ->
  Path.basename_scan (l ++ "/"%char :: r) acc false = rev l ++ acc.
Proof.
  induction l as [|b l IH]; intros acc r Hl.
  - reflexivity.
  - inversion Hl as [|? ? Hb Hl']; subst.
    cbn [List.app Path.basename_scan]. rewrite Hb, (IH _ _ Hl').
    cbn [rev]. now rewrite <- List.app_assoc.
Qed.

Lemma free_of_slash_chars name :
  free_of "/" name = true ->
  Forall (fun a => Ascii.eqb a "/" = false) (list_ascii_of_string name).
Proof.
  induction name as [|a name IH]; intros Hf; [constructor|].
  cbn [free_of all_chars] in Hf. apply andb_prop in Hf as [Ha Hn].
  apply negb_true_iff in Ha. rewrite Ascii.eqb_sym in Ha.
  constructor; [exact Ha|]. now apply IH.
Qed.

Lemma list_ascii_of_string_app a b :
  list_ascii_of_string (a +:+ b) = list_ascii_of_string a ++ list_ascii_of_string b.
Proof.
  induction a as [|x a IH]; [now rewrite app_nil_l_str|].
  rewrite app_cons_str. cbn [list_ascii_of_string List.app]. now rewrite IH.
Qed.

(** [basename] of a path that ends in a slash-free, non-empty segment. *)
Lemma basename_last_segment dir name :
  Js.is_empty name = false -> free_of "/" name = true ->
  Path.basename (dir +:+ "/" +:+ name) = name.
Proof.
  intros Hne Hf. unfold Path.basename.
  rewrite !list_ascii_of_string_app, !rev_app_distr.
  change (rev (list_ascii_of_string "/")) with ["/"%char].
  rewrite <- List.app_assoc. cbn [List.app].
  pose proof (free_of_slash_chars name Hf) as Hall.
  apply Forall_rev in Hall.
  destruct (rev (list_ascii_of_string name)) as [|b l] eqn:El.
  - apply (f_equal (@rev ascii)) in El. rewrite rev_involutive in El.
    destruct name; [discriminate|discriminate].
  - inversion Hall as [|? ? Hb Hl]; subst.
    cbn [List.app Path.basename_scan]. rewrite Hb, (basename_scan_run l _ _ Hl).
    change (rev l ++ [b]) with (rev l ++ rev [b]).
    rewrite <- rev_app_distr. cbn [List.app]. rewrite <- El, rev_involutive.
    apply string_of_list_ascii_of_string.
Qed.

(** X25. The dialogue of [upload] for a local file that exists, under a
    given name, on a server that answers [EPSV] with a port from 1 to
    65535 and accepts the data connection: the client writes [EPSV] and [STOR name]. A
    reply other than 150 is an [FtpException] carrying its code. After
    150 and a file stream that ends without an error the client reads one
    more reply: below 400 the upload succeeds (with [true]); from 400 on
    it fails with an [FtpException] carrying the code of that reply. *)
Theorem upload_dialogue local localPath name pre port post c r1 r2 q peer peers :
  Fs.found local = true -> Js.is_empty name = false ->
  ready c = true ->
  Js.is_empty (host (configuration c)) = false ->
  responseQueue c = r1 :: r2 :: q ->
  message r1 = pre +:+ Js.string_of_number (Some port) +:+ post ->
  digit_free pre = true -> 0 < port <= 65535 -> stops_digits post = true ->
  dataPeers c = peer :: peers -> accepts peer = true ->
  let run := upload local localPath (Some name) c in
  let sent q' := set_dataPeers peers (after ["EPSV"; "STOR " +:+ name] q' c) in
  (code r2 <> 150 ->
   exists e, run = (Throw e, sent q) /\ cls e = FtpException /\ ecode e = Some (code r2))
  /\ (code r2 = 150 -> Fs.streams local = true ->
      forall r3 q',
        q = r3 :: q' ->
        (code r3 < 400 -> run = (Ok true, sent q'))
        /\ (400 <= code r3 ->
            exists e,
              run = (Throw e, sent q') /\ cls e = FtpException
              /\ ecode e = Some (code r3))).
Proof.
  intros Hfound Hname Hr Hhost Hq Hmsg Hpre Hport Hpost Hdp Hacc run sent. subst run sent.
  pose proof (FtpPassiveModeCommand_opens pre port post c r1 (r2 :: q) peer peers
                Hr Hhost Hq Hmsg Hpre Hport Hpost Hdp Hacc) as Hpsv.
  unfold upload, new_StoreCommand. rewrite Hfound. cbn [negb].
  assert (Es : forall m : Promise bool, send m c = m c)
    by (intros m; unfold send; now rewrite Hr).
  rewrite !Es. clear Es. unfold StoreCommand_execute.
  destruct name as [|a name]; [discriminate|].
  rewrite !(bind_Ok _ _ _ _ _ Hpsv). clear Hpsv.
  destruct c as [rd w rb cb q0 f conf dp li].
  cbn [ready configuration responseQueue dataPeers] in *. subst rd q0 dp.
  run_commands. split.
  - intros H150. apply Z.eqb_neq in H150. rewrite H150. cbn [negb].
    rewrite <- !List.app_assoc. eexists. repeat split.
  - intros H150 Hstr r3 q' ->. rewrite H150. cbn [Z.eqb Pos.eqb negb].
    unfold data_upload. rewrite Hstr. conn_simpl.
    rewrite <- !List.app_assoc. split.
    + intros Hlt. replace (400 <=? code r3) with false by (symmetry; apply Z.leb_gt; lia).
      reflexivity.
    + intros Hge. replace (400 <=? code r3) with true by (symmetry; apply Z.leb_le; lia).
      eexists. repeat split.
Qed.

Lemma upload_dialogue_witness :
  let epsv := mkResponse 229 (Wire.line "Entering Extended Passive Mode (|||9258|)") in
  let r2 := mkResponse 150 (Wire.line "Opening data channel for file upload") in
  let r3 := mkResponse 226 (Wire.line "Successfully transferred") in
  let local := Fs.mkLocalFile true true in
  let c := set_dataPeers [Scenario.peer []] (set_responseQueue [epsv; r2; r3] fresh) in
  upload local "/home/user/steam.dll" (Some "steam.dll") c
  = (Ok true, set_dataPeers [] (after ["EPSV"; "STOR " +:+ "steam.dll"] [] c)).
Proof.
  intros epsv r2 r3 local c.
  assert (Hport : 0 < 9258 <= 65535) by lia.
  assert (Hlt : code r3 < 400) by (cbn; lia).
  destruct (upload_dialogue local "/home/user/steam.dll" "steam.dll"
              "Entering Extended Passive Mode (|||" 9258 (Wire.line "|)")
              c epsv r2 [r3] (Scenario.peer []) []
              eq_refl eq_refl eq_refl eq_refl eq_refl eq_refl eq_refl Hport eq_refl
              eq_refl eq_refl) as [_ H].
  destruct (H eq_refl eq_refl r3 [] eq_refl) as [H' _].
  exact (H' Hlt).
Defined.

(** X26. What [upload] does with its arguments. A local file that is
    missing fails the upload with an [FtpFileNotFoundException] raised by
    the constructor of the command: nothing is sent, and a closed
    connection is not even noticed. When no target name is given (absent
    or empty) the file is stored under the last segment of its local
    path: the upload runs exactly as if that segment had been given. *)
Theorem upload_checks_the_file_and_names_it local localPath c :
  (Fs.found local = false ->
   forall target, refused (upload local localPath target) FtpFileNotFoundException c)
  /\ (forall dir name,
        localPath = dir +:+ "/" +:+ name ->
        Js.is_empty name = false -> free_of "/" name = true ->
        upload local localPath None c = upload local localPath (Some name) c
        /\ upload local localPath (Some EmptyString) c
           = upload local localPath (Some name) c).
Proof.
  split.
  - intros Hf target. unfold upload, new_StoreCommand. rewrite Hf. cbn [negb].
    eexists. split; reflexivity.
  - intros dir name -> Hne Hfree.
    unfold upload, new_StoreCommand, StoreCommand_execute.
    rewrite (basename_last_segment dir name Hne Hfree).
    destruct name as [|a name]; [discriminate|]. split; reflexivity.
Qed.

Lemma upload_checks_the_file_and_names_it_witness :
  refused (upload (Fs.mkLocalFile false false) "/home/user/steam.dll" None)
    FtpFileNotFoundException fresh
  /\ upload (Fs.mkLocalFile true true) ("/home/user" +:+ "/" +:+ "steam.dll") None fresh
     = upload (Fs.mkLocalFile true true) ("/home/user" +:+ "/" +:+ "steam.dll")
         (Some "steam.dll") fresh.
Proof.
  split.
  - exact (proj1 (upload_checks_the_file_and_names_it (Fs.mkLocalFile false false)
                    "/home/user/steam.dll" fresh) eq_refl None).
  - exact (proj1 (proj2 (upload_checks_the_file_and_names_it (Fs.mkLocalFile true true)
                           ("/home/user" +:+ "/" +:+ "steam.dll") fresh)
                    "/home/user" "steam.dll" eq_refl eq_refl eq_refl)).
Defined.

End FileTransferProofs.
